(** * Change detection, retry and snapshot persistence of the two scrapers

    A shallow embedding of [lotterry-scraper.js] (class [LotteryManager]) and
    of the stock scraper (class [StockDataManager]).  Part I holds the model,
    Part II the facts about it, Part III the properties the specification
    states, Part IV further properties of the code. *)

From Stdlib Require Import String List ZArith Bool Arith Lia DecimalString.
Import ListNotations.
Local Open Scope string_scope.
Local Open Scope list_scope.

(* ====================================================================== *)
(** * Part I: the model *)
(* ====================================================================== *)

(** ** CONFIG *)

Module CONFIG.
Definition minInterval : Z := 10 * 60 * 1000.
Definition maxInterval : Z := 15 * 60 * 1000.
Definition maxRetries : nat := 3.
Definition retryDelay : Z := 5000.
End CONFIG.

(** ** The JavaScript [Map], with string keys

    A [Map] iterates in insertion order and [set] on a key that is already
    present replaces the value in place, so it is an association list whose
    keys are pairwise distinct. *)

Module JsMap.
Section Ops.
Context {V : Type}.

Definition t : Type := list (string * V).

Fixpoint set (m : t) (k : string) (v : V) : t :=
  match m with
  | [] => [(k, v)]
  | (k', v') :: m' =>
      if String.eqb k' k then (k', v) :: m' else (k', v') :: set m' k v
  end.

(** [new Map(iterable)]: every entry is [set] in turn. *)
Definition of_entries (es : list (string * V)) : t :=
  fold_left (fun m e => set m (fst e) (snd e)) es [].

Fixpoint get (m : t) (k : string) : option V :=
  match m with
  | [] => None
  | (k', v) :: m' => if String.eqb k' k then Some v else get m' k
  end.

Definition has (m : t) (k : string) : bool :=
  existsb (fun e => String.eqb (fst e) k) m.

(** [for (const [k, v] of m)] visits the entries in insertion order. *)
Definition entries (m : t) : list (string * V) := m.

End Ops.
End JsMap.

(** ** ChangeSet and detectChanges

    The two classes carry the same [detectChanges]; they differ in the
    identity field ([item.date], [item.stockName]) and in [hasDataChanged]. *)

Section ChangeDetector.
Context {Rec : Type}.
Variable idKey : Rec -> string.
Variable hasDataChanged : Rec -> Rec -> bool.

(** An entry of [changes.updated]: [{date | stockName, old, new}]. *)
Record Update : Type := mkUpdate { key : string; old : Rec; new : Rec }.

Record ChangeSet : Type := mkChanges {
  added : list Rec;
  updated : list Update;
  removed : list Rec
}.

Definition push_added (changes : ChangeSet) (r : Rec) : ChangeSet :=
  mkChanges (added changes ++ [r]) (updated changes) (removed changes).

Definition push_updated (changes : ChangeSet) (u : Update) : ChangeSet :=
  mkChanges (added changes) (updated changes ++ [u]) (removed changes).

Definition push_removed (changes : ChangeSet) (r : Rec) : ChangeSet :=
  mkChanges (added changes) (updated changes) (removed changes ++ [r]).

Definition keyed (data : list Rec) : list (string * Rec) :=
  map (fun item => (idKey item, item)) data.

Definition detectChanges (oldData newData : list Rec) : ChangeSet :=
  let changes := mkChanges [] [] [] in
  let oldMap := JsMap.of_entries (keyed oldData) in
  let newMap := JsMap.of_entries (keyed newData) in
  (* Find added and updated items *)
  let changes :=
    fold_left (fun changes e =>
                 let '(k, newItem) := e in
                 match JsMap.get oldMap k with
                 | None => push_added changes newItem
                 | Some oldItem =>
                     if hasDataChanged oldItem newItem
                     then push_updated changes (mkUpdate k oldItem newItem)
                     else changes
                 end)
              (JsMap.entries newMap) changes in
  (* Find removed items *)
  fold_left (fun changes e =>
               let '(k, oldItem) := e in
               if JsMap.has newMap k then changes
               else push_removed changes oldItem)
            (JsMap.entries oldMap) changes.

Definition totalChanges (changes : ChangeSet) : nat :=
  length (added changes) + length (updated changes) + length (removed changes).

End ChangeDetector.

Arguments Update Rec : clear implicits.
Arguments ChangeSet Rec : clear implicits.
Arguments mkUpdate {Rec} _ _ _.
Arguments key {Rec} _.
Arguments old {Rec} _.
Arguments new {Rec} _.
Arguments mkChanges {Rec} _ _ _.
Arguments added {Rec} _.
Arguments updated {Rec} _.
Arguments removed {Rec} _.
Arguments push_added {Rec} _ _.
Arguments push_updated {Rec} _ _.
Arguments push_removed {Rec} _ _.
Arguments totalChanges {Rec} _.

(** ** JavaScript values

    What [JSON.parse] can return, and [undefined] for a property that is not
    there.  The only numbers the program writes are lengths, so numbers are
    integers here. *)

Local Unset Elimination Schemes.
Inductive Value : Type :=
| VUndefined
| VNull
| VBool (b : bool)
| VNum (n : Z)
| VStr (s : string)
| VArr (items : list Value)
| VObj (fields : list (string * Value)).
Local Set Elimination Schemes.

Definition truthy (v : Value) : bool :=
  match v with
  | VUndefined | VNull => false
  | VBool b => b
  | VNum n => negb (n =? 0)%Z
  | VStr s => negb (String.eqb s "")
  | VArr _ | VObj _ => true
  end.

(** [a || b] *)
Definition js_or (a b : Value) : Value := if truthy a then a else b.

(** An own property of a parsed object; of a name that occurs twice
    [JSON.parse] keeps the last. *)
Fixpoint field (fields : list (string * Value)) (name : string) : Value :=
  match fields with
  | [] => VUndefined
  | (n, v) :: rest =>
      match field rest name with
      | VUndefined => if String.eqb n name then v else VUndefined
      | later => later
      end
  end.

(** [v.data].  [None] is the TypeError of reading a property of [null] or
    [undefined]; arrays, strings, numbers and booleans have no such property. *)
Definition get_data (v : Value) : option Value :=
  match v with
  | VUndefined | VNull => None
  | VObj fields => Some (field fields "data")
  | _ => Some VUndefined
  end.

(** JavaScript [===] on values that are a string or [null]. *)
Definition strict_eq (a b : option string) : bool :=
  match a, b with
  | Some x, Some y => String.eqb x y
  | None, None => true
  | _, _ => false
  end.

Definition of_nullable (a : option string) : Value :=
  match a with Some s => VStr s | None => VNull end.

Definition to_nullable (v : Value) : option (option string) :=
  match v with
  | VStr s => Some (Some s)
  | VNull => Some None
  | _ => None
  end.

(** ** Errors, log lines and effects *)

Record Err : Type := mkErr { code : option string; message : string }.

Definition ENOENT : Err := mkErr (Some "ENOENT") "ENOENT: no such file or directory".
Definition TypeError (m : string) : Err := mkErr None m.

(** One constructor per log line of the two classes; the lottery and the
    stock wording of a line share a constructor. *)
Inductive Msg : Type :=
| MsgLoaded (n : nat)
| MsgNoDataFile
| MsgLoadError (m : string)
| MsgSaved (n : nat)
| MsgSaveError (m : string)
| MsgAttempt (attempt max : nat)
| MsgExtractedFor (date : string)
| MsgExtracted (n : nat)
| MsgAttemptFailed (attempt : nat) (m : string)
| MsgAllAttemptsFailed
| MsgNoNewData
| MsgAdded (n : nat)
| MsgAddedItem (k : string) (shown : list (option string))
| MsgUpdated (n : nat)
| MsgUpdatedItem (k : string) (before after : list (option string))
| MsgOldNew (before after : option string)
| MsgRemoved (n : nat)
| MsgRemovedItem (k : string) (shown : list (option string))
| MsgDataUpdated (total : nat)
| MsgNoChanges
| MsgCycleStart
| MsgCycleDone
| MsgCycleFailed (m : string)
| MsgNextRun (interval : Z)
| MsgAlreadyRunning
| MsgStarting
| MsgStarted
| MsgNotRunning
| MsgStopped.

(** The text of the data file: JSON, or something [JSON.parse] rejects. *)
Inductive Text : Type :=
| Garbled (e : Err)
| Json (v : Value).

Inductive FileState : Type :=
| Missing
| Unreadable (e : Err)
| Holds (t : Text).

Inductive Event : Type :=
| EvLog (timestamp : string) (m : Msg)
| EvFetch
| EvSleep (ms : Z)
| EvWrite (t : Text)
| EvSetTimeout (id : nat) (ms : Z)
| EvClearTimeout (id : nat).

(** ** The manager object and its surroundings *)

Section Machine.
Context {Rec Raw : Type}.

(** The fields set by the constructor.  [timeoutId] is [null] or the
    Timeout object [setTimeout] returned, which is never falsy; the number
    names the timer. *)
Record Manager : Type := mkManager {
  currentData : list Rec;
  isRunning : bool;
  timeoutId : option nat
}.

Inductive Fetched : Type :=
| Returns (r : Raw)
| Raises (e : Err).

(** What the surroundings answer: the n-th call of the fetch operation, the
    n-th reading of the clock, the n-th [writeFile] ([None]: written; an
    error leaves the file in the given state), the n-th random draw. *)
Record Oracle : Type := mkOracle {
  fetcher : nat -> Fetched;
  clock : nat -> string;
  writeOutcome : nat -> option (Err * FileState);
  random : nat -> Z
}.

Record World : Type := mkWorld {
  this : Manager;
  dataFile : FileState;
  timers : list (nat * Z);
  trace : list Event;
  fetches : nat;
  clockReads : nat;
  writes : nat;
  draws : nat;
  timersMade : nat;
  oracle : Oracle
}.

Definition set_this (m : Manager) (w : World) : World :=
  mkWorld m (dataFile w) (timers w) (trace w) (fetches w) (clockReads w)
          (writes w) (draws w) (timersMade w) (oracle w).
Definition set_dataFile (f : FileState) (w : World) : World :=
  mkWorld (this w) f (timers w) (trace w) (fetches w) (clockReads w)
          (writes w) (draws w) (timersMade w) (oracle w).
Definition set_timers (ts : list (nat * Z)) (w : World) : World :=
  mkWorld (this w) (dataFile w) ts (trace w) (fetches w) (clockReads w)
          (writes w) (draws w) (timersMade w) (oracle w).
Definition set_trace (tr : list Event) (w : World) : World :=
  mkWorld (this w) (dataFile w) (timers w) tr (fetches w) (clockReads w)
          (writes w) (draws w) (timersMade w) (oracle w).
Definition set_fetches (n : nat) (w : World) : World :=
  mkWorld (this w) (dataFile w) (timers w) (trace w) n (clockReads w)
          (writes w) (draws w) (timersMade w) (oracle w).
Definition set_clockReads (n : nat) (w : World) : World :=
  mkWorld (this w) (dataFile w) (timers w) (trace w) (fetches w) n
          (writes w) (draws w) (timersMade w) (oracle w).
Definition set_writes (n : nat) (w : World) : World :=
  mkWorld (this w) (dataFile w) (timers w) (trace w) (fetches w) (clockReads w)
          n (draws w) (timersMade w) (oracle w).
Definition set_draws (n : nat) (w : World) : World :=
  mkWorld (this w) (dataFile w) (timers w) (trace w) (fetches w) (clockReads w)
          (writes w) n (timersMade w) (oracle w).
Definition set_timersMade (n : nat) (w : World) : World :=
  mkWorld (this w) (dataFile w) (timers w) (trace w) (fetches w) (clockReads w)
          (writes w) (draws w) n (oracle w).

(** *** The monad of the methods: state, exceptions

    [OutsideModel] marks a run that has stored in [currentData] something
    that is not an array of records; no handler catches it. *)
Inductive Result (A : Type) : Type :=
| Ok (a : A)
| Throw (e : Err)
| OutsideModel.

Definition M (A : Type) : Type := World -> Result A * World.

Definition ret {A : Type} (a : A) : M A := fun w => (Ok A a, w).

Definition bind {A B : Type} (c : M A) (f : A -> M B) : M B :=
  fun w =>
    match c w with
    | (Ok _ a, w') => f a w'
    | (Throw _ e, w') => (Throw B e, w')
    | (OutsideModel _, w') => (OutsideModel B, w')
    end.

Definition throw {A : Type} (e : Err) : M A := fun w => (Throw A e, w).

Definition outside {A : Type} : M A := fun w => (OutsideModel A, w).

(** [try { body } catch (e) { handler e }] *)
Definition try_catch {A : Type} (body : M A) (handler : Err -> M A) : M A :=
  fun w =>
    match body w with
    | (Throw _ e, w') => handler e w'
    | other => other
    end.

Definition getThis : M Manager := fun w => (Ok _ (this w), w).

Definition modify (f : World -> World) : M unit := fun w => (Ok _ tt, f w).

End Machine.

Arguments Manager Rec : clear implicits.
Arguments Fetched Raw : clear implicits.
Arguments Oracle Raw : clear implicits.
Arguments World Rec Raw : clear implicits.
Arguments M Rec Raw A : clear implicits.
Arguments Ok {A} a.
Arguments Throw {A} e.
Arguments OutsideModel {A}.

Declare Scope monad_scope.
Delimit Scope monad_scope with monad.
Notation "x <- c1 ;; c2" := (bind c1 (fun x => c2))
  (at level 61, c1 at next level, right associativity) : monad_scope.
Notation "c1 ;; c2" := (bind c1 (fun _ => c2))
  (at level 61, right associativity) : monad_scope.
Local Open Scope monad_scope.

Section Primitives.
Context {Rec Raw : Type}.
Local Abbreviation M := (M Rec Raw).

Definition emit (e : Event) : M unit :=
  modify (fun w => set_trace (trace w ++ [e]) w).

(** [new Date().toISOString()] *)
Definition now : M string :=
  fun w => (Ok (clock (oracle w) (clockReads w)), set_clockReads (S (clockReads w)) w).

(** [log(message)]: the line goes to the console with its timestamp.  The
    copy appended to the log file is not followed. *)
Definition log (message : Msg) : M unit :=
  timestamp <- now ;;
  emit (EvLog timestamp message).

(** [fs.readFile(CONFIG.dataFile, 'utf-8')] *)
Definition readFile : M Text :=
  fun w =>
    match dataFile w with
    | Missing => (Throw ENOENT, w)
    | Unreadable e => (Throw e, w)
    | Holds t => (Ok t, w)
    end.

Definition JSON_parse (content : Text) : M Value :=
  match content with
  | Garbled e => throw e
  | Json v => ret v
  end.

Definition JSON_stringify (v : Value) : Text := Json v.

(** [fs.writeFile(CONFIG.dataFile, content)] *)
Definition writeFile (content : Text) : M unit :=
  fun w =>
    let w' := set_writes (S (writes w)) (set_trace (trace w ++ [EvWrite content]) w) in
    match writeOutcome (oracle w) (writes w) with
    | None => (Ok tt, set_dataFile (Holds content) w')
    | Some (e, residue) => (Throw e, set_dataFile residue w')
    end.

(** One call of the fetch operation of the class ([fetchLottoData],
    [extractStockResults]).  The network, the page, and the log lines the
    operation writes on its own are the oracle's. *)
Definition fetch : M Raw :=
  fun w =>
    let w' := set_fetches (S (fetches w)) (set_trace (trace w ++ [EvFetch]) w) in
    match fetcher (oracle w) (fetches w) with
    | Returns r => (Ok r, w')
    | Raises e => (Throw e, w')
    end.

(** [await new Promise(resolve => setTimeout(resolve, ms))] *)
Definition sleep (ms : Z) : M unit := emit (EvSleep ms).

(** [setTimeout(callback, ms)] with the callback of [scheduleNextRun]. *)
Definition setTimeout (ms : Z) : M nat :=
  fun w =>
    let id := timersMade w in
    (Ok id,
     set_timersMade (S id)
       (set_timers (timers w ++ [(id, ms)])
          (set_trace (trace w ++ [EvSetTimeout id ms]) w))).

Definition clearTimeout (id : nat) : M unit :=
  modify (fun w =>
            set_timers (filter (fun t => negb (Nat.eqb (fst t) id)) (timers w))
              (set_trace (trace w ++ [EvClearTimeout id]) w)).

(** [Math.floor(Math.random() * n)] *)
Definition randomBelow (n : Z) : M Z :=
  fun w => (Ok (Z.modulo (random (oracle w) (draws w)) n), set_draws (S (draws w)) w).

Definition setCurrentData (data : list Rec) : M unit :=
  modify (fun w => set_this (mkManager data (isRunning (this w)) (timeoutId (this w))) w).

Definition setIsRunning (b : bool) : M unit :=
  modify (fun w => set_this (mkManager (currentData (this w)) b (timeoutId (this w))) w).

Definition setTimeoutId (id : option nat) : M unit :=
  modify (fun w => set_this (mkManager (currentData (this w)) (isRunning (this w)) id) w).

Fixpoint forEach {A : Type} (l : list A) (f : A -> M unit) : M unit :=
  match l with
  | [] => ret tt
  | a :: rest => f a ;; forEach rest f
  end.

Definition when (b : bool) (c : M unit) : M unit := if b then c else ret tt.

End Primitives.

(** ** loadExistingData and saveData *)

Section SnapshotStore.
Context {Rec Raw : Type}.
Variable encode : Rec -> Value.
Variable decode : Value -> option Rec.
Local Abbreviation M := (M Rec Raw).

Fixpoint decode_all (items : list Value) : option (list Rec) :=
  match items with
  | [] => Some []
  | v :: rest =>
      match decode v, decode_all rest with
      | Some r, Some rs => Some (r :: rs)
      | _, _ => None
      end
  end.

(** The records a value stands for, when it is an array of records. *)
Definition records_of (v : Value) : option (list Rec) :=
  match v with
  | VArr items => decode_all items
  | _ => None
  end.

Definition assignCurrentData (v : Value) : M unit :=
  match records_of v with
  | Some records => setCurrentData records
  | None => outside
  end.

Definition loadExistingData : M unit :=
  try_catch
    (content <- readFile ;;
     parsedData <- JSON_parse content ;;
     data <- match get_data parsedData with
             | Some d => ret d
             | None => throw (TypeError "Cannot read properties of null (reading 'data')")
             end ;;
     assignCurrentData (js_or data parsedData) ;;
     this_ <- getThis ;;
     log (MsgLoaded (length (currentData this_))))
    (fun err =>
       if strict_eq (code err) (Some "ENOENT")
       then log MsgNoDataFile ;; setCurrentData []
       else log (MsgLoadError (message err)) ;; setCurrentData []).

Definition saveData (data : list Rec) : M unit :=
  try_catch
    (lastUpdated <- now ;;
     let dataToSave :=
       VObj [("lastUpdated", VStr lastUpdated);
             ("recordCount", VNum (Z.of_nat (length data)));
             ("data", VArr (map encode data))] in
     writeFile (JSON_stringify dataToSave) ;;
     log (MsgSaved (length data)))
    (fun err => log (MsgSaveError (message err))).

End SnapshotStore.

(** ** The scheduler: scheduleNextRun, start, stop

    The same in both classes; [loadExistingData] and [runScrapingCycle] are
    the methods of the class at hand. *)

Section Scheduler.
Context {Rec Raw : Type}.
Variable loadExistingData : M Rec Raw unit.
Variable runScrapingCycle : M Rec Raw unit.
Variable lastUpdatedOf : Rec -> string.
Local Abbreviation M := (M Rec Raw).

Definition getRandomInterval : M Z :=
  r <- randomBelow (CONFIG.maxInterval - CONFIG.minInterval + 1) ;;
  ret (r + CONFIG.minInterval)%Z.

(** The timer armed here carries the callback [onTimeout] below, which the
    surroundings run through [fireTimer]. *)
Definition scheduleNextRun : M unit :=
  this_ <- getThis ;;
  if negb (isRunning this_) then ret tt
  else
    interval <- getRandomInterval ;;
    log (MsgNextRun interval) ;;
    id <- setTimeout interval ;;
    setTimeoutId (Some id).

(** The callback: [async () => { if (this.isRunning) { ... } }] *)
Definition onTimeout : M unit :=
  this_ <- getThis ;;
  if isRunning this_
  then runScrapingCycle ;; scheduleNextRun
  else ret tt.

(** The timer [id] expires: it stops being pending and its callback runs. *)
Definition fireTimer (id : nat) : M unit :=
  fun w =>
    if existsb (fun t => Nat.eqb (fst t) id) (timers w)
    then onTimeout (set_timers (filter (fun t => negb (Nat.eqb (fst t) id)) (timers w)) w)
    else (Ok tt, w).

Definition start : M unit :=
  this_ <- getThis ;;
  if isRunning this_
  then log MsgAlreadyRunning
  else
    setIsRunning true ;;
    log MsgStarting ;;
    loadExistingData ;;
    runScrapingCycle ;;
    scheduleNextRun ;;
    log MsgStarted.

Definition stop : M unit :=
  this_ <- getThis ;;
  if negb (isRunning this_)
  then log MsgNotRunning
  else
    setIsRunning false ;;
    (this_ <- getThis ;;
     match timeoutId this_ with
     | Some id => clearTimeout id ;; setTimeoutId None
     | None => ret tt
     end) ;;
    log MsgStopped.

Record Status : Type := mkStatus {
  status_isRunning : bool;
  status_recordCount : nat;
  status_lastUpdated : option string
}.

Definition getStatus : M Status :=
  this_ <- getThis ;;
  ret (mkStatus (isRunning this_)
                (length (currentData this_))
                (if (0 <? length (currentData this_))%nat
                 then option_map lastUpdatedOf (nth_error (currentData this_) 0)
                 else None)).

Definition getCurrentData : M (list Rec) :=
  this_ <- getThis ;;
  ret (currentData this_).

End Scheduler.

(** ** class LotteryManager *)

Module LotteryManager.

Record Prizes : Type := mkPrizes {
  firstPrize : option string;
  three_front : option string;
  three_end : option string;
  two_end : option string
}.

Record LotteryRecord : Type := mkRecord {
  date : string;
  prizes : Prizes;
  lastUpdated : string
}.

(** [fetchLottoData] returns a record or [null]. *)
Definition M : Type -> Type := M LotteryRecord (option LotteryRecord).
Definition World : Type := World LotteryRecord (option LotteryRecord).

Definition arePrizesEqual (p1 p2 : Prizes) : bool :=
  strict_eq (firstPrize p1) (firstPrize p2) &&
  strict_eq (three_front p1) (three_front p2) &&
  strict_eq (three_end p1) (three_end p2) &&
  strict_eq (two_end p1) (two_end p2).

Definition hasDataChanged (oldItem newItem : LotteryRecord) : bool :=
  negb (arePrizesEqual (prizes oldItem) (prizes newItem)).

Definition detectChanges :
  list LotteryRecord -> list LotteryRecord -> ChangeSet LotteryRecord :=
  detectChanges date hasDataChanged.

(** The record as [JSON.stringify] writes it and [JSON.parse] reads it. *)
Definition encode (r : LotteryRecord) : Value :=
  VObj [("date", VStr (date r));
        ("prizes", VObj [("firstPrize", of_nullable (firstPrize (prizes r)));
                         ("three_front", of_nullable (three_front (prizes r)));
                         ("three_end", of_nullable (three_end (prizes r)));
                         ("two_end", of_nullable (two_end (prizes r)))]);
        ("lastUpdated", VStr (lastUpdated r))].

Definition decode (v : Value) : option LotteryRecord :=
  match v with
  | VObj fs =>
      match field fs "date", field fs "prizes", field fs "lastUpdated" with
      | VStr d, VObj ps, VStr u =>
          match to_nullable (field ps "firstPrize"), to_nullable (field ps "three_front"),
                to_nullable (field ps "three_end"), to_nullable (field ps "two_end") with
          | Some a, Some b, Some c, Some e => Some (mkRecord d (mkPrizes a b c e) u)
          | _, _, _, _ => None
          end
      | _, _, _ => None
      end
  | _ => None
  end.

Definition loadExistingData : M unit := loadExistingData decode.
Definition saveData : list LotteryRecord -> M unit := saveData encode.

Definition fetchLottoData : M (option LotteryRecord) := fetch.

(** The [for] loop of [extractWithRetry]: [remaining] iterations are left,
    the next one with counter [attempt].  An iteration either returns from
    the method ([Some]) or falls through to the next one ([None]). *)
Fixpoint retryLoop (remaining attempt : nat) : M (option (list LotteryRecord)) :=
  match remaining with
  | O =>
      log MsgAllAttemptsFailed ;;
      ret None
  | S remaining' =>
      returned <-
        try_catch
          (log (MsgAttempt attempt CONFIG.maxRetries) ;;
           result <- fetchLottoData ;;
           match result with
           | Some record =>
               log (MsgExtractedFor (date record)) ;;
               ret (Some (Some [record]))
           | None => ret None
           end)
          (fun error =>
             log (MsgAttemptFailed attempt (message error)) ;;
             (if Nat.eqb attempt CONFIG.maxRetries then throw error else ret tt) ;;
             sleep CONFIG.retryDelay ;;
             ret None) ;;
      match returned with
      | Some value => ret value
      | None => retryLoop remaining' (S attempt)
      end
  end.

Definition extractWithRetry : M (option (list LotteryRecord)) :=
  retryLoop CONFIG.maxRetries 1.

Definition processNewData (newData : option (list LotteryRecord)) :
  M (ChangeSet LotteryRecord) :=
  match newData with
  | None | Some [] =>
      log MsgNoNewData ;;
      ret (mkChanges [] [] [])
  | Some newData =>
      this_ <- getThis ;;
      let changes := detectChanges (currentData this_) newData in
      when (0 <? length (added changes))%nat
        (log (MsgAdded (length (added changes))) ;;
         forEach (added changes) (fun record =>
           log (MsgAddedItem (date record) [firstPrize (prizes record)]))) ;;
      when (0 <? length (updated changes))%nat
        (log (MsgUpdated (length (updated changes))) ;;
         forEach (updated changes) (fun change =>
           log (MsgUpdatedItem (key change) [] []) ;;
           log (MsgOldNew (firstPrize (prizes (old change)))
                          (firstPrize (prizes (new change)))))) ;;
      when (0 <? length (removed changes))%nat
        (log (MsgRemoved (length (removed changes))) ;;
         forEach (removed changes) (fun record =>
           log (MsgRemovedItem (date record) [firstPrize (prizes record)]))) ;;
      let totalChanges :=
        (length (added changes) + length (updated changes) + length (removed changes))%nat in
      (if (0 <? totalChanges)%nat
       then
         setCurrentData newData ;;
         saveData newData ;;
         log (MsgDataUpdated totalChanges)
       else log MsgNoChanges) ;;
      ret changes
  end.

Definition runScrapingCycle : M unit :=
  try_catch
    (log MsgCycleStart ;;
     newData <- extractWithRetry ;;
     processNewData newData ;;
     log MsgCycleDone)
    (fun error => log (MsgCycleFailed (message error))).

Definition scheduleNextRun : M unit := scheduleNextRun.
Definition onTimeout : M unit := onTimeout runScrapingCycle.
Definition fireTimer : nat -> M unit := fireTimer runScrapingCycle.
Definition start : M unit := start loadExistingData runScrapingCycle.
Definition stop : M unit := stop.
Definition getStatus : M Status := getStatus lastUpdated.
Definition getCurrentData : M (list LotteryRecord) := getCurrentData.

(** [new LotteryManager()] *)
Definition constructor : Manager LotteryRecord := mkManager [] false None.

End LotteryManager.

(** ** class StockDataManager *)

Module StockDataManager.

Record StockRecord : Type := mkRecord {
  countryCode : string;
  stockName : string;
  threeDigits : string;
  twoDigits : string;
  lastUpdated : string
}.

(** [extractStockResults] returns an array of records. *)
Definition M : Type -> Type := M StockRecord (list StockRecord).
Definition World : Type := World StockRecord (list StockRecord).

Definition hasDataChanged (oldItem newItem : StockRecord) : bool :=
  negb (String.eqb (threeDigits oldItem) (threeDigits newItem)) ||
  negb (String.eqb (twoDigits oldItem) (twoDigits newItem)) ||
  negb (String.eqb (countryCode oldItem) (countryCode newItem)).

Definition detectChanges :
  list StockRecord -> list StockRecord -> ChangeSet StockRecord :=
  detectChanges stockName hasDataChanged.

Definition encode (r : StockRecord) : Value :=
  VObj [("countryCode", VStr (countryCode r));
        ("stockName", VStr (stockName r));
        ("threeDigits", VStr (threeDigits r));
        ("twoDigits", VStr (twoDigits r));
        ("lastUpdated", VStr (lastUpdated r))].

Definition decode (v : Value) : option StockRecord :=
  match v with
  | VObj fs =>
      match field fs "countryCode", field fs "stockName", field fs "threeDigits",
            field fs "twoDigits", field fs "lastUpdated" with
      | VStr c, VStr n, VStr t3, VStr t2, VStr u => Some (mkRecord c n t3 t2 u)
      | _, _, _, _, _ => None
      end
  | _ => None
  end.

Definition loadExistingData : M unit := loadExistingData decode.
Definition saveData : list StockRecord -> M unit := saveData encode.

Definition extractStockResults : M (list StockRecord) := fetch.

(** The [for] loop of [extractWithRetry]; a method that runs off its end
    returns [undefined], here [None]. *)
Fixpoint retryLoop (remaining attempt : nat) : M (option (list StockRecord)) :=
  match remaining with
  | O => ret None
  | S remaining' =>
      returned <-
        try_catch
          (log (MsgAttempt attempt CONFIG.maxRetries) ;;
           results <- extractStockResults ;;
           log (MsgExtracted (length results)) ;;
           ret (Some (Some results)))
          (fun error =>
             log (MsgAttemptFailed attempt (message error)) ;;
             (if Nat.eqb attempt CONFIG.maxRetries then throw error else ret tt) ;;
             sleep CONFIG.retryDelay ;;
             ret None) ;;
      match returned with
      | Some value => ret value
      | None => retryLoop remaining' (S attempt)
      end
  end.

Definition extractWithRetry : M (option (list StockRecord)) :=
  retryLoop CONFIG.maxRetries 1.

Definition processNewData (newData : option (list StockRecord)) :
  M (ChangeSet StockRecord) :=
  match newData with
  | None => throw (TypeError "Cannot read properties of undefined (reading 'map')")
  | Some newData =>
      this_ <- getThis ;;
      let changes := detectChanges (currentData this_) newData in
      when (0 <? length (added changes))%nat
        (log (MsgAdded (length (added changes))) ;;
         forEach (added changes) (fun stock =>
           log (MsgAddedItem (stockName stock)
                             [Some (threeDigits stock); Some (twoDigits stock)]))) ;;
      when (0 <? length (updated changes))%nat
        (log (MsgUpdated (length (updated changes))) ;;
         forEach (updated changes) (fun change =>
           log (MsgUpdatedItem (key change)
                  [Some (threeDigits (old change)); Some (twoDigits (old change))]
                  [Some (threeDigits (new change)); Some (twoDigits (new change))]))) ;;
      when (0 <? length (removed changes))%nat
        (log (MsgRemoved (length (removed changes))) ;;
         forEach (removed changes) (fun stock =>
           log (MsgRemovedItem (stockName stock)
                               [Some (threeDigits stock); Some (twoDigits stock)]))) ;;
      let totalChanges :=
        (length (added changes) + length (updated changes) + length (removed changes))%nat in
      (if (0 <? totalChanges)%nat
       then
         setCurrentData newData ;;
         saveData newData ;;
         log (MsgDataUpdated totalChanges)
       else log MsgNoChanges) ;;
      ret changes
  end.

Definition runScrapingCycle : M unit :=
  try_catch
    (log MsgCycleStart ;;
     newData <- extractWithRetry ;;
     processNewData newData ;;
     log MsgCycleDone)
    (fun error => log (MsgCycleFailed (message error))).

Definition scheduleNextRun : M unit := scheduleNextRun.
Definition onTimeout : M unit := onTimeout runScrapingCycle.
Definition fireTimer : nat -> M unit := fireTimer runScrapingCycle.
Definition start : M unit := start loadExistingData runScrapingCycle.
Definition stop : M unit := stop.
Definition getStatus : M Status := getStatus lastUpdated.
Definition getCurrentData : M (list StockRecord) := getCurrentData.

(** [new StockDataManager()] *)
Definition constructor : Manager StockRecord := mkManager [] false None.

End StockDataManager.

(** ** fetchLottoData, from the HTTP response on

    [LotteryManager.fetchLottoData] above takes what the call returns from
    the oracle.  Here is the body of the method, as a function of what
    [fetch] answered and of the two readings of the clock the method can
    make; the lines it logs are not followed.  A number of the body that is
    not an integer behaves, in every operation made here, as any other
    number that is not 0. *)

Module LottoApi.
Import LotteryManager.

Record Response : Type := mkResponse {
  ok : bool;
  status : Z;
  (** the text [response.json()] parses *)
  body : Text
}.

(** [await fetch(url)] rejects or resolves to a response. *)
Inductive HttpAnswer : Type :=
| Rejects (e : Err)
| Responds (response : Response).

Definition nullish (v : Value) : bool :=
  match v with
  | VUndefined | VNull => true
  | _ => false
  end.

(** [v.name] for a [v] that is neither [null] nor [undefined] and a name
    that no prototype carries: only an object has it. *)
Definition property (v : Value) (name : string) : Value :=
  match v with
  | VObj fields => field fields name
  | _ => VUndefined
  end.

(** [v.length === 0] for a truthy [v]. *)
Definition length_is_zero (v : Value) : bool :=
  match v with
  | VArr items => (length items =? 0)%nat
  | VObj fields =>
      match field fields "length" with
      | VNum n => (n =? 0)%Z
      | _ => false
      end
  | _ => false
  end.

(** [v[i]?.number] for a [v] that is neither [null] nor [undefined]: the
    element of an array, or of an object under the key [String(i)]; a
    character of a string, like a number or a boolean, has no [number]. *)
Definition number_at (v : Value) (i : nat) : Value :=
  let element :=
    match v with
    | VArr items => nth i items VUndefined
    | VObj fields => field fields (NilZero.string_of_uint (Nat.to_uint i))
    | _ => VUndefined
    end in
  if nullish element then VUndefined else property element "number".

(** [v?.[i]?.number] *)
Definition opt_number_at (v : Value) (i : nat) : Value :=
  if nullish v then VUndefined else number_at v i.

Definition fetchLottoData (answer : HttpAnswer) (now_drawDate now_lastUpdated : string) :
  Result (option LotteryRecord) :=
  match answer with
  | Rejects e => Throw e
  | Responds response =>
      if negb (ok response) then Ok None
      else
        match body response with
        | Garbled e => Throw e
        | Json data =>
            if nullish data
            then Throw (TypeError "Cannot read properties of null (reading 'response')")
            else
              let result := property data "response" in
              if negb (truthy result)
                 || negb (truthy (property result "prizes"))
                 || length_is_zero (property result "prizes")
              then Ok None
              else
                let drawDate := js_or (property result "drawDate") (VStr now_drawDate) in
                let prizes :=
                  (js_or (number_at (property result "prizes") 0) VNull,
                   js_or (opt_number_at (property result "runningNumbers") 0) VNull,
                   js_or (opt_number_at (property result "runningNumbers") 1) VNull,
                   js_or (opt_number_at (property result "runningNumbers") 2) VNull) in
                let '(first, front, rear, two) := prizes in
                (* the typed record, when every field is a string or [null] *)
                match drawDate, to_nullable first, to_nullable front,
                      to_nullable rear, to_nullable two with
                | VStr date, Some a, Some b, Some c, Some d =>
                    Ok (Some (mkRecord date (mkPrizes a b c d) now_lastUpdated))
                | _, _, _, _, _ => OutsideModel
                end
        end
  end.

(** What a call hands to [extractWithRetry]. *)
Definition answer_of (outcome : Result (option LotteryRecord)) :
  option (Fetched (option LotteryRecord)) :=
  match outcome with
  | Ok result => Some (Returns result)
  | Throw e => Some (Raises e)
  | OutsideModel => None
  end.

End LottoApi.

(** ** Vocabulary of the statements *)

(** The step of [new Map(iterable)]. *)
Definition step_set {V : Type} (m : @JsMap.t V) (e : string * V) : JsMap.t :=
  JsMap.set m (fst e) (snd e).

(** The last record of a sequence that carries the identity key [k]. *)
Definition lookup_last {Rec : Type} (idKey : Rec -> string) (data : list Rec)
           (k : string) : option Rec :=
  find (fun r => String.eqb (idKey r) k) (rev data).

Definition is_log (e : Event) : bool :=
  match e with EvLog _ _ => true | _ => false end.

(** The calls of the fetch operation and the waits of a trace, in order. *)
Definition timing (tr : list Event) : list Event :=
  filter (fun e => match e with EvFetch | EvSleep _ => true | _ => false end) tr.

Section Vocabulary.
Context {Rec Raw : Type}.

(** [c] leaves the part [p] of the world as it found it. *)
Definition keeps {X A : Type} (p : World Rec Raw -> X) (c : M Rec Raw A) : Prop :=
  forall w, p (snd (c w)) = p w.

(** [c] returns normally and does nothing but write log lines. *)
Definition only_logs (c : M Rec Raw unit) : Prop :=
  forall w, exists n lines,
    Forall (fun e => is_log e = true) lines /\
    c w = (Ok tt, set_clockReads n (set_trace (trace w ++ lines) w)).

(** [c] never leaves the typed model. *)
Definition typed {A : Type} (c : M Rec Raw A) : Prop :=
  forall w, fst (c w) <> OutsideModel.

(** [c] always returns normally. *)
Definition total {A : Type} (c : M Rec Raw A) : Prop :=
  forall w, exists a, fst (c w) = Ok a.

(** Every pending timer is the one [timeoutId] remembers, and a stopped
    scheduler has none pending. *)
Definition timers_tracked (w : World Rec Raw) : Prop :=
  (forall t, In t (timers w) -> timeoutId (this w) = Some (fst t)) /\
  (isRunning (this w) = false -> timers w = []).

(** The delay [getRandomInterval] draws in the world [w]. *)
Definition interval_of (w : World Rec Raw) : Z :=
  (random (oracle w) (draws w) mod (CONFIG.maxInterval - CONFIG.minInterval + 1)
   + CONFIG.minInterval)%Z.

(** What the scheduler goes by. *)
Definition schedule (w : World Rec Raw) : bool * option nat * list (nat * Z) * nat :=
  (isRunning (this w), timeoutId (this w), timers w, timersMade w).

(** What a cycle can read or change besides the schedule. *)
Definition holdings (w : World Rec Raw) : Manager Rec * FileState * nat :=
  (this w, dataFile w, writes w).

End Vocabulary.

(** What a run of attempts that all raise leaves in the trace: [waits]
    attempts each followed by the retry delay, then the last attempt. *)
Fixpoint failed_attempts (waits : nat) : list Event :=
  match waits with
  | O => [EvFetch]
  | S waits' => EvFetch :: EvSleep CONFIG.retryDelay :: failed_attempts waits'
  end.

(** What a manager can be asked to do: its methods, and the expiry of a
    timer. *)
Inductive Call (Rec : Type) : Type :=
| CallStart
| CallStop
| TimerExpires (id : nat)
| CallLoadExistingData
| CallSaveData (data : list Rec)
| CallExtractWithRetry
| CallProcessNewData (newData : option (list Rec))
| CallRunScrapingCycle
| CallScheduleNextRun
| CallGetStatus
| CallGetCurrentData.

Arguments CallStart {Rec}.
Arguments CallStop {Rec}.
Arguments TimerExpires {Rec} id.
Arguments CallLoadExistingData {Rec}.
Arguments CallSaveData {Rec} data.
Arguments CallExtractWithRetry {Rec}.
Arguments CallProcessNewData {Rec} newData.
Arguments CallRunScrapingCycle {Rec}.
Arguments CallScheduleNextRun {Rec}.
Arguments CallGetStatus {Rec}.
Arguments CallGetCurrentData {Rec}.

(** The two-state machine of the scheduler: [true] is Running. *)
Definition next_running {Rec : Type} (c : Call Rec) (running : bool) : bool :=
  match c with
  | CallStart => true
  | CallStop => false
  | _ => running
  end.

(** The world a call leaves. *)
Definition after {Rec Raw A : Type} (c : M Rec Raw A) (w : World Rec Raw) : World Rec Raw :=
  snd (c w).

Definition lottery_call (c : Call LotteryManager.LotteryRecord) :
  LotteryManager.World -> LotteryManager.World :=
  match c with
  | CallStart => after LotteryManager.start
  | CallStop => after LotteryManager.stop
  | TimerExpires id => after (LotteryManager.fireTimer id)
  | CallLoadExistingData => after LotteryManager.loadExistingData
  | CallSaveData data => after (LotteryManager.saveData data)
  | CallExtractWithRetry => after LotteryManager.extractWithRetry
  | CallProcessNewData newData => after (LotteryManager.processNewData newData)
  | CallRunScrapingCycle => after LotteryManager.runScrapingCycle
  | CallScheduleNextRun => after LotteryManager.scheduleNextRun
  | CallGetStatus => after LotteryManager.getStatus
  | CallGetCurrentData => after LotteryManager.getCurrentData
  end.

Definition stock_call (c : Call StockDataManager.StockRecord) :
  StockDataManager.World -> StockDataManager.World :=
  match c with
  | CallStart => after StockDataManager.start
  | CallStop => after StockDataManager.stop
  | TimerExpires id => after (StockDataManager.fireTimer id)
  | CallLoadExistingData => after StockDataManager.loadExistingData
  | CallSaveData data => after (StockDataManager.saveData data)
  | CallExtractWithRetry => after StockDataManager.extractWithRetry
  | CallProcessNewData newData => after (StockDataManager.processNewData newData)
  | CallRunScrapingCycle => after StockDataManager.runScrapingCycle
  | CallScheduleNextRun => after StockDataManager.scheduleNextRun
  | CallGetStatus => after StockDataManager.getStatus
  | CallGetCurrentData => after StockDataManager.getCurrentData
  end.

(** [scheduleNextRun] is called by [start] and by the timer's callback;
    the other calls are the ones that reach a manager from outside. *)
Definition from_outside {Rec : Type} (c : Call Rec) : bool :=
  match c with
  | CallScheduleNextRun => false
  | _ => true
  end.

(** The wrapped form [saveData] writes. *)
Definition wrapped (lastUpdated : string) (recordCount : Z) (data : Value) : Value :=
  VObj [("lastUpdated", VStr lastUpdated); ("recordCount", VNum recordCount); ("data", data)].

(** ** Sample records and worlds *)

Module Samples.

Definition draw1 : LotteryManager.LotteryRecord :=
  LotteryManager.mkRecord "2025-07-01"
    (LotteryManager.mkPrizes (Some "123456") (Some "111") (Some "222") (Some "33"))
    "2025-07-01T09:00:00.000Z".

(** The same draw fetched again later. *)
Definition draw1_again : LotteryManager.LotteryRecord :=
  LotteryManager.mkRecord "2025-07-01"
    (LotteryManager.mkPrizes (Some "123456") (Some "111") (Some "222") (Some "33"))
    "2025-07-01T09:12:00.000Z".

(** The same draw with another first prize. *)
Definition draw1_revised : LotteryManager.LotteryRecord :=
  LotteryManager.mkRecord "2025-07-01"
    (LotteryManager.mkPrizes (Some "654321") (Some "111") (Some "222") (Some "33"))
    "2025-07-01T09:12:00.000Z".

Definition draw2 : LotteryManager.LotteryRecord :=
  LotteryManager.mkRecord "2025-07-16"
    (LotteryManager.mkPrizes (Some "777777") (Some "010") None (Some "99"))
    "2025-07-16T09:00:00.000Z".

Definition nikkei : StockDataManager.StockRecord :=
  StockDataManager.mkRecord "jp" "NIKKEI" "123" "45" "2025-07-01T09:00:00.000Z".

Definition nikkei_again : StockDataManager.StockRecord :=
  StockDataManager.mkRecord "jp" "NIKKEI" "123" "45" "2025-07-01T09:12:00.000Z".

Definition nikkei_revised : StockDataManager.StockRecord :=
  StockDataManager.mkRecord "jp" "NIKKEI" "987" "65" "2025-07-01T09:12:00.000Z".

Definition dowjones : StockDataManager.StockRecord :=
  StockDataManager.mkRecord "us" "DOW JONES" "456" "78" "2025-07-01T09:00:00.000Z".

Definition boom : Err := mkErr None "fetch failed".

Definition oracle_of {Raw : Type} (answers : nat -> Fetched Raw) : Oracle Raw :=
  mkOracle answers (fun _ => "2025-07-01T09:30:00.000Z") (fun _ => None) (fun _ => 0%Z).

(** A manager holding [data], Stopped or Running, with no timer pending and
    no data file. *)
Definition world_of {Rec Raw : Type} (data : list Rec) (running : bool)
           (answers : nat -> Fetched Raw) : World Rec Raw :=
  mkWorld (mkManager data running None) Missing [] [] 0 0 0 0 0 (oracle_of answers).

(** The API has no draw at the first call and has one from the second on. *)
Definition null_then_draw : LotteryManager.World :=
  world_of [] false
    (fun n => match n with
              | O => Returns None
              | S _ => Returns (Some draw1)
              end).

Definition always_null : LotteryManager.World :=
  world_of [] false (fun _ => Returns None).

(** No draw at the first call, an error at the second, the draw at the
    third. *)
Definition null_error_then_draw : LotteryManager.World :=
  world_of [] false
    (fun n => match n with
              | 0 => Returns None
              | 1 => Raises boom
              | _ => Returns (Some draw1)
              end).

(** An error at the first call, no draw afterwards. *)
Definition error_then_nulls : LotteryManager.World :=
  world_of [draw1] true
    (fun n => match n with
              | 0 => Raises boom
              | _ => Returns None
              end).

(** A manager holding the first draw; the API fails once, then has the
    second draw. *)
Definition lottery_new_draw : LotteryManager.World :=
  world_of [draw1] true
    (fun n => match n with
              | 0 => Raises boom
              | _ => Returns (Some draw2)
              end).

Definition lottery_always_failing : LotteryManager.World :=
  world_of [draw1] true (fun _ => Raises boom).

Definition stock_always_failing : StockDataManager.World :=
  world_of [nikkei] true (fun _ => Raises boom).

Definition lottery_fresh : LotteryManager.World :=
  world_of [draw1] false (fun _ => Returns (Some draw1_again)).

Definition stock_listed : StockDataManager.World :=
  world_of [nikkei; dowjones] true (fun _ => Returns []).


(** The API answers 404 at every call. *)
Definition lottery_not_found : LotteryManager.World :=
  world_of [draw1] true (fun _ => Returns None).

(** A manager as the constructor makes it; the page fails to load once,
    then lists two stocks. *)
Definition stock_first_run : StockDataManager.World :=
  world_of [] false
    (fun n => match n with
              | 0 => Raises boom
              | _ => Returns [nikkei; dowjones]
              end).

End Samples.

(** ** The answers of the fetch operation *)

(** The answers the next [k] calls of the fetch operation will get. *)
Definition answers_from {Rec Raw : Type} (w : World Rec Raw) (k : nat) : list (Fetched Raw) :=
  map (fun i => fetcher (oracle w) (fetches w + i)) (seq 0 k).

Definition is_record {Rec : Type} (answer : Fetched (option Rec)) : bool :=
  match answer with
  | Returns (Some _) => true
  | _ => false
  end.

(** What an attempt that is not the last leaves in the trace when its answer
    is not a record: the call, and the wait when the call raised. *)
Definition attempt_events {Raw : Type} (answer : Fetched Raw) : list Event :=
  match answer with
  | Raises _ => [EvFetch; EvSleep CONFIG.retryDelay]
  | Returns _ => [EvFetch]
  end.

(* ====================================================================== *)
(** * Part II: facts about the model *)
(* ====================================================================== *)

(** ** Facts about the Map model *)

Section JsMapFacts.
Context {V : Type}.
Implicit Types (m acc : @JsMap.t V) (es : list (string * V)) (k : string) (v : V).

Lemma has_in_keys m k : JsMap.has m k = true <-> In k (map fst m).
Proof.
  unfold JsMap.has. rewrite existsb_exists. split.
  - intros [[k' v'] [Hin Heq]]. simpl in Heq. apply String.eqb_eq in Heq. subst k'.
    apply in_map_iff. exists (k, v'). auto.
  - intros Hin. apply in_map_iff in Hin. destruct Hin as [[k' v'] [Heq Hin]].
    simpl in Heq. subst k'. exists (k, v'). split; [assumption | apply String.eqb_refl].
Qed.

Lemma has_false_iff m k : JsMap.has m k = false <-> ~ In k (map fst m).
Proof.
  rewrite <- has_in_keys. destruct (JsMap.has m k); split; congruence.
Qed.

Lemma get_none_iff m k : JsMap.get m k = None <-> ~ In k (map fst m).
Proof.
  induction m as [| [k' v'] m IH]; simpl.
  - tauto.
  - destruct (String.eqb_spec k' k) as [-> | Hne].
    + split; [discriminate | intros H; exfalso; apply H; auto].
    + rewrite IH. tauto.
Qed.

Lemma get_some_in m k v : JsMap.get m k = Some v -> In (k, v) m.
Proof.
  induction m as [| [k' v'] m IH]; simpl; [discriminate |].
  destruct (String.eqb_spec k' k) as [-> | Hne].
  - intros [= ->]. auto.
  - auto.
Qed.

Lemma in_get_nodup m k v :
  NoDup (map fst m) -> In (k, v) m -> JsMap.get m k = Some v.
Proof.
  induction m as [| [k' v'] m IH]; simpl; [tauto |].
  intros Hnd [Heq | Hin].
  - injection Heq as -> ->. now rewrite String.eqb_refl.
  - inversion Hnd as [| ? ? Hnotin Hnd']; subst.
    destruct (String.eqb_spec k' k) as [-> | Hne].
    + exfalso. apply Hnotin. apply in_map_iff. exists (k, v). auto.
    + auto.
Qed.

Lemma set_fresh m k v : ~ In k (map fst m) -> JsMap.set m k v = m ++ [(k, v)].
Proof.
  induction m as [| [k' v'] m IH]; simpl; [reflexivity |].
  intros Hnotin. destruct (String.eqb_spec k' k) as [-> | Hne].
  - exfalso. auto.
  - rewrite IH; [reflexivity | tauto].
Qed.

Lemma set_keys m k v k' :
  In k' (map fst (JsMap.set m k v)) <-> k' = k \/ In k' (map fst m).
Proof.
  induction m as [| [k0 v0] m IH]; simpl.
  - intuition.
  - destruct (String.eqb_spec k0 k) as [-> | Hne]; simpl.
    + intuition.
    + rewrite IH. intuition.
Qed.

Lemma set_nodup m k v : NoDup (map fst m) -> NoDup (map fst (JsMap.set m k v)).
Proof.
  induction m as [| [k0 v0] m IH]; simpl; intros Hnd.
  - constructor; [simpl; tauto | constructor].
  - inversion Hnd as [| ? ? Hnotin Hnd']; subst.
    destruct (String.eqb_spec k0 k) as [-> | Hne]; simpl.
    + constructor; assumption.
    + constructor; [| auto]. rewrite set_keys. intros [-> | Hin]; [congruence | tauto].
Qed.

Lemma set_in m k v e :
  In e (JsMap.set m k v) -> e = (k, v) \/ In e m.
Proof.
  induction m as [| [k0 v0] m IH]; simpl.
  - intuition.
  - destruct (String.eqb_spec k0 k) as [-> | Hne]; simpl.
    + intros [<- | Hin]; auto.
    + intros [<- | Hin]; auto. apply IH in Hin. tauto.
Qed.

Lemma fold_set_keys es acc k :
  In k (map fst (fold_left step_set es acc)) <-> In k (map fst acc) \/ In k (map fst es).
Proof.
  revert acc. induction es as [| [k0 v0] es IH]; intros acc; simpl.
  - tauto.
  - rewrite IH. unfold step_set. simpl. rewrite set_keys. intuition.
Qed.

Lemma fold_set_nodup es acc :
  NoDup (map fst acc) -> NoDup (map fst (fold_left step_set es acc)).
Proof.
  revert acc. induction es as [| e es IH]; intros acc Hnd; simpl; [assumption |].
  apply IH. apply set_nodup. assumption.
Qed.

Lemma fold_set_in es acc e :
  In e (fold_left step_set es acc) -> In e acc \/ In e es.
Proof.
  revert acc. induction es as [| [k0 v0] es IH]; intros acc; simpl.
  - tauto.
  - intros Hin. apply IH in Hin. destruct Hin as [Hin | Hin]; [| tauto].
    apply set_in in Hin. simpl in Hin. intuition.
Qed.

Lemma fold_set_fresh es acc :
  NoDup (map fst (acc ++ es)) -> fold_left step_set es acc = acc ++ es.
Proof.
  revert acc. induction es as [| [k0 v0] es IH]; intros acc Hnd; simpl.
  - now rewrite app_nil_r.
  - change (step_set acc (k0, v0)) with (JsMap.set acc k0 v0). rewrite set_fresh.
    + rewrite IH; rewrite <- app_assoc; [reflexivity | exact Hnd].
    + rewrite map_app in Hnd. simpl in Hnd. apply NoDup_remove_2 in Hnd.
      intros Hin. apply Hnd. apply in_or_app. auto.
Qed.

Lemma of_entries_keys es k :
  In k (map fst (JsMap.of_entries es)) <-> In k (map fst es).
Proof.
  unfold JsMap.of_entries. change (fun m e => JsMap.set m (fst e) (snd e)) with (@step_set V).
  rewrite fold_set_keys. simpl. tauto.
Qed.

Lemma of_entries_nodup es : NoDup (map fst (JsMap.of_entries es)).
Proof.
  unfold JsMap.of_entries. change (fun m e => JsMap.set m (fst e) (snd e)) with (@step_set V).
  apply fold_set_nodup. constructor.
Qed.

Lemma of_entries_in es e : In e (JsMap.of_entries es) -> In e es.
Proof.
  unfold JsMap.of_entries. change (fun m e => JsMap.set m (fst e) (snd e)) with (@step_set V).
  intros Hin. apply fold_set_in in Hin. simpl in Hin. tauto.
Qed.

Lemma of_entries_fresh es : NoDup (map fst es) -> JsMap.of_entries es = es.
Proof.
  intros Hnd. unfold JsMap.of_entries.
  change (fun m e => JsMap.set m (fst e) (snd e)) with (@step_set V).
  now rewrite fold_set_fresh.
Qed.

Lemma get_set m k v k' :
  JsMap.get (JsMap.set m k v) k' = if String.eqb k k' then Some v else JsMap.get m k'.
Proof.
  induction m as [| [k0 v0] m IH]; simpl.
  - reflexivity.
  - destruct (String.eqb_spec k0 k) as [-> | Hne]; simpl.
    + destruct (String.eqb k k'); reflexivity.
    + rewrite IH. destruct (String.eqb_spec k0 k') as [-> | Hne'].
      * destruct (String.eqb_spec k k'); [congruence | reflexivity].
      * reflexivity.
Qed.

End JsMapFacts.

(** ** Facts about detectChanges *)

Section ChangeDetectorFacts.
Context {Rec : Type}.
Variable idKey : Rec -> string.
Variable hasDataChanged : Rec -> Rec -> bool.

Local Abbreviation detect := (detectChanges idKey hasDataChanged).
Local Abbreviation mapOf data := (JsMap.of_entries (keyed idKey data)).
Local Abbreviation is_absent m := (fun e : string * Rec =>
  match JsMap.get m (fst e) with None => true | Some _ => false end).
Local Abbreviation change_of m := (fun e : string * Rec =>
  match JsMap.get m (fst e) with
  | Some oldItem =>
      if hasDataChanged oldItem (snd e) then [mkUpdate (fst e) oldItem (snd e)] else []
  | None => []
  end).

Lemma keyed_keys (data : list Rec) : map fst (keyed idKey data) = map idKey data.
Proof. unfold keyed. rewrite map_map. reflexivity. Qed.

Lemma keyed_in (data : list Rec) k r :
  In (k, r) (keyed idKey data) <-> In r data /\ idKey r = k.
Proof.
  unfold keyed. rewrite in_map_iff. split.
  - intros [x [[= <- <-] Hin]]. auto.
  - intros [Hin <-]. exists r. auto.
Qed.

(** The first loop only appends to [added] and [updated]. *)
Lemma detect_loop_new (m : @JsMap.t Rec) (es : list (string * Rec)) (acc : ChangeSet Rec) :
  fold_left (fun changes e =>
               let '(k, newItem) := e in
               match JsMap.get m k with
               | None => push_added changes newItem
               | Some oldItem =>
                   if hasDataChanged oldItem newItem
                   then push_updated changes (mkUpdate k oldItem newItem)
                   else changes
               end) es acc
  = mkChanges (added acc ++ map snd (filter (is_absent m) es))
              (updated acc ++ flat_map (change_of m) es)
              (removed acc).
Proof.
  revert acc. induction es as [| [k newItem] es IH]; intros acc; simpl.
  - rewrite !app_nil_r. now destruct acc.
  - rewrite IH. destruct (JsMap.get m k) as [oldItem |]; simpl.
    + destruct (hasDataChanged oldItem newItem); simpl.
      * now rewrite <- app_assoc.
      * reflexivity.
    + now rewrite <- app_assoc.
Qed.

(** The second loop only appends to [removed]. *)
Lemma detect_loop_old (m : @JsMap.t Rec) (es : list (string * Rec)) (acc : ChangeSet Rec) :
  fold_left (fun changes e =>
               let '(k, oldItem) := e in
               if JsMap.has m k then changes else push_removed changes oldItem) es acc
  = mkChanges (added acc) (updated acc)
              (removed acc ++ map snd (filter (fun e => negb (JsMap.has m (fst e))) es)).
Proof.
  revert acc. induction es as [| [k oldItem] es IH]; intros acc; simpl.
  - rewrite app_nil_r. now destruct acc.
  - rewrite IH. destruct (JsMap.has m k); simpl.
    + reflexivity.
    + now rewrite <- app_assoc.
Qed.

(** detectChanges as three list comprehensions over the two Maps. *)
Lemma detectChanges_unfold (oldData newData : list Rec) :
  detect oldData newData =
  mkChanges
    (map snd (filter (is_absent (mapOf oldData)) (mapOf newData)))
    (flat_map (change_of (mapOf oldData)) (mapOf newData))
    (map snd (filter (fun e => negb (JsMap.has (mapOf newData) (fst e))) (mapOf oldData))).
Proof.
  unfold detectChanges, JsMap.entries.
  rewrite detect_loop_new, detect_loop_old. reflexivity.
Qed.

(** On sequences whose identity keys are pairwise distinct the Map is the
    sequence itself. *)
Lemma mapOf_unique (data : list Rec) :
  NoDup (map idKey data) -> mapOf data = keyed idKey data.
Proof.
  intros Hnd. apply of_entries_fresh. now rewrite keyed_keys.
Qed.

Lemma mapOf_in (data : list Rec) k r :
  In (k, r) (mapOf data) -> In r data /\ idKey r = k.
Proof. intros Hin. apply of_entries_in in Hin. now apply keyed_in. Qed.

Lemma mapOf_keys (data : list Rec) k :
  In k (map fst (mapOf data)) <-> In k (map idKey data).
Proof. now rewrite of_entries_keys, keyed_keys. Qed.

Lemma mapOf_get_some (data : list Rec) k r :
  JsMap.get (mapOf data) k = Some r -> In r data /\ idKey r = k.
Proof. intros Hget. apply get_some_in in Hget. now apply mapOf_in. Qed.

Lemma mapOf_get_unique (data : list Rec) r :
  NoDup (map idKey data) -> In r data -> JsMap.get (mapOf data) (idKey r) = Some r.
Proof.
  intros Hnd Hin. apply in_get_nodup; [apply of_entries_nodup |].
  rewrite mapOf_unique by assumption. now apply keyed_in.
Qed.

(** *** Membership in the three sequences, for identity-unique record sets *)

Lemma added_iff (oldData newData : list Rec) r :
  NoDup (map idKey newData) ->
  In r (added (detect oldData newData)) <->
  In r newData /\ ~ In (idKey r) (map idKey oldData).
Proof.
  intros Hnew. rewrite detectChanges_unfold. simpl.
  rewrite (mapOf_unique newData Hnew). rewrite in_map_iff. split.
  - intros [[k r'] [Heq Hin]]. simpl in Heq. subst r'.
    apply filter_In in Hin. destruct Hin as [Hin Habs].
    apply keyed_in in Hin. destruct Hin as [Hin <-]. split; [assumption |].
    simpl in Habs. destruct (JsMap.get (mapOf oldData) (idKey r)) eqn:Hget; [discriminate |].
    apply get_none_iff in Hget. now rewrite mapOf_keys in Hget.
  - intros [Hin Habs]. exists (idKey r, r). split; [reflexivity |].
    apply filter_In. split; [now apply keyed_in |]. simpl.
    rewrite <- mapOf_keys in Habs. apply get_none_iff in Habs. now rewrite Habs.
Qed.

Lemma removed_iff (oldData newData : list Rec) r :
  NoDup (map idKey oldData) ->
  In r (removed (detect oldData newData)) <->
  In r oldData /\ ~ In (idKey r) (map idKey newData).
Proof.
  intros Hold. rewrite detectChanges_unfold. simpl.
  rewrite (mapOf_unique oldData Hold). rewrite in_map_iff. split.
  - intros [[k r'] [Heq Hin]]. simpl in Heq. subst r'.
    apply filter_In in Hin. destruct Hin as [Hin Habs].
    apply keyed_in in Hin. destruct Hin as [Hin <-]. split; [assumption |].
    simpl in Habs. apply negb_true_iff in Habs. apply has_false_iff in Habs.
    now rewrite mapOf_keys in Habs.
  - intros [Hin Habs]. exists (idKey r, r). split; [reflexivity |].
    apply filter_In. split; [now apply keyed_in |]. simpl.
    apply negb_true_iff. apply has_false_iff. now rewrite mapOf_keys.
Qed.

Lemma updated_iff (oldData newData : list Rec) u :
  NoDup (map idKey oldData) -> NoDup (map idKey newData) ->
  In u (updated (detect oldData newData)) <->
  In (old u) oldData /\ In (new u) newData /\
  idKey (old u) = key u /\ idKey (new u) = key u /\
  hasDataChanged (old u) (new u) = true.
Proof.
  intros Hold Hnew. rewrite detectChanges_unfold. simpl.
  rewrite (mapOf_unique newData Hnew). rewrite in_flat_map. split.
  - intros [[k newItem] [Hin Hu]]. apply keyed_in in Hin. destruct Hin as [Hin <-].
    simpl in Hu. destruct (JsMap.get (mapOf oldData) (idKey newItem)) as [oldItem |] eqn:Hget;
      [| contradiction].
    apply mapOf_get_some in Hget. destruct Hget as [Hino Hk].
    destruct (hasDataChanged oldItem newItem) eqn:Hch; [| contradiction].
    destruct Hu as [<- | []]. simpl. auto.
  - intros (Hino & Hinn & Hko & Hkn & Hch). destruct u as [k oldItem newItem].
    simpl in *. subst k. exists (idKey newItem, newItem). split; [now apply keyed_in |].
    simpl. rewrite Hkn. rewrite (mapOf_get_unique oldData oldItem Hold Hino).
    rewrite Hch. simpl. auto.
Qed.

(** *** The exact sequences, for identity-unique record sets *)

Lemma added_exact (oldData newData : list Rec) :
  NoDup (map idKey newData) ->
  added (detect oldData newData) =
  filter (fun r => negb (existsb (fun o => String.eqb (idKey o) (idKey r)) oldData)) newData.
Proof.
  intros Hnew. rewrite detectChanges_unfold. simpl.
  rewrite (mapOf_unique newData Hnew). unfold keyed. clear Hnew.
  induction newData as [| r rest IH]; simpl; [reflexivity |].
  assert (Hsame : match JsMap.get (mapOf oldData) (idKey r) with
                  | None => true | Some _ => false end
                  = negb (existsb (fun o => String.eqb (idKey o) (idKey r)) oldData)).
  { destruct (JsMap.get (mapOf oldData) (idKey r)) eqn:Hget.
    - symmetry. apply negb_false_iff. apply existsb_exists.
      apply mapOf_get_some in Hget. destruct Hget as [Hin Hk].
      exists r0. split; [assumption | now apply String.eqb_eq].
    - symmetry. apply negb_true_iff. apply not_true_is_false. intros Hex.
      apply existsb_exists in Hex. destruct Hex as [o [Hin Heq]].
      apply String.eqb_eq in Heq. apply get_none_iff in Hget. apply Hget.
      apply mapOf_keys. rewrite <- Heq. now apply in_map. }
  unfold keyed in Hsame. rewrite Hsame. destruct (negb _); simpl; now rewrite IH.
Qed.

Lemma removed_exact (oldData newData : list Rec) :
  NoDup (map idKey oldData) ->
  removed (detect oldData newData) =
  filter (fun r => negb (existsb (fun n => String.eqb (idKey n) (idKey r)) newData)) oldData.
Proof.
  intros Hold. rewrite detectChanges_unfold. simpl.
  rewrite (mapOf_unique oldData Hold). unfold keyed. clear Hold.
  induction oldData as [| r rest IH]; simpl; [reflexivity |].
  assert (Hsame : JsMap.has (mapOf newData) (idKey r)
                  = existsb (fun n => String.eqb (idKey n) (idKey r)) newData).
  { destruct (existsb _ newData) eqn:Hex.
    - apply has_in_keys. apply mapOf_keys. apply existsb_exists in Hex.
      destruct Hex as [n [Hin Heq]]. apply String.eqb_eq in Heq.
      rewrite <- Heq. now apply in_map.
    - apply has_false_iff. rewrite mapOf_keys. intros Hin.
      apply in_map_iff in Hin. destruct Hin as [n [Heq Hin]].
      assert (existsb (fun n => String.eqb (idKey n) (idKey r)) newData = true).
      { apply existsb_exists. exists n. split; [assumption | now apply String.eqb_eq]. }
      congruence. }
  unfold keyed in Hsame. rewrite Hsame. destruct (existsb _ newData); simpl; now rewrite IH.
Qed.

(** *** Sequences with repeated keys: the last record of a key stands for it *)

Lemma find_snoc {A : Type} (f : A -> bool) (l : list A) (a : A) :
  find f (l ++ [a])
  = match find f l with
    | Some x => Some x
    | None => if f a then Some a else None
    end.
Proof.
  induction l as [| b l IH]; simpl; [reflexivity |].
  destruct (f b); [reflexivity | assumption].
Qed.

Lemma lookup_last_key (data : list Rec) k r :
  lookup_last idKey data k = Some r -> In r data /\ idKey r = k.
Proof.
  unfold lookup_last. intros H. apply find_some in H. destruct H as [Hin Heq].
  split; [now apply in_rev | now apply String.eqb_eq].
Qed.

Lemma get_fold_keyed (data : list Rec) (acc : @JsMap.t Rec) k :
  JsMap.get (fold_left step_set (keyed idKey data) acc) k
  = match lookup_last idKey data k with
    | Some r => Some r
    | None => JsMap.get acc k
    end.
Proof.
  revert acc. induction data as [| r data IH]; intros acc; simpl; [reflexivity |].
  rewrite IH. unfold lookup_last. simpl rev. rewrite find_snoc.
  destruct (find (fun r0 => String.eqb (idKey r0) k) (rev data)); [reflexivity |].
  unfold step_set. simpl. rewrite get_set.
  now destruct (String.eqb (idKey r) k).
Qed.

Lemma mapOf_get (data : list Rec) k :
  JsMap.get (mapOf data) k = lookup_last idKey data k.
Proof.
  unfold JsMap.of_entries.
  change (fun m e => JsMap.set m (fst e) (snd e)) with (@step_set Rec).
  rewrite get_fold_keyed. simpl. now destruct (lookup_last idKey data k).
Qed.

Lemma mapOf_entry_iff (data : list Rec) k r :
  In (k, r) (mapOf data) <-> lookup_last idKey data k = Some r.
Proof.
  rewrite <- mapOf_get. split.
  - apply in_get_nodup. apply of_entries_nodup.
  - apply get_some_in.
Qed.

Lemma mapOf_has (data : list Rec) k :
  JsMap.has (mapOf data) k = false <-> lookup_last idKey data k = None.
Proof. rewrite <- mapOf_get, has_false_iff, get_none_iff. tauto. Qed.

(** detectChanges on any two sequences, in terms of the record that stands
    for each key. *)
Lemma detectChanges_last_write_wins (oldData newData : list Rec) :
  (forall r, In r (added (detect oldData newData)) <->
             lookup_last idKey newData (idKey r) = Some r /\
             lookup_last idKey oldData (idKey r) = None) /\
  (forall r, In r (removed (detect oldData newData)) <->
             lookup_last idKey oldData (idKey r) = Some r /\
             lookup_last idKey newData (idKey r) = None) /\
  (forall u, In u (updated (detect oldData newData)) <->
             lookup_last idKey oldData (key u) = Some (old u) /\
             lookup_last idKey newData (key u) = Some (new u) /\
             hasDataChanged (old u) (new u) = true).
Proof.
  rewrite detectChanges_unfold. simpl. split; [| split].
  - intros r. rewrite in_map_iff. split.
    + intros [[k r'] [Heq Hin]]. simpl in Heq. subst r'.
      apply filter_In in Hin. destruct Hin as [Hin Habs]. simpl in Habs.
      apply mapOf_entry_iff in Hin.
      destruct (lookup_last_key _ _ _ Hin) as [_ <-]. split; [assumption |].
      rewrite mapOf_get in Habs.
      now destruct (lookup_last idKey oldData (idKey r)).
    + intros [Hn Ho]. exists (idKey r, r). split; [reflexivity |].
      apply filter_In. split; [now apply mapOf_entry_iff |].
      simpl. now rewrite mapOf_get, Ho.
  - intros r. rewrite in_map_iff. split.
    + intros [[k r'] [Heq Hin]]. simpl in Heq. subst r'.
      apply filter_In in Hin. destruct Hin as [Hin Habs]. simpl in Habs.
      apply mapOf_entry_iff in Hin.
      destruct (lookup_last_key _ _ _ Hin) as [_ <-]. split; [assumption |].
      apply negb_true_iff in Habs. now apply mapOf_has.
    + intros [Ho Hn]. exists (idKey r, r). split; [reflexivity |].
      apply filter_In. split; [now apply mapOf_entry_iff |].
      simpl. apply negb_true_iff. now apply mapOf_has.
  - intros u. rewrite in_flat_map. split.
    + intros [[k newItem] [Hin Hu]]. simpl in Hu. apply mapOf_entry_iff in Hin.
      rewrite mapOf_get in Hu.
      destruct (lookup_last idKey oldData k) as [oldItem |] eqn:Ho; [| contradiction].
      destruct (hasDataChanged oldItem newItem) eqn:Hch; [| contradiction].
      destruct Hu as [<- | []]. simpl. auto.
    + intros (Ho & Hn & Hch). destruct u as [k oldItem newItem]. simpl in *.
      exists (k, newItem). split; [now apply mapOf_entry_iff |].
      simpl. rewrite mapOf_get, Ho, Hch. simpl. auto.
Qed.

(** *** When nothing is reported *)

Lemma filter_none {A : Type} (f : A -> bool) (l : list A) :
  (forall x, In x l -> f x = false) -> filter f l = [].
Proof.
  induction l as [| a l IH]; simpl; intros H; [reflexivity |].
  rewrite (H a) by auto. apply IH. auto.
Qed.

Lemma flat_map_none {A B : Type} (f : A -> list B) (l : list A) :
  (forall x, In x l -> f x = []) -> flat_map f l = [].
Proof.
  induction l as [| a l IH]; simpl; intros H; [reflexivity |].
  rewrite (H a) by auto. simpl. apply IH. auto.
Qed.

Lemma detectChanges_nothing (oldData newData : list Rec) :
  (forall k, In k (map idKey oldData) <-> In k (map idKey newData)) ->
  (forall k oldItem newItem,
      JsMap.get (mapOf oldData) k = Some oldItem ->
      In (k, newItem) (mapOf newData) ->
      hasDataChanged oldItem newItem = false) ->
  detect oldData newData = mkChanges [] [] [].
Proof.
  intros Hkeys Hsame. rewrite detectChanges_unfold. f_equal.
  - rewrite filter_none; [reflexivity |]. intros [k newItem] Hin. simpl.
    destruct (JsMap.get (mapOf oldData) k) eqn:Hget; [reflexivity |].
    exfalso. apply get_none_iff in Hget. apply Hget.
    apply mapOf_keys, Hkeys, mapOf_keys. apply in_map_iff. exists (k, newItem). auto.
  - apply flat_map_none. intros [k newItem] Hin. simpl.
    destruct (JsMap.get (mapOf oldData) k) as [oldItem |] eqn:Hget; [| reflexivity].
    now rewrite (Hsame k oldItem newItem Hget Hin).
  - rewrite filter_none; [reflexivity |]. intros [k oldItem] Hin. simpl.
    apply negb_false_iff. apply has_in_keys.
    apply mapOf_keys, Hkeys, mapOf_keys. apply in_map_iff. exists (k, oldItem). auto.
Qed.

(** A record set compared with itself, duplicates or not. *)
Lemma detectChanges_same (data : list Rec) :
  (forall r, hasDataChanged r r = false) ->
  detect data data = mkChanges [] [] [].
Proof.
  intros Hrefl. apply detectChanges_nothing; [tauto |].
  intros k oldItem newItem Hget Hin.
  apply in_get_nodup in Hin; [| apply of_entries_nodup].
  rewrite Hget in Hin. injection Hin as ->. apply Hrefl.
Qed.

(** Two record sets with the same identity keys whose records agree, key by
    key, in the eyes of [hasDataChanged]. *)
Lemma detectChanges_agree (oldData newData : list Rec) :
  (forall k, In k (map idKey oldData) <-> In k (map idKey newData)) ->
  (forall oldItem newItem,
      In oldItem oldData -> In newItem newData -> idKey oldItem = idKey newItem ->
      hasDataChanged oldItem newItem = false) ->
  detect oldData newData = mkChanges [] [] [].
Proof.
  intros Hkeys Hsame. apply detectChanges_nothing; [assumption |].
  intros k oldItem newItem Hget Hin.
  apply mapOf_get_some in Hget. apply mapOf_in in Hin.
  destruct Hget as [Ho Hko], Hin as [Hn Hkn]. apply Hsame; congruence.
Qed.

(** With nothing fetched, every entry of the old Map is reported removed. *)
Lemma detectChanges_new_empty (oldData : list Rec) :
  detect oldData [] = mkChanges [] [] (map snd (mapOf oldData)).
Proof.
  rewrite detectChanges_unfold. simpl. f_equal. f_equal.
  induction (mapOf oldData) as [| e m IH]; simpl; [reflexivity | now rewrite IH].
Qed.

End ChangeDetectorFacts.

(** ** Frame facts of the monad and the primitives *)

Section MachineFacts.
Context {Rec Raw : Type}.
Local Abbreviation M := (M Rec Raw).
Local Abbreviation World := (World Rec Raw).

Lemma keeps_ret {X A : Type} (p : World -> X) (a : A) : keeps p (ret a).
Proof. intros w. reflexivity. Qed.

Lemma keeps_throw {X A : Type} (p : World -> X) (e : Err) : keeps p (@throw Rec Raw A e).
Proof. intros w. reflexivity. Qed.

Lemma keeps_bind {X A B : Type} (p : World -> X) (c : M A) (f : A -> M B) :
  keeps p c -> (forall a, keeps p (f a)) -> keeps p (bind c f).
Proof.
  intros Hc Hf w. unfold bind. specialize (Hc w).
  destruct (c w) as [[a | e |] w']; simpl in *; try assumption.
  now rewrite Hf.
Qed.

Lemma keeps_try {X A : Type} (p : World -> X) (body : M A) (handler : Err -> M A) :
  keeps p body -> (forall e, keeps p (handler e)) -> keeps p (try_catch body handler).
Proof.
  intros Hb Hh w. unfold try_catch. specialize (Hb w).
  destruct (body w) as [[a | e |] w']; simpl in *; try assumption.
  now rewrite Hh.
Qed.

Lemma keeps_forEach {X A : Type} (p : World -> X) (l : list A) (f : A -> M unit) :
  (forall a, keeps p (f a)) -> keeps p (forEach l f).
Proof.
  intros Hf. induction l as [| a l IH]; simpl.
  - apply keeps_ret.
  - apply keeps_bind; auto.
Qed.

Lemma keeps_when {X : Type} (p : World -> X) (b : bool) (c : M unit) :
  keeps p c -> keeps p (when b c).
Proof. intros Hc. destruct b; simpl; [assumption | apply keeps_ret]. Qed.

Lemma typed_ret {A : Type} (a : A) : typed (@ret Rec Raw A a).
Proof. intros w. discriminate. Qed.

Lemma typed_throw {A : Type} (e : Err) : typed (@throw Rec Raw A e).
Proof. intros w. discriminate. Qed.

Lemma typed_bind {A B : Type} (c : M A) (f : A -> M B) :
  typed c -> (forall a, typed (f a)) -> typed (bind c f).
Proof.
  intros Hc Hf w. unfold bind. specialize (Hc w).
  destruct (c w) as [[a | e |] w']; simpl in *; [apply Hf | discriminate | congruence].
Qed.

Lemma typed_try {A : Type} (body : M A) (handler : Err -> M A) :
  typed body -> (forall e, typed (handler e)) -> typed (try_catch body handler).
Proof.
  intros Hb Hh w. unfold try_catch. specialize (Hb w).
  destruct (body w) as [[a | e |] w']; simpl in *; [discriminate | apply Hh | congruence].
Qed.

Lemma total_typed {A : Type} (c : M A) : total c -> typed c.
Proof. intros Hc w. destruct (Hc w) as [a Ha]. congruence. Qed.

Lemma total_ret {A : Type} (a : A) : total (@ret Rec Raw A a).
Proof. intros w. now exists a. Qed.

Lemma total_bind {A B : Type} (c : M A) (f : A -> M B) :
  total c -> (forall a, total (f a)) -> total (bind c f).
Proof.
  intros Hc Hf w. unfold bind. destruct (Hc w) as [a Ha].
  destruct (c w) as [[a' | e |] w']; simpl in *; try discriminate.
  apply Hf.
Qed.

(** A [try] whose handler always returns normally always returns normally. *)
Lemma total_try {A : Type} (body : M A) (handler : Err -> M A) :
  typed body -> (forall e, total (handler e)) -> total (try_catch body handler).
Proof.
  intros Hb Hh w. unfold try_catch. specialize (Hb w).
  destruct (body w) as [[a | e |] w']; simpl in *.
  - now exists a.
  - apply Hh.
  - congruence.
Qed.

Lemma only_logs_log (m : Msg) : only_logs (@log Rec Raw m).
Proof.
  intros w. exists (S (clockReads w)), [EvLog (clock (oracle w) (clockReads w)) m].
  split; [repeat constructor | reflexivity].
Qed.

Lemma only_logs_ret : only_logs (@ret Rec Raw unit tt).
Proof.
  intros w. exists (clockReads w), []. split; [constructor |].
  unfold ret. rewrite app_nil_r. now destruct w.
Qed.

Lemma only_logs_bind (c : M unit) (f : unit -> M unit) :
  only_logs c -> (forall u, only_logs (f u)) -> only_logs (bind c f).
Proof.
  intros Hc Hf w. unfold bind. destruct (Hc w) as (n & l & Hl & ->).
  destruct (Hf tt (set_clockReads n (set_trace (trace w ++ l) w))) as (n' & l' & Hl' & ->).
  exists n', (l ++ l'). split; [now apply Forall_app |].
  simpl. now rewrite app_assoc.
Qed.

Lemma only_logs_forEach {A : Type} (l : list A) (f : A -> M unit) :
  (forall a, only_logs (f a)) -> only_logs (forEach l f).
Proof.
  intros Hf. induction l as [| a l IH]; simpl.
  - apply only_logs_ret.
  - apply only_logs_bind; auto.
Qed.

Lemma only_logs_when (b : bool) (c : M unit) : only_logs c -> only_logs (when b c).
Proof. intros Hc. destruct b; simpl; [assumption | apply only_logs_ret]. Qed.

Lemma only_logs_total (c : M unit) : only_logs c -> total c.
Proof. intros Hc w. destruct (Hc w) as (n & l & _ & ->). now exists tt. Qed.

Lemma only_logs_keeps {X : Type} (p : World -> X) (c : M unit) :
  (forall n tr w, p (set_clockReads n (set_trace tr w)) = p w) ->
  only_logs c -> keeps p c.
Proof. intros Hp Hc w. destruct (Hc w) as (n & l & _ & ->). apply Hp. Qed.

End MachineFacts.

Create HintDb machine.
#[export] Hint Unfold log now emit modify fetch readFile writeFile sleep setTimeout
  clearTimeout randomBelow setCurrentData setIsRunning setTimeoutId getThis
  JSON_parse ret throw outside bind
  LotteryManager.fetchLottoData StockDataManager.extractStockResults : machine.

(** A leaf of a frame argument: run the primitive and compare. *)
Ltac frame_leaf :=
  let w := fresh "w" in
  intro w;
  autounfold with machine;
  cbn;
  repeat match goal with
         | |- context [match ?x with _ => _ end] => destruct x; cbn
         end;
  reflexivity.

(** Frame arguments follow the shape of the method. *)
Ltac frame :=
  repeat first
    [ solve [auto]
    | apply keeps_bind | apply keeps_try | apply keeps_forEach | apply keeps_when
    | apply keeps_ret | apply keeps_throw
    | match goal with |- forall _, _ => intro end
    | match goal with |- keeps _ (match ?x with _ => _ end) => destruct x end
    | solve [frame_leaf] ].

Ltac typing_leaf :=
  let w := fresh "w" in
  intro w;
  autounfold with machine;
  cbn;
  repeat match goal with
         | |- context [match ?x with _ => _ end] => destruct x; cbn
         end;
  discriminate.

Ltac typing :=
  repeat first
    [ solve [auto]
    | apply typed_bind | apply typed_try | apply typed_ret | apply typed_throw
    | match goal with |- forall _, _ => intro end
    | match goal with |- typed (match ?x with _ => _ end) => destruct x end
    | solve [auto]
    | solve [typing_leaf] ].

Lemma timing_app (tr tr' : list Event) : timing (tr ++ tr') = timing tr ++ timing tr'.
Proof. unfold timing. apply filter_app. Qed.

Ltac timing_norm :=
  repeat rewrite timing_app; cbn [timing filter]; repeat rewrite app_nil_r;
  repeat rewrite <- app_assoc; cbn [app].

(** ** extractWithRetry of the lottery class *)

Module LotteryRetryFacts.
Import LotteryManager.

(** One iteration of the loop: the [try] statement. *)
Local Abbreviation iteration attempt :=
  (try_catch
     (log (MsgAttempt attempt CONFIG.maxRetries) ;;
      result <- fetchLottoData ;;
      match result with
      | Some record =>
          log (MsgExtractedFor (date record)) ;;
          ret (Some (Some [record]))
      | None => ret None
      end)
     (fun error =>
        log (MsgAttemptFailed attempt (message error)) ;;
        (if Nat.eqb attempt CONFIG.maxRetries then throw error else ret tt) ;;
        sleep CONFIG.retryDelay ;;
        ret None)).

Lemma lottery_retryLoop_S (remaining attempt : nat) :
  retryLoop (S remaining) attempt =
  (returned <- iteration attempt ;;
   match returned with
   | Some value => ret value
   | None => retryLoop remaining (S attempt)
   end).
Proof. reflexivity. Qed.

Lemma lottery_iteration_raises (attempt : nat) (w : World) (e : Err) (last : bool) :
  fetcher (oracle w) (fetches w) = Raises e ->
  Nat.eqb attempt CONFIG.maxRetries = last ->
  fst (iteration attempt w) = (if last then Throw e else Ok None) /\
  fetches (snd (iteration attempt w)) = S (fetches w) /\
  oracle (snd (iteration attempt w)) = oracle w /\
  timing (trace (snd (iteration attempt w)))
    = timing (trace w) ++
      (if last then [EvFetch] else [EvFetch; EvSleep CONFIG.retryDelay]).
Proof.
  intros He Hlast. unfold try_catch. autounfold with machine. cbn. rewrite He. cbn.
  rewrite Hlast. destruct last; cbn; repeat split; timing_norm; reflexivity.
Qed.

Lemma lottery_iteration_null (attempt : nat) (w : World) :
  fetcher (oracle w) (fetches w) = Returns None ->
  fst (iteration attempt w) = Ok None /\
  fetches (snd (iteration attempt w)) = S (fetches w) /\
  oracle (snd (iteration attempt w)) = oracle w /\
  timing (trace (snd (iteration attempt w))) = timing (trace w) ++ [EvFetch].
Proof.
  intros He. unfold try_catch. autounfold with machine. cbn. rewrite He. cbn.
  repeat split; timing_norm; reflexivity.
Qed.

Lemma lottery_iteration_record (attempt : nat) (w : World) (record : LotteryRecord) :
  fetcher (oracle w) (fetches w) = Returns (Some record) ->
  fst (iteration attempt w) = Ok (Some (Some [record])) /\
  fetches (snd (iteration attempt w)) = S (fetches w) /\
  oracle (snd (iteration attempt w)) = oracle w /\
  timing (trace (snd (iteration attempt w))) = timing (trace w) ++ [EvFetch].
Proof.
  intros He. unfold try_catch. autounfold with machine. cbn. rewrite He. cbn.
  repeat split; timing_norm; reflexivity.
Qed.

(** Attempts that all raise: the loop gives up at the attempt numbered
    [maxRetries], with the error of that attempt. *)
Lemma lottery_retryLoop_raises (waits attempt : nat) (w : World) :
  attempt + waits = CONFIG.maxRetries ->
  (forall i, i <= waits -> exists e, fetcher (oracle w) (fetches w + i) = Raises e) ->
  exists e,
    fetcher (oracle w) (fetches w + waits) = Raises e /\
    fst (retryLoop (S waits) attempt w) = Throw e /\
    fetches (snd (retryLoop (S waits) attempt w)) = fetches w + S waits /\
    timing (trace (snd (retryLoop (S waits) attempt w)))
      = timing (trace w) ++ failed_attempts waits.
Proof.
  revert attempt w. induction waits as [| waits IH]; intros attempt w Hsum Hall.
  - destruct (Hall 0 (le_n 0)) as [e He]. rewrite Nat.add_0_r in He.
    exists e. rewrite Nat.add_0_r. split; [assumption |].
    assert (Heq : Nat.eqb attempt CONFIG.maxRetries = true) by (apply Nat.eqb_eq; lia).
    destruct (lottery_iteration_raises attempt w e true He Heq) as (Hres & Hf & _ & Ht).
    assert (Hrun : retryLoop 1 attempt w = (Throw e, snd (iteration attempt w))).
    { rewrite lottery_retryLoop_S. unfold bind at 1.
      destruct (iteration attempt w) as [r w'] eqn:Hit. simpl in Hres |- *. now subst r. }
    rewrite Hrun. simpl fst. simpl snd.
    split; [reflexivity |]. split; [lia | assumption].
  - destruct (Hall 0 (Nat.le_0_l _)) as [e He]. rewrite Nat.add_0_r in He.
    assert (Hne : Nat.eqb attempt CONFIG.maxRetries = false) by (apply Nat.eqb_neq; lia).
    destruct (lottery_iteration_raises attempt w e false He Hne) as (Hres & Hf & Ho & Ht).
    assert (Hrun : retryLoop (S (S waits)) attempt w
                   = retryLoop (S waits) (S attempt) (snd (iteration attempt w))).
    { rewrite lottery_retryLoop_S. unfold bind at 1.
      destruct (iteration attempt w) as [r w'] eqn:Hit. simpl in Hres |- *. now subst r. }
    rewrite Hrun.
    destruct (IH (S attempt) (snd (iteration attempt w))) as (e' & He' & Hres' & Hf' & Ht').
    + lia.
    + intros i Hi. rewrite Ho, Hf. replace (S (fetches w) + i) with (fetches w + S i) by lia.
      apply Hall. lia.
    + exists e'. rewrite Ho, Hf in He'.
      replace (fetches w + S waits) with (S (fetches w) + waits) by lia.
      split; [assumption |]. split; [assumption |].
      split; [rewrite Hf', Hf; lia |].
      rewrite Ht', Ht. rewrite <- app_assoc. reflexivity.
Qed.

(** Attempts that all return [null]: the loop runs to its end, without
    waiting, and the method returns [null]. *)
Lemma lottery_retryLoop_nulls (remaining attempt : nat) (w : World) :
  (forall i, i < remaining -> fetcher (oracle w) (fetches w + i) = Returns None) ->
  fst (retryLoop remaining attempt w) = Ok None /\
  fetches (snd (retryLoop remaining attempt w)) = fetches w + remaining /\
  timing (trace (snd (retryLoop remaining attempt w)))
    = timing (trace w) ++ repeat EvFetch remaining.
Proof.
  revert attempt w. induction remaining as [| remaining IH]; intros attempt w Hall.
  - cbn [retryLoop]. autounfold with machine. cbn.
    repeat split; [lia | timing_norm; reflexivity].
  - assert (He : fetcher (oracle w) (fetches w) = Returns None).
    { rewrite <- (Nat.add_0_r (fetches w)). apply Hall. lia. }
    destruct (lottery_iteration_null attempt w He) as (Hres & Hf & Ho & Ht).
    assert (Hrun : retryLoop (S remaining) attempt w
                   = retryLoop remaining (S attempt) (snd (iteration attempt w))).
    { rewrite lottery_retryLoop_S. unfold bind at 1.
      destruct (iteration attempt w) as [r w'] eqn:Hit. simpl in Hres |- *. now subst r. }
    rewrite Hrun.
    destruct (IH (S attempt) (snd (iteration attempt w))) as (Hres' & Hf' & Ht').
    + intros i Hi. rewrite Ho, Hf. replace (S (fetches w) + i) with (fetches w + S i) by lia.
      apply Hall. lia.
    + split; [assumption |]. split; [rewrite Hf', Hf; lia |].
      rewrite Ht', Ht. rewrite <- app_assoc. reflexivity.
Qed.

(** A [null] answer does not end the loop: the next iteration starts from the
    world the attempt left, in which nothing was waited for. *)
Lemma lottery_retryLoop_null_continues (remaining attempt : nat) (w : World) :
  fetcher (oracle w) (fetches w) = Returns None ->
  retryLoop (S remaining) attempt w
    = retryLoop remaining (S attempt) (snd (iteration attempt w)).
Proof.
  intros He. destruct (lottery_iteration_null attempt w He) as (Hres & _).
  rewrite lottery_retryLoop_S. unfold bind at 1.
  destruct (iteration attempt w) as [r w'] eqn:Hit. simpl in Hres |- *. now subst r.
Qed.

Lemma lottery_retryLoop_record_returns (remaining attempt : nat) (w : World) (record : LotteryRecord) :
  fetcher (oracle w) (fetches w) = Returns (Some record) ->
  fst (retryLoop (S remaining) attempt w) = Ok (Some [record]) /\
  fetches (snd (retryLoop (S remaining) attempt w)) = S (fetches w) /\
  timing (trace (snd (retryLoop (S remaining) attempt w))) = timing (trace w) ++ [EvFetch].
Proof.
  intros He. destruct (lottery_iteration_record attempt w record He) as (Hres & Hf & _ & Ht).
  assert (Hrun : retryLoop (S remaining) attempt w
                 = (Ok (Some [record]), snd (iteration attempt w))).
  { rewrite lottery_retryLoop_S. unfold bind at 1.
    destruct (iteration attempt w) as [r w'] eqn:Hit. simpl in Hres |- *. now subst r. }
  rewrite Hrun. auto.
Qed.

End LotteryRetryFacts.

(** ** loadExistingData, saveData and the commit at the end of processNewData *)

Ltac logs :=
  repeat first
    [ apply only_logs_when | apply only_logs_bind | apply only_logs_forEach
    | apply only_logs_log | apply only_logs_ret
    | match goal with |- forall _, _ => intro end ].

Section SnapshotStoreFacts.
Context {Rec Raw : Type}.
Variable encode : Rec -> Value.
Variable decode : Value -> option Rec.
Hypothesis decode_encode : forall r, decode (encode r) = Some r.
Local Abbreviation M := (M Rec Raw).
Local Abbreviation World := (World Rec Raw).

Lemma decode_all_encode (data : list Rec) :
  decode_all decode (map encode data) = Some data.
Proof.
  induction data as [| r data IH]; simpl; [reflexivity |].
  now rewrite decode_encode, IH.
Qed.

Lemma bind_getThis {A : Type} (k : Manager Rec -> M A) (w : World) :
  bind getThis k w = k (this w) w.
Proof. reflexivity. Qed.

(** Log lines in front of [k] change nothing [k] can see but the trace and
    the number of clock readings. *)
Lemma logs_then {A : Type} (c : M unit) (k : unit -> M A) (w : World) :
  only_logs c ->
  exists n lines,
    Forall (fun e => is_log e = true) lines /\
    bind c k w = k tt (set_clockReads n (set_trace (trace w ++ lines) w)).
Proof.
  intros Hc. destruct (Hc w) as (n & lines & Hl & Heq).
  exists n, lines. split; [assumption |]. unfold bind. now rewrite Heq.
Qed.

Lemma saveData_run (data : list Rec) (w : World) :
  fst (saveData encode data w) = Ok tt /\
  this (snd (saveData encode data w)) = this w /\
  writes (snd (saveData encode data w)) = S (writes w) /\
  dataFile (snd (saveData encode data w))
    = match writeOutcome (oracle w) (writes w) with
      | None => Holds (Json (wrapped (clock (oracle w) (clockReads w))
                                     (Z.of_nat (length data)) (VArr (map encode data))))
      | Some (_, residue) => residue
      end.
Proof.
  unfold saveData, try_catch, JSON_stringify, wrapped. autounfold with machine. cbn.
  destruct (writeOutcome (oracle w) (writes w)) as [[e residue] |]; cbn; auto.
Qed.

Lemma saveData_total (data : list Rec) : total (@saveData Rec Raw encode data).
Proof. intros w. exists tt. apply saveData_run. Qed.

(** The end of [processNewData]: replace and save when something changed. *)
Lemma commit_run (total_ : nat) (newData : list Rec) (changes : ChangeSet Rec) (w : World) :
  let commit :=
    ((if (0 <? total_)%nat
      then setCurrentData newData ;; saveData encode newData ;; log (MsgDataUpdated total_)
      else log MsgNoChanges) ;;
     ret changes) in
  fst (commit w) = Ok changes /\
  this (snd (commit w))
    = (if (0 <? total_)%nat
       then mkManager newData (isRunning (this w)) (timeoutId (this w))
       else this w) /\
  writes (snd (commit w)) = (if (0 <? total_)%nat then S (writes w) else writes w) /\
  dataFile (snd (commit w))
    = (if (0 <? total_)%nat
       then match writeOutcome (oracle w) (writes w) with
            | None => Holds (Json (wrapped (clock (oracle w) (clockReads w))
                                           (Z.of_nat (length newData))
                                           (VArr (map encode newData))))
            | Some (_, residue) => residue
            end
       else dataFile w).
Proof.
  destruct (0 <? total_)%nat; cbv zeta.
  - unfold saveData, try_catch, JSON_stringify, wrapped. autounfold with machine. cbn.
    destruct (writeOutcome (oracle w) (writes w)) as [[e residue] |]; cbn; auto.
  - autounfold with machine. cbn. auto.
Qed.

(** What [loadExistingData] does with a file that holds JSON. *)
Lemma loadExistingData_json (w : World) (v d : Value) (records : list Rec) :
  dataFile w = Holds (Json v) ->
  get_data v = Some d ->
  records_of decode (js_or d v) = Some records ->
  fst (loadExistingData decode w) = Ok tt /\
  this (snd (loadExistingData decode w))
    = mkManager records (isRunning (this w)) (timeoutId (this w)) /\
  trace (snd (loadExistingData decode w))
    = trace w ++ [EvLog (clock (oracle w) (clockReads w)) (MsgLoaded (length records))] /\
  dataFile (snd (loadExistingData decode w)) = dataFile w.
Proof.
  intros Hfile Hdata Hrec.
  unfold loadExistingData, try_catch, assignCurrentData. autounfold with machine. cbn.
  rewrite Hfile. cbn. rewrite Hdata. cbn. rewrite Hrec. cbn. auto.
Qed.

(** A JSON file whose array does not hold records leaves the typed model. *)
Lemma loadExistingData_untyped (w : World) (v d : Value) :
  dataFile w = Holds (Json v) ->
  get_data v = Some d ->
  records_of decode (js_or d v) = None ->
  fst (loadExistingData decode w) = OutsideModel /\
  this (snd (loadExistingData decode w)) = this w /\
  trace (snd (loadExistingData decode w)) = trace w.
Proof.
  intros Hfile Hdata Hrec.
  unfold loadExistingData, try_catch, assignCurrentData. autounfold with machine. cbn.
  rewrite Hfile. cbn. rewrite Hdata. cbn. rewrite Hrec. cbn. auto.
Qed.

(** No file, an unreadable file, text that is not JSON, or the JSON [null]:
    the snapshot starts empty. *)
Lemma loadExistingData_fallback (w : World) :
  match dataFile w with
  | Missing | Unreadable _ | Holds (Garbled _) => True
  | Holds (Json v) => get_data v = None
  end ->
  fst (loadExistingData decode w) = Ok tt /\
  this (snd (loadExistingData decode w))
    = mkManager [] (isRunning (this w)) (timeoutId (this w)) /\
  dataFile (snd (loadExistingData decode w)) = dataFile w.
Proof.
  intros Hfile.
  destruct (dataFile w) as [| e | [e | v]] eqn:Hf;
    unfold loadExistingData, try_catch, assignCurrentData; autounfold with machine; cbn;
    rewrite Hf; cbn.
  - auto.
  - destruct (strict_eq (code e) (Some "ENOENT")); cbn; auto.
  - destruct (strict_eq (code e) (Some "ENOENT")); cbn; auto.
  - rewrite Hfile. cbn. auto.
Qed.

Lemma loadExistingData_keeps {X : Type} (p : World -> X) :
  (forall n tr w, p (set_clockReads n (set_trace tr w)) = p w) ->
  (forall data, keeps p (@setCurrentData Rec Raw data)) ->
  keeps p (@loadExistingData Rec Raw decode).
Proof.
  intros Hlog Hset.
  assert (Hl : forall m, keeps p (@log Rec Raw m)).
  { intros m. apply only_logs_keeps; [assumption | apply only_logs_log]. }
  unfold loadExistingData, assignCurrentData. frame.
Qed.

Lemma saveData_keeps {X : Type} (p : World -> X) (data : list Rec) :
  (forall n w, p (set_clockReads n w) = p w) ->
  (forall tr w, p (set_trace tr w) = p w) ->
  (forall n w, p (set_writes n w) = p w) ->
  (forall f w, p (set_dataFile f w) = p w) ->
  keeps p (@saveData Rec Raw encode data).
Proof.
  intros Hclock Htrace Hwrites Hfile w.
  unfold saveData, try_catch, JSON_stringify. autounfold with machine. cbn.
  destruct (writeOutcome (oracle w) (writes w)) as [[e residue] |]; cbn;
    now rewrite ?Htrace, ?Hclock, ?Hfile, ?Hwrites, ?Htrace, ?Hclock.
Qed.

End SnapshotStoreFacts.

Lemma strict_eq_iff (a b : option string) : strict_eq a b = true <-> a = b.
Proof.
  destruct a as [x |], b as [y |]; simpl; try (split; congruence).
  rewrite String.eqb_eq. split; congruence.
Qed.

Lemma strict_eq_refl (a : option string) : strict_eq a a = true.
Proof. now apply strict_eq_iff. Qed.

(** Stepping over a block of log lines in front of the rest of a method. *)
Ltac skip_logs :=
  lazymatch goal with
  | |- context [bind (when ?b ?c) ?k ?w0] =>
      let n := fresh "n" in
      let l := fresh "lines" in
      let Hl := fresh "Hlines" in
      let E := fresh "E" in
      destruct (logs_then (when b c) k w0 ltac:(logs)) as (n & l & Hl & E);
      rewrite E; clear E Hl; cbv beta
  end.

(** ** The lottery class *)

Module LotteryFacts.
Import LotteryManager.

Lemma lottery_arePrizesEqual_iff (p1 p2 : Prizes) :
  arePrizesEqual p1 p2 = true <->
  firstPrize p1 = firstPrize p2 /\ three_front p1 = three_front p2 /\
  three_end p1 = three_end p2 /\ two_end p1 = two_end p2.
Proof.
  unfold arePrizesEqual. rewrite !andb_true_iff, !strict_eq_iff. tauto.
Qed.

Lemma lottery_hasDataChanged_false_iff (oldItem newItem : LotteryRecord) :
  hasDataChanged oldItem newItem = false <->
  firstPrize (prizes oldItem) = firstPrize (prizes newItem) /\
  three_front (prizes oldItem) = three_front (prizes newItem) /\
  three_end (prizes oldItem) = three_end (prizes newItem) /\
  two_end (prizes oldItem) = two_end (prizes newItem).
Proof.
  unfold hasDataChanged. rewrite negb_false_iff. apply lottery_arePrizesEqual_iff.
Qed.

Lemma lottery_option_string_dec (a b : option string) : a = b \/ a <> b.
Proof. destruct (strict_eq a b) eqn:E; [left; now apply strict_eq_iff | right]. 
  intros H. apply strict_eq_iff in H. congruence.
Qed.

Lemma lottery_hasDataChanged_true_iff (oldItem newItem : LotteryRecord) :
  hasDataChanged oldItem newItem = true <->
  firstPrize (prizes oldItem) <> firstPrize (prizes newItem) \/
  three_front (prizes oldItem) <> three_front (prizes newItem) \/
  three_end (prizes oldItem) <> three_end (prizes newItem) \/
  two_end (prizes oldItem) <> two_end (prizes newItem).
Proof.
  destruct (hasDataChanged oldItem newItem) eqn:E.
  - split; [intros _ | reflexivity].
    destruct (lottery_option_string_dec (firstPrize (prizes oldItem)) (firstPrize (prizes newItem)));
      [| tauto].
    destruct (lottery_option_string_dec (three_front (prizes oldItem)) (three_front (prizes newItem)));
      [| tauto].
    destruct (lottery_option_string_dec (three_end (prizes oldItem)) (three_end (prizes newItem)));
      [| tauto].
    destruct (lottery_option_string_dec (two_end (prizes oldItem)) (two_end (prizes newItem)));
      [| tauto].
    assert (hasDataChanged oldItem newItem = false) by (apply lottery_hasDataChanged_false_iff; tauto).
    congruence.
  - apply lottery_hasDataChanged_false_iff in E. split; [discriminate | tauto].
Qed.

Lemma lottery_hasDataChanged_same (r : LotteryRecord) : hasDataChanged r r = false.
Proof. apply lottery_hasDataChanged_false_iff. tauto. Qed.

Lemma lottery_decode_encode (r : LotteryRecord) : decode (encode r) = Some r.
Proof.
  destruct r as [d [a b c e] u]. cbn.
  destruct a, b, c, e; reflexivity.
Qed.

Lemma lottery_retryLoop_keeps {X : Type} (p : World -> X) (remaining attempt : nat) :
  (forall n w, p (set_clockReads n w) = p w) ->
  (forall n w, p (set_fetches n w) = p w) ->
  (forall tr w, p (set_trace tr w) = p w) ->
  keeps p (retryLoop remaining attempt).
Proof.
  intros Hclock Hfetch Htrace.
  assert (Hl : forall m, keeps p (@log LotteryRecord (option LotteryRecord) m)).
  { intros m w. unfold log, now, emit, modify, bind. cbn. now rewrite Htrace, Hclock. }
  assert (Hs : forall ms, keeps p (@sleep LotteryRecord (option LotteryRecord) ms)).
  { intros ms w. unfold sleep, emit, modify. cbn. now rewrite Htrace. }
  assert (Hf : keeps p fetchLottoData).
  { intros w. unfold fetchLottoData, fetch. cbn.
    destruct (fetcher (oracle w) (fetches w)); cbn; now rewrite Hfetch, Htrace. }
  revert attempt. induction remaining as [| remaining IH]; intros attempt; simpl; frame.
Qed.

Lemma lottery_retryLoop_typed (remaining attempt : nat) : typed (retryLoop remaining attempt).
Proof.
  revert attempt. induction remaining as [| remaining IH]; intros attempt; simpl; typing.
Qed.

Lemma lottery_processNewData_guarded (newData : option (list LotteryRecord)) (w : World) :
  newData = None \/ newData = Some [] ->
  processNewData newData w = (log MsgNoNewData ;; ret (mkChanges [] [] [])) w.
Proof. intros [-> | ->]; reflexivity. Qed.

Lemma lottery_processNewData_run (newData : list LotteryRecord) (w : World) :
  newData <> [] ->
  let changes := detectChanges (currentData (this w)) newData in
  let changed := (0 <? totalChanges changes)%nat in
  exists lastUpdated,
    fst (processNewData (Some newData) w) = Ok changes /\
    this (snd (processNewData (Some newData) w))
      = (if changed then mkManager newData (isRunning (this w)) (timeoutId (this w))
         else this w) /\
    writes (snd (processNewData (Some newData) w))
      = (if changed then S (writes w) else writes w) /\
    dataFile (snd (processNewData (Some newData) w))
      = (if changed
         then match writeOutcome (oracle w) (writes w) with
              | None => Holds (Json (wrapped lastUpdated (Z.of_nat (length newData))
                                             (VArr (map encode newData))))
              | Some (_, residue) => residue
              end
         else dataFile w).
Proof.
  intros Hne changes changed.
  destruct newData as [| r rest]; [congruence |].
  set (newData := r :: rest) in *.
  assert (Hrun : exists n lines,
             processNewData (Some newData) w =
             ((if changed
               then setCurrentData newData ;; saveData newData ;;
                    log (MsgDataUpdated (totalChanges changes))
               else log MsgNoChanges) ;;
              ret changes) (set_clockReads n (set_trace (trace w ++ lines) w))).
  { unfold processNewData. subst newData. cbv beta iota. rewrite bind_getThis. cbv zeta.
    fold changes. do 3 skip_logs.
    eexists _, _. cbn [trace set_clockReads set_trace]. rewrite <- !app_assoc. reflexivity. }
  destruct Hrun as (n & lines & ->).
  pose proof (commit_run encode (totalChanges changes) newData changes
                (set_clockReads n (set_trace (trace w ++ lines) w))) as H.
  cbv zeta in H. cbn [this writes dataFile oracle set_clockReads set_trace clockReads] in H.
  destruct H as (H1 & H2 & H3 & H4).
  exists (clock (oracle w) n). auto.
Qed.

Lemma lottery_processNewData_keeps {X : Type} (p : World -> X) (newData : option (list LotteryRecord)) :
  (forall n tr w, p (set_clockReads n (set_trace tr w)) = p w) ->
  (forall data, keeps p (@setCurrentData LotteryRecord (option LotteryRecord) data)) ->
  (forall data, keeps p (saveData data)) ->
  keeps p (processNewData newData).
Proof.
  intros Hlog Hset Hsave.
  assert (Hl : forall m, keeps p (@log LotteryRecord (option LotteryRecord) m)).
  { intros m. apply only_logs_keeps; [assumption | apply only_logs_log]. }
  assert (Hw : forall b c, only_logs c ->
                 keeps p (@when LotteryRecord (option LotteryRecord) b c)).
  { intros b c Hc. apply only_logs_keeps; [assumption | now apply only_logs_when]. }
  destruct newData as [[| r rest] |]; unfold processNewData.
  - frame.
  - apply keeps_bind; [frame | intros this_]. cbv zeta.
    apply keeps_bind; [apply Hw; logs | intros _].
    apply keeps_bind; [apply Hw; logs | intros _].
    apply keeps_bind; [apply Hw; logs | intros _].
    frame.
  - frame.
Qed.

Lemma lottery_processNewData_typed (newData : option (list LotteryRecord)) :
  typed (processNewData newData).
Proof.
  assert (Hl : forall m, typed (@log LotteryRecord (option LotteryRecord) m)).
  { intros m. apply total_typed, only_logs_total, only_logs_log. }
  assert (Hw : forall b c, only_logs c ->
                 typed (@when LotteryRecord (option LotteryRecord) b c)).
  { intros b c Hc. now apply total_typed, only_logs_total, only_logs_when. }
  assert (Hs : forall data, typed (saveData data)).
  { intros data. apply total_typed. apply saveData_total. }
  destruct newData as [[| r rest] |]; unfold processNewData.
  - typing.
  - apply typed_bind; [typing | intros this_]. cbv zeta.
    apply typed_bind; [apply Hw; logs | intros _].
    apply typed_bind; [apply Hw; logs | intros _].
    apply typed_bind; [apply Hw; logs | intros _].
    typing.
  - typing.
Qed.

(** A cycle never raises: what the steps throw ends in the [catch]. *)
Lemma lottery_runScrapingCycle_total : total runScrapingCycle.
Proof.
  unfold runScrapingCycle. apply total_try.
  - apply typed_bind; [typing | intros _].
    apply typed_bind; [apply lottery_retryLoop_typed | intros newData].
    apply typed_bind; [apply lottery_processNewData_typed | intros _]. typing.
  - intros e. apply only_logs_total, only_logs_log.
Qed.

Lemma lottery_runScrapingCycle_keeps {X : Type} (p : World -> X) :
  (forall n w, p (set_clockReads n w) = p w) ->
  (forall n w, p (set_fetches n w) = p w) ->
  (forall tr w, p (set_trace tr w) = p w) ->
  (forall data, keeps p (@setCurrentData LotteryRecord (option LotteryRecord) data)) ->
  (forall data, keeps p (saveData data)) ->
  keeps p runScrapingCycle.
Proof.
  intros Hclock Hfetch Htrace Hset Hsave.
  assert (Hlog : forall n tr w, p (set_clockReads n (set_trace tr w)) = p w).
  { intros n tr w. now rewrite Hclock, Htrace. }
  assert (Hl : forall m, keeps p (@log LotteryRecord (option LotteryRecord) m)).
  { intros m. apply only_logs_keeps; [assumption | apply only_logs_log]. }
  unfold runScrapingCycle. apply keeps_try; [| auto].
  apply keeps_bind; [auto | intros _].
  apply keeps_bind; [now apply lottery_retryLoop_keeps | intros newData].
  apply keeps_bind; [now apply lottery_processNewData_keeps | auto].
Qed.

End LotteryFacts.

(** ** The stock class *)

Module StockFacts.
Import StockDataManager.

Lemma stock_hasDataChanged_false_iff (oldItem newItem : StockRecord) :
  hasDataChanged oldItem newItem = false <->
  countryCode oldItem = countryCode newItem /\
  threeDigits oldItem = threeDigits newItem /\
  twoDigits oldItem = twoDigits newItem.
Proof.
  unfold hasDataChanged. rewrite !orb_false_iff, !negb_false_iff, !String.eqb_eq. tauto.
Qed.

Lemma stock_hasDataChanged_true_iff (oldItem newItem : StockRecord) :
  hasDataChanged oldItem newItem = true <->
  countryCode oldItem <> countryCode newItem \/
  threeDigits oldItem <> threeDigits newItem \/
  twoDigits oldItem <> twoDigits newItem.
Proof.
  unfold hasDataChanged. rewrite !orb_true_iff, !negb_true_iff, !String.eqb_neq. tauto.
Qed.

Lemma stock_hasDataChanged_same (r : StockRecord) : hasDataChanged r r = false.
Proof. apply stock_hasDataChanged_false_iff. tauto. Qed.

Lemma stock_decode_encode (r : StockRecord) : decode (encode r) = Some r.
Proof. destruct r. reflexivity. Qed.

(** One iteration of the loop: the [try] statement. *)
Local Abbreviation iteration attempt :=
  (try_catch
     (log (MsgAttempt attempt CONFIG.maxRetries) ;;
      results <- extractStockResults ;;
      log (MsgExtracted (length results)) ;;
      ret (Some (Some results)))
     (fun error =>
        log (MsgAttemptFailed attempt (message error)) ;;
        (if Nat.eqb attempt CONFIG.maxRetries then throw error else ret tt) ;;
        sleep CONFIG.retryDelay ;;
        ret None)).

Lemma stock_retryLoop_S (remaining attempt : nat) :
  retryLoop (S remaining) attempt =
  (returned <- iteration attempt ;;
   match returned with
   | Some value => ret value
   | None => retryLoop remaining (S attempt)
   end).
Proof. reflexivity. Qed.

Lemma stock_iteration_raises (attempt : nat) (w : World) (e : Err) (last : bool) :
  fetcher (oracle w) (fetches w) = Raises e ->
  Nat.eqb attempt CONFIG.maxRetries = last ->
  fst (iteration attempt w) = (if last then Throw e else Ok None) /\
  fetches (snd (iteration attempt w)) = S (fetches w) /\
  oracle (snd (iteration attempt w)) = oracle w /\
  timing (trace (snd (iteration attempt w)))
    = timing (trace w) ++
      (if last then [EvFetch] else [EvFetch; EvSleep CONFIG.retryDelay]).
Proof.
  intros He Hlast. unfold try_catch. autounfold with machine. cbn. rewrite He. cbn.
  rewrite Hlast. destruct last; cbn; repeat split; timing_norm; reflexivity.
Qed.

Lemma stock_iteration_results (attempt : nat) (w : World) (results : list StockRecord) :
  fetcher (oracle w) (fetches w) = Returns results ->
  fst (iteration attempt w) = Ok (Some (Some results)) /\
  fetches (snd (iteration attempt w)) = S (fetches w) /\
  this (snd (iteration attempt w)) = this w /\
  dataFile (snd (iteration attempt w)) = dataFile w /\
  writes (snd (iteration attempt w)) = writes w /\
  oracle (snd (iteration attempt w)) = oracle w /\
  timing (trace (snd (iteration attempt w))) = timing (trace w) ++ [EvFetch].
Proof.
  intros He. unfold try_catch. autounfold with machine. cbn. rewrite He. cbn.
  repeat split; timing_norm; reflexivity.
Qed.

Lemma stock_retryLoop_raises (waits attempt : nat) (w : World) :
  attempt + waits = CONFIG.maxRetries ->
  (forall i, i <= waits -> exists e, fetcher (oracle w) (fetches w + i) = Raises e) ->
  exists e,
    fetcher (oracle w) (fetches w + waits) = Raises e /\
    fst (retryLoop (S waits) attempt w) = Throw e /\
    fetches (snd (retryLoop (S waits) attempt w)) = fetches w + S waits /\
    timing (trace (snd (retryLoop (S waits) attempt w)))
      = timing (trace w) ++ failed_attempts waits.
Proof.
  revert attempt w. induction waits as [| waits IH]; intros attempt w Hsum Hall.
  - destruct (Hall 0 (le_n 0)) as [e He]. rewrite Nat.add_0_r in He.
    exists e. rewrite Nat.add_0_r. split; [assumption |].
    assert (Heq : Nat.eqb attempt CONFIG.maxRetries = true) by (apply Nat.eqb_eq; lia).
    destruct (stock_iteration_raises attempt w e true He Heq) as (Hres & Hf & _ & Ht).
    assert (Hrun : retryLoop 1 attempt w = (Throw e, snd (iteration attempt w))).
    { rewrite stock_retryLoop_S. unfold bind at 1.
      destruct (iteration attempt w) as [r w'] eqn:Hit. simpl in Hres |- *. now subst r. }
    rewrite Hrun. simpl fst. simpl snd.
    split; [reflexivity |]. split; [lia | assumption].
  - destruct (Hall 0 (Nat.le_0_l _)) as [e He]. rewrite Nat.add_0_r in He.
    assert (Hne : Nat.eqb attempt CONFIG.maxRetries = false) by (apply Nat.eqb_neq; lia).
    destruct (stock_iteration_raises attempt w e false He Hne) as (Hres & Hf & Ho & Ht).
    assert (Hrun : retryLoop (S (S waits)) attempt w
                   = retryLoop (S waits) (S attempt) (snd (iteration attempt w))).
    { rewrite stock_retryLoop_S. unfold bind at 1.
      destruct (iteration attempt w) as [r w'] eqn:Hit. simpl in Hres |- *. now subst r. }
    rewrite Hrun.
    destruct (IH (S attempt) (snd (iteration attempt w))) as (e' & He' & Hres' & Hf' & Ht').
    + lia.
    + intros i Hi. rewrite Ho, Hf. replace (S (fetches w) + i) with (fetches w + S i) by lia.
      apply Hall. lia.
    + exists e'. rewrite Ho, Hf in He'.
      replace (fetches w + S waits) with (S (fetches w) + waits) by lia.
      split; [assumption |]. split; [assumption |].
      split; [rewrite Hf', Hf; lia |].
      rewrite Ht', Ht. rewrite <- app_assoc. reflexivity.
Qed.

(** The first answer, empty or not, is what the method returns. *)
Lemma stock_retryLoop_results_returns (remaining attempt : nat) (w : World)
      (results : list StockRecord) :
  fetcher (oracle w) (fetches w) = Returns results ->
  fst (retryLoop (S remaining) attempt w) = Ok (Some results) /\
  fetches (snd (retryLoop (S remaining) attempt w)) = S (fetches w) /\
  this (snd (retryLoop (S remaining) attempt w)) = this w /\
  dataFile (snd (retryLoop (S remaining) attempt w)) = dataFile w /\
  writes (snd (retryLoop (S remaining) attempt w)) = writes w /\
  oracle (snd (retryLoop (S remaining) attempt w)) = oracle w /\
  timing (trace (snd (retryLoop (S remaining) attempt w))) = timing (trace w) ++ [EvFetch].
Proof.
  intros He. destruct (stock_iteration_results attempt w results He) as (Hres & H).
  assert (Hrun : retryLoop (S remaining) attempt w
                 = (Ok (Some results), snd (iteration attempt w))).
  { rewrite stock_retryLoop_S. unfold bind at 1.
    destruct (iteration attempt w) as [r w'] eqn:Hit. simpl in Hres |- *. now subst r. }
  rewrite Hrun. auto.
Qed.

Lemma stock_retryLoop_keeps {X : Type} (p : World -> X) (remaining attempt : nat) :
  (forall n w, p (set_clockReads n w) = p w) ->
  (forall n w, p (set_fetches n w) = p w) ->
  (forall tr w, p (set_trace tr w) = p w) ->
  keeps p (retryLoop remaining attempt).
Proof.
  intros Hclock Hfetch Htrace.
  assert (Hl : forall m, keeps p (@log StockRecord (list StockRecord) m)).
  { intros m w. unfold log, now, emit, modify, bind. cbn. now rewrite Htrace, Hclock. }
  assert (Hs : forall ms, keeps p (@sleep StockRecord (list StockRecord) ms)).
  { intros ms w. unfold sleep, emit, modify. cbn. now rewrite Htrace. }
  assert (Hf : keeps p extractStockResults).
  { intros w. unfold extractStockResults, fetch. cbn.
    destruct (fetcher (oracle w) (fetches w)); cbn; now rewrite Hfetch, Htrace. }
  revert attempt. induction remaining as [| remaining IH]; intros attempt; simpl; frame.
Qed.

Lemma stock_retryLoop_typed (remaining attempt : nat) : typed (retryLoop remaining attempt).
Proof.
  revert attempt. induction remaining as [| remaining IH]; intros attempt; simpl; typing.
Qed.

Lemma stock_processNewData_run (newData : list StockRecord) (w : World) :
  let changes := detectChanges (currentData (this w)) newData in
  let changed := (0 <? totalChanges changes)%nat in
  exists lastUpdated,
    fst (processNewData (Some newData) w) = Ok changes /\
    this (snd (processNewData (Some newData) w))
      = (if changed then mkManager newData (isRunning (this w)) (timeoutId (this w))
         else this w) /\
    writes (snd (processNewData (Some newData) w))
      = (if changed then S (writes w) else writes w) /\
    dataFile (snd (processNewData (Some newData) w))
      = (if changed
         then match writeOutcome (oracle w) (writes w) with
              | None => Holds (Json (wrapped lastUpdated (Z.of_nat (length newData))
                                             (VArr (map encode newData))))
              | Some (_, residue) => residue
              end
         else dataFile w).
Proof.
  intros changes changed.
  assert (Hrun : exists n lines,
             processNewData (Some newData) w =
             ((if changed
               then setCurrentData newData ;; saveData newData ;;
                    log (MsgDataUpdated (totalChanges changes))
               else log MsgNoChanges) ;;
              ret changes) (set_clockReads n (set_trace (trace w ++ lines) w))).
  { unfold processNewData. rewrite bind_getThis. cbv zeta.
    fold changes. do 3 skip_logs.
    eexists _, _. cbn [trace set_clockReads set_trace]. rewrite <- !app_assoc. reflexivity. }
  destruct Hrun as (n & lines & ->).
  pose proof (commit_run encode (totalChanges changes) newData changes
                (set_clockReads n (set_trace (trace w ++ lines) w))) as H.
  cbv zeta in H. cbn [this writes dataFile oracle set_clockReads set_trace clockReads] in H.
  destruct H as (H1 & H2 & H3 & H4).
  exists (clock (oracle w) n). auto.
Qed.

Lemma stock_processNewData_keeps {X : Type} (p : World -> X) (newData : option (list StockRecord)) :
  (forall n tr w, p (set_clockReads n (set_trace tr w)) = p w) ->
  (forall data, keeps p (@setCurrentData StockRecord (list StockRecord) data)) ->
  (forall data, keeps p (saveData data)) ->
  keeps p (processNewData newData).
Proof.
  intros Hlog Hset Hsave.
  assert (Hl : forall m, keeps p (@log StockRecord (list StockRecord) m)).
  { intros m. apply only_logs_keeps; [assumption | apply only_logs_log]. }
  assert (Hw : forall b c, only_logs c ->
                 keeps p (@when StockRecord (list StockRecord) b c)).
  { intros b c Hc. apply only_logs_keeps; [assumption | now apply only_logs_when]. }
  destruct newData as [newData |]; unfold processNewData.
  - apply keeps_bind; [frame | intros this_]. cbv zeta.
    apply keeps_bind; [apply Hw; logs | intros _].
    apply keeps_bind; [apply Hw; logs | intros _].
    apply keeps_bind; [apply Hw; logs | intros _].
    frame.
  - frame.
Qed.

Lemma stock_processNewData_typed (newData : option (list StockRecord)) :
  typed (processNewData newData).
Proof.
  assert (Hl : forall m, typed (@log StockRecord (list StockRecord) m)).
  { intros m. apply total_typed, only_logs_total, only_logs_log. }
  assert (Hw : forall b c, only_logs c ->
                 typed (@when StockRecord (list StockRecord) b c)).
  { intros b c Hc. now apply total_typed, only_logs_total, only_logs_when. }
  assert (Hs : forall data, typed (saveData data)).
  { intros data. apply total_typed. apply saveData_total. }
  destruct newData as [newData |]; unfold processNewData.
  - apply typed_bind; [typing | intros this_]. cbv zeta.
    apply typed_bind; [apply Hw; logs | intros _].
    apply typed_bind; [apply Hw; logs | intros _].
    apply typed_bind; [apply Hw; logs | intros _].
    typing.
  - typing.
Qed.

Lemma stock_runScrapingCycle_total : total runScrapingCycle.
Proof.
  unfold runScrapingCycle. apply total_try.
  - apply typed_bind; [typing | intros _].
    apply typed_bind; [apply stock_retryLoop_typed | intros newData].
    apply typed_bind; [apply stock_processNewData_typed | intros _]. typing.
  - intros e. apply only_logs_total, only_logs_log.
Qed.

Lemma stock_runScrapingCycle_keeps {X : Type} (p : World -> X) :
  (forall n w, p (set_clockReads n w) = p w) ->
  (forall n w, p (set_fetches n w) = p w) ->
  (forall tr w, p (set_trace tr w) = p w) ->
  (forall data, keeps p (@setCurrentData StockRecord (list StockRecord) data)) ->
  (forall data, keeps p (saveData data)) ->
  keeps p runScrapingCycle.
Proof.
  intros Hclock Hfetch Htrace Hset Hsave.
  assert (Hlog : forall n tr w, p (set_clockReads n (set_trace tr w)) = p w).
  { intros n tr w. now rewrite Hclock, Htrace. }
  assert (Hl : forall m, keeps p (@log StockRecord (list StockRecord) m)).
  { intros m. apply only_logs_keeps; [assumption | apply only_logs_log]. }
  unfold runScrapingCycle. apply keeps_try; [| auto].
  apply keeps_bind; [auto | intros _].
  apply keeps_bind; [now apply stock_retryLoop_keeps | intros newData].
  apply keeps_bind; [now apply stock_processNewData_keeps | auto].
Qed.

End StockFacts.

(** ** The retry loops on mixed answers *)

Lemma answers_from_S {Rec Raw : Type} (w w1 : World Rec Raw) (k : nat) :
  oracle w1 = oracle w -> fetches w1 = S (fetches w) ->
  answers_from w (S k) = fetcher (oracle w) (fetches w) :: answers_from w1 k.
Proof.
  intros Ho Hf. unfold answers_from. simpl. rewrite Nat.add_0_r. f_equal.
  rewrite <- seq_shift, map_map. apply map_ext. intros i.
  rewrite Ho, Hf. f_equal. lia.
Qed.

Lemma answers_from_snoc {Rec Raw : Type} (w : World Rec Raw) (k : nat) :
  answers_from w (S k) = answers_from w k ++ [fetcher (oracle w) (fetches w + k)].
Proof. unfold answers_from. rewrite seq_S, map_app. reflexivity. Qed.

Lemma answers_from_in {Rec Raw : Type} (w : World Rec Raw) (i k : nat) :
  i < k -> In (fetcher (oracle w) (fetches w + i)) (answers_from w k).
Proof.
  intros Hi. unfold answers_from. apply in_map_iff. exists i.
  split; [reflexivity | apply in_seq; lia].
Qed.

Lemma failed_attempts_events {Raw : Type} (answers : list (Fetched Raw)) :
  Forall (fun a => exists e, a = Raises e) answers ->
  flat_map attempt_events answers ++ [EvFetch] = failed_attempts (length answers).
Proof.
  induction 1 as [| a l [e ->] _ IH]; simpl; [reflexivity | now rewrite IH].
Qed.

Module StockRetryMore.
Import StockDataManager.

Local Abbreviation iteration attempt :=
  (try_catch
     (log (MsgAttempt attempt CONFIG.maxRetries) ;;
      results <- extractStockResults ;;
      log (MsgExtracted (length results)) ;;
      ret (Some (Some results)))
     (fun error =>
        log (MsgAttemptFailed attempt (message error)) ;;
        (if Nat.eqb attempt CONFIG.maxRetries then throw error else ret tt) ;;
        sleep CONFIG.retryDelay ;;
        ret None)).

Lemma stock_retryLoop_raise_continues (remaining attempt : nat) (w : World) (e : Err) :
  fetcher (oracle w) (fetches w) = Raises e ->
  Nat.eqb attempt CONFIG.maxRetries = false ->
  retryLoop (S remaining) attempt w
    = retryLoop remaining (S attempt) (snd (iteration attempt w)).
Proof.
  intros He Hne.
  destruct (StockFacts.stock_iteration_raises attempt w e false He Hne) as (Hres & _).
  rewrite StockFacts.stock_retryLoop_S. unfold bind at 1.
  destruct (iteration attempt w) as [r w'] eqn:Hit. simpl in Hres |- *. now subst r.
Qed.

(** [k] attempts raise, the next one answers. *)
Lemma stock_retryLoop_answers_after (k : nat) :
  forall (remaining attempt : nat) (w : World) (results : list StockRecord),
    attempt + k <= CONFIG.maxRetries ->
    k < remaining ->
    (forall i, i < k -> exists e, fetcher (oracle w) (fetches w + i) = Raises e) ->
    fetcher (oracle w) (fetches w + k) = Returns results ->
    fst (retryLoop remaining attempt w) = Ok (Some results) /\
    fetches (snd (retryLoop remaining attempt w)) = fetches w + S k /\
    timing (trace (snd (retryLoop remaining attempt w)))
      = timing (trace w) ++ failed_attempts k.
Proof.
  induction k as [| k IH]; intros remaining attempt w results Hsum Hrem Hall Hans.
  - destruct remaining as [| remaining]; [lia |].
    rewrite Nat.add_0_r in Hans.
    destruct (StockFacts.stock_retryLoop_results_returns remaining attempt w results Hans)
      as (H1 & H2 & _ & _ & _ & _ & H7).
    split; [assumption |]. split; [lia | assumption].
  - destruct remaining as [| remaining]; [lia |].
    destruct (Hall 0 (Nat.lt_0_succ k)) as [e He]. rewrite Nat.add_0_r in He.
    assert (Hne : Nat.eqb attempt CONFIG.maxRetries = false) by (apply Nat.eqb_neq; lia).
    destruct (StockFacts.stock_iteration_raises attempt w e false He Hne)
      as (_ & Hf & Ho & Ht).
    rewrite (stock_retryLoop_raise_continues remaining attempt w e He Hne).
    destruct (IH remaining (S attempt) (snd (iteration attempt w)) results)
      as (H1 & H2 & H3).
    + lia.
    + lia.
    + intros i Hi. rewrite Ho, Hf.
      replace (S (fetches w) + i) with (fetches w + S i) by lia. apply Hall. lia.
    + rewrite Ho, Hf. replace (S (fetches w) + k) with (fetches w + S k) by lia. assumption.
    + split; [assumption |]. split; [rewrite H2, Hf; lia |].
      rewrite H3, Ht. rewrite <- app_assoc. reflexivity.
Qed.

End StockRetryMore.

Module LotteryRetryMore.
Import LotteryManager.

Local Abbreviation iteration attempt :=
  (try_catch
     (log (MsgAttempt attempt CONFIG.maxRetries) ;;
      result <- fetchLottoData ;;
      match result with
      | Some record =>
          log (MsgExtractedFor (date record)) ;;
          ret (Some (Some [record]))
      | None => ret None
      end)
     (fun error =>
        log (MsgAttemptFailed attempt (message error)) ;;
        (if Nat.eqb attempt CONFIG.maxRetries then throw error else ret tt) ;;
        sleep CONFIG.retryDelay ;;
        ret None)).

(** An attempt before the last whose answer is not a record: the loop goes
    on, after the events of that answer. *)
Lemma lottery_retryLoop_goes_on (remaining attempt : nat) (w : World) :
  is_record (fetcher (oracle w) (fetches w)) = false ->
  Nat.eqb attempt CONFIG.maxRetries = false ->
  exists w1,
    retryLoop (S remaining) attempt w = retryLoop remaining (S attempt) w1 /\
    fetches w1 = S (fetches w) /\
    oracle w1 = oracle w /\
    timing (trace w1)
      = timing (trace w) ++ attempt_events (fetcher (oracle w) (fetches w)).
Proof.
  intros Hrec Hne. exists (snd (iteration attempt w)).
  destruct (fetcher (oracle w) (fetches w)) as [[record |] | e] eqn:He;
    [discriminate | |].
  - destruct (LotteryRetryFacts.lottery_iteration_null attempt w He) as (_ & Hf & Ho & Ht).
    split; [now apply LotteryRetryFacts.lottery_retryLoop_null_continues |]. auto.
  - destruct (LotteryRetryFacts.lottery_iteration_raises attempt w e false He Hne)
      as (Hres & Hf & Ho & Ht).
    split; [| auto].
    rewrite LotteryRetryFacts.lottery_retryLoop_S. unfold bind at 1.
    destruct (iteration attempt w) as [r w'] eqn:Hit. simpl in Hres |- *. now subst r.
Qed.

(** [k] attempts without a record, then a record. *)
Lemma lottery_retryLoop_record_after (k : nat) :
  forall (remaining attempt : nat) (w : World) (record : LotteryRecord),
    attempt + k <= CONFIG.maxRetries ->
    k < remaining ->
    Forall (fun a => is_record a = false) (answers_from w k) ->
    fetcher (oracle w) (fetches w + k) = Returns (Some record) ->
    fst (retryLoop remaining attempt w) = Ok (Some [record]) /\
    fetches (snd (retryLoop remaining attempt w)) = fetches w + S k /\
    timing (trace (snd (retryLoop remaining attempt w)))
      = timing (trace w) ++ flat_map attempt_events (answers_from w k) ++ [EvFetch].
Proof.
  induction k as [| k IH]; intros remaining attempt w record Hsum Hrem Hall Hans.
  - destruct remaining as [| remaining]; [lia |].
    rewrite Nat.add_0_r in Hans.
    destruct (LotteryRetryFacts.lottery_retryLoop_record_returns remaining attempt w record Hans)
      as (H1 & H2 & H3).
    split; [assumption |]. split; [lia | assumption].
  - destruct remaining as [| remaining]; [lia |].
    assert (Hne : Nat.eqb attempt CONFIG.maxRetries = false) by (apply Nat.eqb_neq; lia).
    assert (Hfirst : is_record (fetcher (oracle w) (fetches w)) = false).
    { unfold answers_from in Hall. simpl in Hall. rewrite Nat.add_0_r in Hall.
      now inversion Hall. }
    destruct (lottery_retryLoop_goes_on remaining attempt w Hfirst Hne)
      as (w1 & Hrun & Hf & Ho & Ht).
    rewrite (answers_from_S w w1 k Ho Hf) in Hall |- *.
    inversion Hall as [| ? ? _ Hrest]; subst.
    rewrite Hrun.
    destruct (IH remaining (S attempt) w1 record) as (H1 & H2 & H3).
    + lia.
    + lia.
    + assumption.
    + rewrite Ho, Hf. replace (S (fetches w) + k) with (fetches w + S k) by lia. assumption.
    + split; [assumption |]. split; [rewrite H2, Hf; lia |].
      rewrite H3, Ht. simpl. now rewrite <- !app_assoc.
Qed.

(** No record up to and including the attempt numbered [maxRetries]. *)
Lemma lottery_retryLoop_no_record (waits : nat) :
  forall (attempt : nat) (w : World),
    attempt + waits = CONFIG.maxRetries ->
    Forall (fun a => is_record a = false) (answers_from w (S waits)) ->
    fst (retryLoop (S waits) attempt w)
      = match fetcher (oracle w) (fetches w + waits) with
        | Raises e => Throw e
        | Returns _ => Ok None
        end /\
    fetches (snd (retryLoop (S waits) attempt w)) = fetches w + S waits /\
    timing (trace (snd (retryLoop (S waits) attempt w)))
      = timing (trace w) ++ flat_map attempt_events (answers_from w waits) ++ [EvFetch].
Proof.
  induction waits as [| waits IH]; intros attempt w Hsum Hall.
  - rewrite Nat.add_0_r.
    assert (Heq : Nat.eqb attempt CONFIG.maxRetries = true) by (apply Nat.eqb_eq; lia).
    unfold answers_from in Hall. simpl in Hall. rewrite Nat.add_0_r in Hall.
    inversion Hall as [| ? ? Hfirst _]; subst.
    destruct (fetcher (oracle w) (fetches w)) as [[record |] | e] eqn:He;
      [discriminate | |].
    + destruct (LotteryRetryFacts.lottery_retryLoop_nulls 1 attempt w) as (H1 & H2 & H3).
      { intros i Hi. replace i with 0 by lia. now rewrite Nat.add_0_r. }
      split; [assumption |]. split; [assumption |]. rewrite H3. reflexivity.
    + destruct (LotteryRetryFacts.lottery_iteration_raises attempt w e true He Heq)
        as (Hres & Hf & _ & Ht).
      assert (Hrun : retryLoop 1 attempt w = (Throw e, snd (iteration attempt w))).
      { rewrite LotteryRetryFacts.lottery_retryLoop_S. unfold bind at 1.
        destruct (iteration attempt w) as [r w'] eqn:Hit. simpl in Hres |- *. now subst r. }
      rewrite Hrun. simpl fst. simpl snd.
      split; [reflexivity |]. split; [lia | assumption].
  - assert (Hne : Nat.eqb attempt CONFIG.maxRetries = false) by (apply Nat.eqb_neq; lia).
    assert (Hfirst : is_record (fetcher (oracle w) (fetches w)) = false).
    { unfold answers_from in Hall. simpl in Hall. rewrite Nat.add_0_r in Hall.
      now inversion Hall. }
    destruct (lottery_retryLoop_goes_on (S waits) attempt w Hfirst Hne)
      as (w1 & Hrun & Hf & Ho & Ht).
    rewrite (answers_from_S w w1 (S waits) Ho Hf) in Hall.
    inversion Hall as [| ? ? _ Hrest]; subst.
    rewrite (answers_from_S w w1 waits Ho Hf).
    rewrite Hrun.
    destruct (IH (S attempt) w1) as (H1 & H2 & H3); [lia | assumption |].
    rewrite Ho, Hf in H1.
    replace (S (fetches w) + waits) with (fetches w + S waits) in H1 by lia.
    split; [assumption |]. split; [rewrite H2, Hf; lia |].
    rewrite H3, Ht. simpl. now rewrite <- !app_assoc.
Qed.

(** Among the next [n] answers there is a first record, or none. *)
Lemma lottery_first_record_or_none (w : World) (n : nat) :
  Forall (fun a => is_record a = false) (answers_from w n) \/
  exists k record,
    k < n /\
    Forall (fun a => is_record a = false) (answers_from w k) /\
    fetcher (oracle w) (fetches w + k) = Returns (Some record).
Proof.
  induction n as [| n [IH | (k & record & Hk & Hall & Hans)]].
  - left. constructor.
  - destruct (fetcher (oracle w) (fetches w + n)) as [[record |] | e] eqn:He.
    + right. exists n, record. split; [lia | split; assumption].
    + left. rewrite answers_from_snoc. apply Forall_app. split; [assumption |].
      rewrite He. repeat constructor.
    + left. rewrite answers_from_snoc. apply Forall_app. split; [assumption |].
      rewrite He. repeat constructor.
  - right. exists k, record. split; [lia | split; assumption].
Qed.

End LotteryRetryMore.

(** ** The scheduler *)

Section SchedulerFacts.
Context {Rec Raw : Type}.
Variable load : M Rec Raw unit.
Variable cycle : M Rec Raw unit.
Variable lastUpdatedOf : Rec -> string.
Hypothesis load_schedule : keeps schedule load.
Hypothesis cycle_schedule : keeps schedule cycle.
Hypothesis cycle_total : total cycle.
Local Abbreviation M := (M Rec Raw).
Local Abbreviation World := (World Rec Raw).

Lemma bind_cases {A B : Type} (c : M A) (k : A -> M B) (w : World) :
  match fst (c w) with
  | Ok a => bind c k w = k a (snd (c w))
  | Throw e => bind c k w = (Throw e, snd (c w))
  | OutsideModel => bind c k w = (OutsideModel, snd (c w))
  end.
Proof. unfold bind. destruct (c w) as [[a | e |] w']; reflexivity. Qed.

Lemma keeps_map {X Y A : Type} (p : World -> X) (f : X -> Y) (c : M A) :
  keeps p c -> keeps (fun w => f (p w)) c.
Proof. intros Hc w. now rewrite Hc. Qed.

Lemma interval_of_bounds (w : World) :
  (CONFIG.minInterval <= interval_of w <= CONFIG.maxInterval)%Z.
Proof.
  unfold interval_of, CONFIG.minInterval, CONFIG.maxInterval.
  pose proof (Z.mod_pos_bound (random (oracle w) (draws w))
                (15 * 60 * 1000 - 10 * 60 * 1000 + 1)%Z ltac:(lia)).
  lia.
Qed.

Lemma scheduleNextRun_stopped (w : World) :
  isRunning (this w) = false -> scheduleNextRun w = (Ok tt, w).
Proof.
  intros H. unfold scheduleNextRun. rewrite bind_getThis. now rewrite H.
Qed.

Lemma scheduleNextRun_running (w : World) :
  isRunning (this w) = true ->
  fst (scheduleNextRun w) = Ok tt /\
  this (snd (scheduleNextRun w))
    = mkManager (currentData (this w)) true (Some (timersMade w)) /\
  timers (snd (scheduleNextRun w)) = timers w ++ [(timersMade w, interval_of w)] /\
  timersMade (snd (scheduleNextRun w)) = S (timersMade w) /\
  dataFile (snd (scheduleNextRun w)) = dataFile w /\
  writes (snd (scheduleNextRun w)) = writes w.
Proof.
  intros H. unfold scheduleNextRun. rewrite bind_getThis. rewrite H.
  unfold getRandomInterval, interval_of. autounfold with machine. cbn.
  rewrite H. repeat split.
Qed.

Lemma scheduleNextRun_isRunning :
  keeps (fun w : World => isRunning (this w)) scheduleNextRun.
Proof.
  intros w. destruct (isRunning (this w)) eqn:H.
  - destruct (scheduleNextRun_running w H) as (_ & -> & _). reflexivity.
  - now rewrite scheduleNextRun_stopped.
Qed.

Lemma stop_stopped (w : World) :
  isRunning (this w) = false -> stop w = log MsgNotRunning w.
Proof. intros H. unfold stop. rewrite bind_getThis. now rewrite H. Qed.

Lemma stop_running (w : World) :
  isRunning (this w) = true ->
  fst (stop w) = Ok tt /\
  this (snd (stop w)) = mkManager (currentData (this w)) false None /\
  timers (snd (stop w))
    = match timeoutId (this w) with
      | Some id => filter (fun t => negb (Nat.eqb (fst t) id)) (timers w)
      | None => timers w
      end /\
  dataFile (snd (stop w)) = dataFile w /\
  writes (snd (stop w)) = writes w.
Proof.
  intros H. unfold stop. rewrite bind_getThis. rewrite H.
  autounfold with machine. cbn.
  destruct (timeoutId (this w)) as [id |]; cbn; repeat split.
Qed.

Lemma stop_isRunning (w : World) : isRunning (this (snd (stop w))) = false.
Proof.
  destruct (isRunning (this w)) eqn:H.
  - destruct (stop_running w H) as (_ & -> & _). reflexivity.
  - rewrite stop_stopped by assumption. exact H.
Qed.

Lemma start_running (w : World) :
  isRunning (this w) = true -> start load cycle w = log MsgAlreadyRunning w.
Proof. intros H. unfold start. rewrite bind_getThis. now rewrite H. Qed.

(** What comes after a cycle that was started while Running: the next timer. *)
Lemma cycle_then_arm (k : M unit) (w : World) :
  only_logs k ->
  isRunning (this w) = true ->
  fst ((cycle ;; scheduleNextRun ;; k) w) = Ok tt /\
  exists w1 : World,
    schedule w1 = schedule w /\
    schedule (snd ((cycle ;; scheduleNextRun ;; k) w))
      = (true, Some (timersMade w), timers w ++ [(timersMade w, interval_of w1)],
         S (timersMade w)).
Proof.
  intros Hk Hrun.
  pose proof (bind_cases cycle (fun _ => scheduleNextRun ;; k) w) as Hb.
  destruct (cycle_total w) as [[] Hok]. rewrite Hok in Hb. rewrite Hb. clear Hb.
  pose proof (cycle_schedule w) as Hs. set (w1 := snd (cycle w)) in *.
  unfold schedule in Hs. injection Hs as Hs1 Hs2 Hs3 Hs4.
  assert (Hrun1 : isRunning (this w1) = true) by congruence.
  destruct (scheduleNextRun_running w1 Hrun1) as (Hr & Hthis & Htimers & Hmade & _).
  pose proof (bind_cases scheduleNextRun (fun _ => k) w1) as Hb.
  rewrite Hr in Hb. rewrite Hb. clear Hb.
  destruct (Hk (snd (scheduleNextRun w1))) as (n & lines & _ & ->).
  split; [reflexivity |].
  exists w1. split; [unfold schedule; congruence |].
  unfold schedule. cbn [snd this timers timersMade set_clockReads set_trace].
  rewrite Hthis, Htimers, Hmade. cbn [isRunning timeoutId]. congruence.
Qed.

(** [start] from Stopped ends Running, with the next timer armed unless
    the load left the typed model. *)
Lemma start_stopped (w : World) :
  isRunning (this w) = false ->
  (fst (start load cycle w) = OutsideModel /\
   schedule (snd (start load cycle w))
     = (true, timeoutId (this w), timers w, timersMade w)) \/
  (fst (start load cycle w) = Ok tt /\
   exists interval,
     (CONFIG.minInterval <= interval <= CONFIG.maxInterval)%Z /\
     schedule (snd (start load cycle w))
       = (true, Some (timersMade w), timers w ++ [(timersMade w, interval)],
          S (timersMade w))) \/
  (exists e, fst (start load cycle w) = Throw e /\
   schedule (snd (start load cycle w))
     = (true, timeoutId (this w), timers w, timersMade w)).
Proof.
  intros H. unfold start. rewrite bind_getThis. rewrite H.
  set (w1 := snd ((setIsRunning true ;; log MsgStarting) w)).
  assert (Hstep : forall k : M unit,
             (setIsRunning true ;; log MsgStarting ;; k) w = k w1).
  { intros k. reflexivity. }
  rewrite Hstep. clear Hstep.
  assert (Hw1 : schedule w1 = (true, timeoutId (this w), timers w, timersMade w))
    by reflexivity.
  pose proof (bind_cases load (fun _ => cycle ;; scheduleNextRun ;; log MsgStarted) w1) as Hb.
  pose proof (load_schedule w1) as Hs. rewrite Hw1 in Hs.
  destruct (fst (load w1)) as [[] | e |]; rewrite Hb; clear Hb.
  - right. left.
    assert (Hrun : isRunning (this (snd (load w1))) = true).
    { unfold schedule in Hs. congruence. }
    destruct (cycle_then_arm (log MsgStarted) (snd (load w1)) (only_logs_log _) Hrun)
      as (Hok & w2 & Hw2 & Hfinal).
    split; [assumption |]. exists (interval_of w2).
    split; [apply interval_of_bounds |].
    rewrite Hfinal. unfold schedule in Hs. injection Hs as _ _ Ht Hm. now rewrite Ht, Hm.
  - right. right. exists e. auto.
  - left. auto.
Qed.

Lemma start_isRunning (w : World) : isRunning (this (snd (start load cycle w))) = true.
Proof.
  destruct (isRunning (this w)) eqn:H.
  - rewrite start_running by assumption. exact H.
  - destruct (start_stopped w H) as [[_ Hs] | [[_ [iv [_ Hs]]] | [e [_ Hs]]]];
      unfold schedule in Hs; congruence.
Qed.

Lemma onTimeout_stopped (w : World) :
  isRunning (this w) = false -> onTimeout cycle w = (Ok tt, w).
Proof. intros H. unfold onTimeout. rewrite bind_getThis. now rewrite H. Qed.

(** The callback of a timer, while Running: a cycle, then the next timer. *)
Lemma onTimeout_running (w : World) :
  isRunning (this w) = true ->
  fst (onTimeout cycle w) = Ok tt /\
  exists interval,
    (CONFIG.minInterval <= interval <= CONFIG.maxInterval)%Z /\
    schedule (snd (onTimeout cycle w))
      = (true, Some (timersMade w), timers w ++ [(timersMade w, interval)],
         S (timersMade w)).
Proof.
  intros H. unfold onTimeout. rewrite bind_getThis. rewrite H.
  pose proof (cycle_then_arm (ret tt) w only_logs_ret H) as (Hok & w1 & _ & Hfinal).
  assert (Hsame : (cycle ;; scheduleNextRun) w = (cycle ;; scheduleNextRun ;; ret tt) w).
  { unfold bind. destruct (cycle w) as [[[] | e |] w2]; try reflexivity.
    destruct (scheduleNextRun w2) as [[[] | e |] w3]; reflexivity. }
  rewrite Hsame. split; [assumption |].
  exists (interval_of w1). split; [apply interval_of_bounds | assumption].
Qed.

Lemma onTimeout_isRunning :
  keeps (fun w : World => isRunning (this w)) (onTimeout cycle).
Proof.
  intros w. destruct (isRunning (this w)) eqn:H.
  - destruct (onTimeout_running w H) as (_ & iv & _ & Hs). unfold schedule in Hs. congruence.
  - now rewrite onTimeout_stopped.
Qed.

Lemma fireTimer_isRunning (id : nat) :
  keeps (fun w : World => isRunning (this w)) (fireTimer cycle id).
Proof.
  intros w. unfold fireTimer.
  destruct (existsb (fun t => Nat.eqb (fst t) id) (timers w)); [| reflexivity].
  now rewrite onTimeout_isRunning.
Qed.

(** *** Pending timers are the ones [timeoutId] remembers *)

Lemma tracked_filter (w : World) (id : nat) :
  timers_tracked w ->
  existsb (fun t => Nat.eqb (fst t) id) (timers w) = true ->
  filter (fun t => negb (Nat.eqb (fst t) id)) (timers w) = [].
Proof.
  intros [Hall _] Hex. apply existsb_exists in Hex. destruct Hex as [t0 [Hin0 Heq0]].
  apply Nat.eqb_eq in Heq0. apply filter_none. intros t Hin.
  apply negb_false_iff, Nat.eqb_eq.
  pose proof (Hall t Hin) as H1. pose proof (Hall t0 Hin0) as H0. congruence.
Qed.

Lemma tracked_of_schedule (w w' : World) :
  schedule w' = schedule w -> timers_tracked w -> timers_tracked w'.
Proof.
  unfold schedule, timers_tracked. intros [= H1 H2 H3 H4] [Hall Hstop].
  rewrite H1, H2, H3. auto.
Qed.

Lemma tracked_keeps {A : Type} (c : M A) (w : World) :
  keeps schedule c -> timers_tracked w -> timers_tracked (snd (c w)).
Proof. intros Hc. apply tracked_of_schedule. apply Hc. Qed.

Lemma stop_tracked (w : World) :
  timers_tracked w ->
  timers_tracked (snd (stop w)) /\ timers (snd (stop w)) = [].
Proof.
  intros Ht. assert (Hnone : timers (snd (stop w)) = []).
  { destruct (isRunning (this w)) eqn:H.
    - destruct (stop_running w H) as (_ & _ & -> & _).
      destruct Ht as [Hall _]. destruct (timeoutId (this w)) as [id |] eqn:Hid.
      + apply filter_none. intros t Hin. apply negb_false_iff, Nat.eqb_eq.
        specialize (Hall t Hin). congruence.
      + destruct (timers w) as [| t rest]; [reflexivity |].
        specialize (Hall t (or_introl eq_refl)). discriminate.
    - rewrite stop_stopped by assumption. destruct Ht as [_ Hstop]. now apply Hstop. }
  split; [| assumption]. split.
  - rewrite Hnone. intros t [].
  - intros _. assumption.
Qed.

Lemma start_tracked (w : World) :
  timers_tracked w -> timers_tracked (snd (start load cycle w)).
Proof.
  intros Ht. destruct (isRunning (this w)) eqn:H.
  - rewrite start_running by assumption.
    apply tracked_keeps; [| assumption].
    apply only_logs_keeps; [reflexivity | apply only_logs_log].
  - assert (Hnone : timers w = []) by (now apply Ht).
    destruct (start_stopped w H) as [[_ Hs] | [[_ [iv [_ Hs]]] | [e [_ Hs]]]];
      unfold schedule in Hs; injection Hs as H1 H2 H3 H4;
      unfold timers_tracked; rewrite H1, H2, H3, Hnone; split.
    + intros x [].
    + discriminate.
    + simpl. intros x [<- | []]. reflexivity.
    + discriminate.
    + intros x [].
    + discriminate.
Qed.

Lemma fireTimer_tracked (id : nat) (w : World) :
  timers_tracked w -> timers_tracked (snd (fireTimer cycle id w)).
Proof.
  intros Ht. unfold fireTimer.
  destruct (existsb (fun t => Nat.eqb (fst t) id) (timers w)) eqn:Hex; [| assumption].
  rewrite (tracked_filter w id Ht Hex).
  set (w0 := set_timers [] w).
  destruct (isRunning (this w0)) eqn:H.
  - destruct (onTimeout_running w0 H) as (_ & iv & _ & Hs).
    unfold schedule in Hs. injection Hs as H1 H2 H3 H4.
    unfold timers_tracked. rewrite H1, H2, H3. split; [| discriminate].
    simpl. intros t [<- | []]. reflexivity.
  - rewrite onTimeout_stopped by assumption. split.
    + intros t [].
    + reflexivity.
Qed.

End SchedulerFacts.

(** ** The two classes as instances of the scheduler *)

Ltac class_frame :=
  first
    [ apply loadExistingData_keeps; [intros; reflexivity | intros ? ?; reflexivity]
    | apply saveData_keeps; intros; reflexivity
    | apply LotteryFacts.lottery_runScrapingCycle_keeps;
      [ intros; reflexivity | intros; reflexivity | intros; reflexivity
      | intros ? ?; reflexivity | intros; apply saveData_keeps; intros; reflexivity ]
    | apply StockFacts.stock_runScrapingCycle_keeps;
      [ intros; reflexivity | intros; reflexivity | intros; reflexivity
      | intros ? ?; reflexivity | intros; apply saveData_keeps; intros; reflexivity ]
    | apply LotteryFacts.lottery_processNewData_keeps;
      [ intros; reflexivity | intros ? ?; reflexivity
      | intros; apply saveData_keeps; intros; reflexivity ]
    | apply StockFacts.stock_processNewData_keeps;
      [ intros; reflexivity | intros ? ?; reflexivity
      | intros; apply saveData_keeps; intros; reflexivity ]
    | apply LotteryFacts.lottery_retryLoop_keeps; intros; reflexivity
    | apply StockFacts.stock_retryLoop_keeps; intros; reflexivity ].

Lemma tracked_initial {Rec Raw : Type} (w : World Rec Raw) :
  timers w = [] -> timers_tracked w.
Proof. intros H. split; [rewrite H; intros t [] | auto]. Qed.

Lemma totalChanges_zero {Rec : Type} (changes : ChangeSet Rec) :
  totalChanges changes = 0 -> changes = mkChanges [] [] [].
Proof.
  destruct changes as [[| a l1] [| u l2] [| r l3]]; unfold totalChanges; simpl;
    intros H; try reflexivity; lia.
Qed.

(** Reading off a run that replaces and saves exactly when something
    changed. *)
Lemma replaced_iff_changes {Rec : Type} (changes : ChangeSet Rec)
      (this' this0 replaced : Manager Rec) (writes' writes0 : nat)
      (file' file0 saved : FileState) :
  this' = (if (0 <? totalChanges changes)%nat then replaced else this0) ->
  writes' = (if (0 <? totalChanges changes)%nat then S writes0 else writes0) ->
  file' = (if (0 <? totalChanges changes)%nat then saved else file0) ->
  (0 < totalChanges changes <-> writes' = S writes0) /\
  (0 < totalChanges changes -> this' = replaced /\ file' = saved) /\
  (totalChanges changes = 0 -> this' = this0 /\ writes' = writes0 /\ file' = file0).
Proof.
  intros Ht Hw Hf.
  destruct (0 <? totalChanges changes)%nat eqn:Hch.
  - apply Nat.ltb_lt in Hch. subst.
    split; [tauto |]. split; [auto | lia].
  - apply Nat.ltb_ge in Hch. subst.
    split; [lia |]. split; [lia | auto].
Qed.

Module LotterySchedule.
Import LotteryManager.

Lemma lottery_load_schedule : keeps schedule loadExistingData.
Proof. class_frame. Qed.

Lemma lottery_cycle_schedule : keeps schedule runScrapingCycle.
Proof. class_frame. Qed.

Lemma lottery_call_isRunning (c : Call LotteryRecord) (w : World) :
  isRunning (this (lottery_call c w)) = next_running c (isRunning (this w)).
Proof.
  destruct c; unfold lottery_call, after, next_running.
  - apply (start_isRunning _ _ lottery_load_schedule lottery_cycle_schedule LotteryFacts.lottery_runScrapingCycle_total).
  - apply stop_isRunning.
  - apply (fireTimer_isRunning _ lottery_cycle_schedule LotteryFacts.lottery_runScrapingCycle_total).
  - apply (keeps_map schedule (fun s => fst (fst (fst s)))). apply lottery_load_schedule.
  - apply (keeps_map schedule (fun s => fst (fst (fst s)))). class_frame.
  - apply (keeps_map schedule (fun s => fst (fst (fst s)))). class_frame.
  - apply (keeps_map schedule (fun s => fst (fst (fst s)))). class_frame.
  - apply (keeps_map schedule (fun s => fst (fst (fst s)))). apply lottery_cycle_schedule.
  - apply scheduleNextRun_isRunning.
  - reflexivity.
  - reflexivity.
Qed.

Lemma lottery_call_tracked (c : Call LotteryRecord) (w : World) :
  from_outside c = true -> timers_tracked w -> timers_tracked (lottery_call c w).
Proof.
  destruct c; unfold lottery_call, after; intros Hc Ht; try discriminate.
  - now apply (start_tracked _ _ lottery_load_schedule lottery_cycle_schedule
                 LotteryFacts.lottery_runScrapingCycle_total).
  - now apply stop_tracked.
  - now apply (fireTimer_tracked _ lottery_cycle_schedule LotteryFacts.lottery_runScrapingCycle_total).
  - now apply tracked_keeps; [apply lottery_load_schedule |].
  - apply tracked_keeps; [class_frame | assumption].
  - apply tracked_keeps; [class_frame | assumption].
  - apply tracked_keeps; [class_frame | assumption].
  - now apply tracked_keeps; [apply lottery_cycle_schedule |].
  - assumption.
  - assumption.
Qed.

End LotterySchedule.

Module StockSchedule.
Import StockDataManager.

Lemma stock_load_schedule : keeps schedule loadExistingData.
Proof. class_frame. Qed.

Lemma stock_cycle_schedule : keeps schedule runScrapingCycle.
Proof. class_frame. Qed.

Lemma stock_call_isRunning (c : Call StockRecord) (w : World) :
  isRunning (this (stock_call c w)) = next_running c (isRunning (this w)).
Proof.
  destruct c; unfold stock_call, after, next_running.
  - apply (start_isRunning _ _ stock_load_schedule stock_cycle_schedule StockFacts.stock_runScrapingCycle_total).
  - apply stop_isRunning.
  - apply (fireTimer_isRunning _ stock_cycle_schedule StockFacts.stock_runScrapingCycle_total).
  - apply (keeps_map schedule (fun s => fst (fst (fst s)))). apply stock_load_schedule.
  - apply (keeps_map schedule (fun s => fst (fst (fst s)))). class_frame.
  - apply (keeps_map schedule (fun s => fst (fst (fst s)))). class_frame.
  - apply (keeps_map schedule (fun s => fst (fst (fst s)))). class_frame.
  - apply (keeps_map schedule (fun s => fst (fst (fst s)))). apply stock_cycle_schedule.
  - apply scheduleNextRun_isRunning.
  - reflexivity.
  - reflexivity.
Qed.

Lemma stock_call_tracked (c : Call StockRecord) (w : World) :
  from_outside c = true -> timers_tracked w -> timers_tracked (stock_call c w).
Proof.
  destruct c; unfold stock_call, after; intros Hc Ht; try discriminate.
  - now apply (start_tracked _ _ stock_load_schedule stock_cycle_schedule
                 StockFacts.stock_runScrapingCycle_total).
  - now apply stop_tracked.
  - now apply (fireTimer_tracked _ stock_cycle_schedule StockFacts.stock_runScrapingCycle_total).
  - now apply tracked_keeps; [apply stock_load_schedule |].
  - apply tracked_keeps; [class_frame | assumption].
  - apply tracked_keeps; [class_frame | assumption].
  - apply tracked_keeps; [class_frame | assumption].
  - now apply tracked_keeps; [apply stock_cycle_schedule |].
  - assumption.
  - assumption.
Qed.

End StockSchedule.

(** ** The shape of a cycle: log, extract, process, log *)

Lemma holdings_eq {Rec Raw : Type} (w w' : World Rec Raw) :
  holdings w = holdings w' ->
  this w = this w' /\ dataFile w = dataFile w' /\ writes w = writes w'.
Proof. unfold holdings. intros H. injection H as H1 H2 H3. auto. Qed.

Section CycleShape.
Context {Rec Raw A B : Type}.
Variable extract : M Rec Raw A.
Variable process : A -> M Rec Raw B.
Variable handler : Err -> M Rec Raw unit.

Local Abbreviation cycle :=
  (try_catch
     (log MsgCycleStart ;;
      newData <- extract ;;
      process newData ;;
      log MsgCycleDone)
     handler).

(** Extraction and processing return: the cycle ends with what the
    processing left, and one more log line. *)
Lemma cycle_fetched (w : World Rec Raw) (newData : A) (changes : B) :
  let w0 := snd (log MsgCycleStart w) in
  fst (extract w0) = Ok newData ->
  fst (process newData (snd (extract w0))) = Ok changes ->
  fst (cycle w) = Ok tt /\
  holdings (snd (cycle w)) = holdings (snd (process newData (snd (extract w0)))).
Proof.
  intros w0 Hext Hproc. unfold try_catch.
  change ((log MsgCycleStart ;;
           newData <- extract ;; process newData ;; log MsgCycleDone) w)
    with ((newData <- extract ;; process newData ;; log MsgCycleDone) w0).
  pose proof (bind_cases extract (fun newData => process newData ;; log MsgCycleDone) w0)
    as Hb.
  rewrite Hext in Hb. rewrite Hb. clear Hb.
  pose proof (bind_cases (process newData) (fun _ => log MsgCycleDone) (snd (extract w0)))
    as Hb.
  rewrite Hproc in Hb. rewrite Hb. clear Hb.
  split; reflexivity.
Qed.

(** Extraction raises: the handler runs in the world the extraction left. *)
Lemma cycle_failed (w : World Rec Raw) (e : Err) :
  let w0 := snd (log MsgCycleStart w) in
  fst (extract w0) = Throw e ->
  cycle w = handler e (snd (extract w0)).
Proof.
  intros w0 Hext. unfold try_catch.
  change ((log MsgCycleStart ;;
           newData <- extract ;; process newData ;; log MsgCycleDone) w)
    with ((newData <- extract ;; process newData ;; log MsgCycleDone) w0).
  pose proof (bind_cases extract (fun newData => process newData ;; log MsgCycleDone) w0)
    as Hb.
  rewrite Hext in Hb. rewrite Hb. reflexivity.
Qed.

End CycleShape.

(** ** processNewData called twice, and the cycles by what was fetched *)

Module LotteryCycleFacts.
Import LotteryManager.

Lemma lottery_processNewData_guarded_run (newData : option (list LotteryRecord)) (w : World) :
  newData = None \/ newData = Some [] ->
  fst (processNewData newData w) = Ok (mkChanges [] [] []) /\
  holdings (snd (processNewData newData w)) = holdings w.
Proof.
  intros H. rewrite (LotteryFacts.lottery_processNewData_guarded newData w H). split; reflexivity.
Qed.

Lemma lottery_processNewData_nothing (newData : list LotteryRecord) (w : World) :
  newData <> [] ->
  detectChanges (currentData (this w)) newData = mkChanges [] [] [] ->
  fst (processNewData (Some newData) w) = Ok (mkChanges [] [] []) /\
  holdings (snd (processNewData (Some newData) w)) = holdings w.
Proof.
  intros Hne Hnothing.
  destruct (LotteryFacts.lottery_processNewData_run newData w Hne) as (ts & Hr & Ht & Hw & Hf).
  cbv zeta in Hr, Ht, Hw, Hf. rewrite Hnothing in Hr, Ht, Hw, Hf.
  change (0 <? totalChanges (@mkChanges LotteryRecord [] [] []))%nat with false in Ht, Hw, Hf.
  split; [assumption |]. unfold holdings. now rewrite Ht, Hw, Hf.
Qed.

(** The second of two calls with the same argument. *)
Lemma lottery_processNewData_again (newData : option (list LotteryRecord)) (w : World) :
  let w1 := snd (processNewData newData w) in
  fst (processNewData newData w1) = Ok (mkChanges [] [] []) /\
  holdings (snd (processNewData newData w1)) = holdings w1.
Proof.
  intros w1.
  destruct newData as [newData |]; [| apply lottery_processNewData_guarded_run; auto].
  assert (Hcases : newData = [] \/ newData <> [])
    by (destruct newData; [left; reflexivity | right; discriminate]).
  destruct Hcases as [-> | Hne]; [apply lottery_processNewData_guarded_run; auto |].
  apply lottery_processNewData_nothing; [assumption |].
  destruct (LotteryFacts.lottery_processNewData_run newData w Hne) as (ts & _ & Hthis & _).
  cbv zeta in Hthis. fold w1 in Hthis. rewrite Hthis.
  destruct (0 <? totalChanges (detectChanges (currentData (this w)) newData))%nat eqn:Hch.
  - cbn [currentData]. apply detectChanges_same. apply LotteryFacts.lottery_hasDataChanged_same.
  - apply totalChanges_zero. apply Nat.ltb_ge in Hch. lia.
Qed.

(** A cycle whose attempts all raise ends in the [catch] of the cycle. *)
Lemma lottery_runScrapingCycle_fetch_fails (w : World) :
  (forall i, i < CONFIG.maxRetries ->
             exists e, fetcher (oracle w) (fetches w + i) = Raises e) ->
  fst (runScrapingCycle w) = Ok tt /\
  holdings (snd (runScrapingCycle w)) = holdings w /\
  schedule (snd (runScrapingCycle w)) = schedule w /\
  fetches (snd (runScrapingCycle w)) = fetches w + CONFIG.maxRetries /\
  exists e, fetcher (oracle w) (fetches w + 2) = Raises e /\
            last (trace (snd (runScrapingCycle w))) EvFetch
            = EvLog (clock (oracle w) (clockReads (snd (runScrapingCycle w)) - 1))
                    (MsgCycleFailed (message e)).
Proof.
  intros Hall.
  set (w1 := snd (log MsgCycleStart w)).
  assert (Hall1 : forall i, i <= 2 ->
                    exists e, fetcher (oracle w1) (fetches w1 + i) = Raises e).
  { intros i Hi. apply Hall. unfold CONFIG.maxRetries. lia. }
  destruct (LotteryRetryFacts.lottery_retryLoop_raises 2 1 w1 eq_refl Hall1)
    as (e & He & Hres & Hf & _).
  change (retryLoop 3 1) with extractWithRetry in Hres, Hf.
  assert (Hrun : runScrapingCycle w
                 = log (MsgCycleFailed (message e)) (snd (extractWithRetry w1))).
  { unfold runScrapingCycle, try_catch.
    assert (Hbody : (log MsgCycleStart ;;
                     newData <- extractWithRetry ;;
                     processNewData newData ;; log MsgCycleDone) w
                    = (Throw e, snd (extractWithRetry w1))).
    { change ((log MsgCycleStart ;;
               newData <- extractWithRetry ;;
               processNewData newData ;; log MsgCycleDone) w)
        with ((newData <- extractWithRetry ;;
               processNewData newData ;; log MsgCycleDone) w1).
      pose proof (bind_cases extractWithRetry
                    (fun newData => processNewData newData ;; log MsgCycleDone) w1) as Hb.
      rewrite Hres in Hb. exact Hb. }
    rewrite Hbody. reflexivity. }
  rewrite Hrun.
  assert (Hh : holdings (snd (extractWithRetry w1)) = holdings w).
  { unfold extractWithRetry. rewrite LotteryFacts.lottery_retryLoop_keeps; intros; reflexivity. }
  assert (Hs : schedule (snd (extractWithRetry w1)) = schedule w).
  { unfold extractWithRetry. rewrite LotteryFacts.lottery_retryLoop_keeps; intros; reflexivity. }
  assert (Ho : oracle (snd (extractWithRetry w1)) = oracle w).
  { unfold extractWithRetry. rewrite LotteryFacts.lottery_retryLoop_keeps; intros; reflexivity. }
  split; [reflexivity |]. split; [exact Hh |]. split; [exact Hs |].
  split; [exact Hf |].
  exists e. split; [exact He |].
  unfold log, now, emit, modify, bind. cbn [snd trace set_trace set_clockReads clockReads].
  rewrite last_last. rewrite Ho. f_equal. f_equal. lia.
Qed.

Lemma lottery_extractWithRetry_leaves (w : World) :
  holdings (snd (extractWithRetry w)) = holdings w /\
  oracle (snd (extractWithRetry w)) = oracle w.
Proof.
  unfold extractWithRetry.
  split; rewrite LotteryFacts.lottery_retryLoop_keeps; intros; reflexivity.
Qed.

(** A cycle whose extraction returns a record: the cycle ends as
    [processNewData] on that record ends, run on the snapshot the cycle
    found. *)
Lemma lottery_runScrapingCycle_record (w : World) (k : nat) (record : LotteryRecord) :
  k < CONFIG.maxRetries ->
  Forall (fun a => is_record a = false) (answers_from w k) ->
  fetcher (oracle w) (fetches w + k) = Returns (Some record) ->
  let changes := detectChanges (currentData (this w)) [record] in
  let changed := (0 <? totalChanges changes)%nat in
  exists lastUpdated,
    fst (runScrapingCycle w) = Ok tt /\
    this (snd (runScrapingCycle w))
      = (if changed then mkManager [record] (isRunning (this w)) (timeoutId (this w))
         else this w) /\
    writes (snd (runScrapingCycle w)) = (if changed then S (writes w) else writes w) /\
    dataFile (snd (runScrapingCycle w))
      = (if changed
         then match writeOutcome (oracle w) (writes w) with
              | None => Holds (Json (wrapped lastUpdated (Z.of_nat (length [record]))
                                             (VArr (map encode [record]))))
              | Some (_, residue) => residue
              end
         else dataFile w).
Proof.
  intros Hk Hall Hans changes changed.
  set (w0 := snd (log MsgCycleStart w)).
  destruct (LotteryRetryMore.lottery_retryLoop_record_after
              k CONFIG.maxRetries 1 w0 record Hk Hk Hall Hans) as (Hres & _).
  change (retryLoop CONFIG.maxRetries 1) with extractWithRetry in Hres.
  destruct (lottery_extractWithRetry_leaves w0) as [Hh Ho].
  set (w1 := snd (extractWithRetry w0)) in *.
  change (holdings w0) with (holdings w) in Hh. change (oracle w0) with (oracle w) in Ho.
  apply holdings_eq in Hh. destruct Hh as (Hthis & Hfile & Hwrites).
  destruct (LotteryFacts.lottery_processNewData_run [record] w1)
    as (ts & Hr & Ht & Hw & Hf); [discriminate |].
  cbv zeta in Hr, Ht, Hw, Hf.
  destruct (cycle_fetched extractWithRetry processNewData
              (fun error => log (MsgCycleFailed (message error)))
              w (Some [record]) _ Hres Hr) as [Hok Hhold].
  fold runScrapingCycle in Hok, Hhold. fold w0 w1 in Hhold.
  apply holdings_eq in Hhold. destruct Hhold as (Hthis' & Hfile' & Hwrites').
  rewrite Hthis in Ht, Hw, Hf. rewrite Hwrites in Hw, Hf. rewrite Ho, Hfile in Hf.
  fold changes changed in Ht, Hw, Hf.
  exists ts. rewrite Hthis', Hfile', Hwrites'. auto.
Qed.

(** A cycle in which no call gives a record: whether the third call raised
    or returned [null], the manager, the file and the count of writes are as
    the cycle found them. *)
Lemma lottery_runScrapingCycle_no_record (w : World) :
  Forall (fun a => is_record a = false) (answers_from w CONFIG.maxRetries) ->
  fst (runScrapingCycle w) = Ok tt /\
  holdings (snd (runScrapingCycle w)) = holdings w.
Proof.
  intros Hall.
  set (w0 := snd (log MsgCycleStart w)).
  destruct (LotteryRetryMore.lottery_retryLoop_no_record 2 1 w0 eq_refl Hall) as (Hres & _).
  change (retryLoop 3 1) with extractWithRetry in Hres.
  destruct (lottery_extractWithRetry_leaves w0) as [Hh _].
  change (holdings w0) with (holdings w) in Hh.
  destruct (fetcher (oracle w0) (fetches w0 + 2)) as [r | e].
  - destruct (lottery_processNewData_guarded_run None (snd (extractWithRetry w0)))
      as [Hr Hkeep]; [now left |].
    destruct (cycle_fetched extractWithRetry processNewData
                (fun error => log (MsgCycleFailed (message error)))
                w None _ Hres Hr) as [Hok Hhold].
    fold runScrapingCycle in Hok, Hhold. fold w0 in Hhold.
    split; [exact Hok |]. now rewrite Hhold, Hkeep.
  - pose proof (cycle_failed extractWithRetry processNewData
                  (fun error => log (MsgCycleFailed (message error))) w e Hres) as Hrun.
    fold runScrapingCycle in Hrun. fold w0 in Hrun. rewrite Hrun.
    split; [reflexivity | exact Hh].
Qed.

End LotteryCycleFacts.

Module StockCycleFacts.
Import StockDataManager.

Lemma stock_processNewData_nothing (newData : list StockRecord) (w : World) :
  detectChanges (currentData (this w)) newData = mkChanges [] [] [] ->
  fst (processNewData (Some newData) w) = Ok (mkChanges [] [] []) /\
  holdings (snd (processNewData (Some newData) w)) = holdings w.
Proof.
  intros Hnothing.
  destruct (StockFacts.stock_processNewData_run newData w) as (ts & Hr & Ht & Hw & Hf).
  cbv zeta in Hr, Ht, Hw, Hf. rewrite Hnothing in Hr, Ht, Hw, Hf.
  change (0 <? totalChanges (@mkChanges StockRecord [] [] []))%nat with false in Ht, Hw, Hf.
  split; [assumption |]. unfold holdings. now rewrite Ht, Hw, Hf.
Qed.

Lemma stock_processNewData_again (newData : list StockRecord) (w : World) :
  let w1 := snd (processNewData (Some newData) w) in
  fst (processNewData (Some newData) w1) = Ok (mkChanges [] [] []) /\
  holdings (snd (processNewData (Some newData) w1)) = holdings w1.
Proof.
  intros w1. apply stock_processNewData_nothing.
  destruct (StockFacts.stock_processNewData_run newData w) as (ts & _ & Hthis & _).
  cbv zeta in Hthis. fold w1 in Hthis. rewrite Hthis.
  destruct (0 <? totalChanges (detectChanges (currentData (this w)) newData))%nat eqn:Hch.
  - cbn [currentData]. apply detectChanges_same. apply StockFacts.stock_hasDataChanged_same.
  - apply totalChanges_zero. apply Nat.ltb_ge in Hch. lia.
Qed.

Lemma stock_runScrapingCycle_fetch_fails (w : World) :
  (forall i, i < CONFIG.maxRetries ->
             exists e, fetcher (oracle w) (fetches w + i) = Raises e) ->
  fst (runScrapingCycle w) = Ok tt /\
  holdings (snd (runScrapingCycle w)) = holdings w /\
  schedule (snd (runScrapingCycle w)) = schedule w /\
  fetches (snd (runScrapingCycle w)) = fetches w + CONFIG.maxRetries.
Proof.
  intros Hall.
  set (w1 := snd (log MsgCycleStart w)).
  assert (Hall1 : forall i, i <= 2 ->
                    exists e, fetcher (oracle w1) (fetches w1 + i) = Raises e).
  { intros i Hi. apply Hall. unfold CONFIG.maxRetries. lia. }
  destruct (StockFacts.stock_retryLoop_raises 2 1 w1 eq_refl Hall1)
    as (e & He & Hres & Hf & _).
  change (retryLoop 3 1) with extractWithRetry in Hres, Hf.
  assert (Hrun : runScrapingCycle w
                 = log (MsgCycleFailed (message e)) (snd (extractWithRetry w1))).
  { unfold runScrapingCycle, try_catch.
    assert (Hbody : (log MsgCycleStart ;;
                     newData <- extractWithRetry ;;
                     processNewData newData ;; log MsgCycleDone) w
                    = (Throw e, snd (extractWithRetry w1))).
    { change ((log MsgCycleStart ;;
               newData <- extractWithRetry ;;
               processNewData newData ;; log MsgCycleDone) w)
        with ((newData <- extractWithRetry ;;
               processNewData newData ;; log MsgCycleDone) w1).
      pose proof (bind_cases extractWithRetry
                    (fun newData => processNewData newData ;; log MsgCycleDone) w1) as Hb.
      rewrite Hres in Hb. exact Hb. }
    rewrite Hbody. reflexivity. }
  rewrite Hrun.
  assert (Hh : holdings (snd (extractWithRetry w1)) = holdings w).
  { unfold extractWithRetry. rewrite StockFacts.stock_retryLoop_keeps; intros; reflexivity. }
  assert (Hs : schedule (snd (extractWithRetry w1)) = schedule w).
  { unfold extractWithRetry. rewrite StockFacts.stock_retryLoop_keeps; intros; reflexivity. }
  split; [reflexivity |]. split; [exact Hh |]. split; [exact Hs |]. exact Hf.
Qed.

Lemma stock_extractWithRetry_leaves (w : World) :
  holdings (snd (extractWithRetry w)) = holdings w /\
  oracle (snd (extractWithRetry w)) = oracle w.
Proof.
  unfold extractWithRetry.
  split; rewrite StockFacts.stock_retryLoop_keeps; intros; reflexivity.
Qed.

(** A cycle whose extraction returns: the cycle ends as [processNewData] on
    the returned records ends, run on the snapshot the cycle found. *)
Lemma stock_runScrapingCycle_results (w : World) (k : nat) (results : list StockRecord) :
  k < CONFIG.maxRetries ->
  (forall i, i < k -> exists e, fetcher (oracle w) (fetches w + i) = Raises e) ->
  fetcher (oracle w) (fetches w + k) = Returns results ->
  let changes := detectChanges (currentData (this w)) results in
  let changed := (0 <? totalChanges changes)%nat in
  exists lastUpdated,
    fst (runScrapingCycle w) = Ok tt /\
    this (snd (runScrapingCycle w))
      = (if changed then mkManager results (isRunning (this w)) (timeoutId (this w))
         else this w) /\
    writes (snd (runScrapingCycle w)) = (if changed then S (writes w) else writes w) /\
    dataFile (snd (runScrapingCycle w))
      = (if changed
         then match writeOutcome (oracle w) (writes w) with
              | None => Holds (Json (wrapped lastUpdated (Z.of_nat (length results))
                                             (VArr (map encode results))))
              | Some (_, residue) => residue
              end
         else dataFile w).
Proof.
  intros Hk Hall Hans changes changed.
  set (w0 := snd (log MsgCycleStart w)).
  destruct (StockRetryMore.stock_retryLoop_answers_after
              k CONFIG.maxRetries 1 w0 results Hk Hk Hall Hans) as (Hres & _).
  change (retryLoop CONFIG.maxRetries 1) with extractWithRetry in Hres.
  destruct (stock_extractWithRetry_leaves w0) as [Hh Ho].
  set (w1 := snd (extractWithRetry w0)) in *.
  change (holdings w0) with (holdings w) in Hh. change (oracle w0) with (oracle w) in Ho.
  apply holdings_eq in Hh. destruct Hh as (Hthis & Hfile & Hwrites).
  destruct (StockFacts.stock_processNewData_run results w1) as (ts & Hr & Ht & Hw & Hf).
  cbv zeta in Hr, Ht, Hw, Hf.
  destruct (cycle_fetched extractWithRetry processNewData
              (fun error => log (MsgCycleFailed (message error)))
              w (Some results) _ Hres Hr) as [Hok Hhold].
  fold runScrapingCycle in Hok, Hhold. fold w0 w1 in Hhold.
  apply holdings_eq in Hhold. destruct Hhold as (Hthis' & Hfile' & Hwrites').
  rewrite Hthis in Ht, Hw, Hf. rewrite Hwrites in Hw, Hf. rewrite Ho, Hfile in Hf.
  fold changes changed in Ht, Hw, Hf.
  exists ts. rewrite Hthis', Hfile', Hwrites'. auto.
Qed.

End StockCycleFacts.

(** The timer's callback when the cycle it runs finds every attempt raising:
    the snapshot stays, and the next timer is armed. *)
Lemma lottery_onTimeout_fetch_fails (w : LotteryManager.World) :
  isRunning (this w) = true ->
  (forall i, i < CONFIG.maxRetries ->
             exists e, fetcher (oracle w) (fetches w + i) = Raises e) ->
  fst (LotteryManager.onTimeout w) = Ok tt /\
  currentData (this (snd (LotteryManager.onTimeout w))) = currentData (this w) /\
  isRunning (this (snd (LotteryManager.onTimeout w))) = true /\
  timeoutId (this (snd (LotteryManager.onTimeout w))) = Some (timersMade w) /\
  exists interval,
    (CONFIG.minInterval <= interval <= CONFIG.maxInterval)%Z /\
    timers (snd (LotteryManager.onTimeout w)) = timers w ++ [(timersMade w, interval)].
Proof.
  intros Hrun Hall.
  destruct (LotteryCycleFacts.lottery_runScrapingCycle_fetch_fails w Hall)
    as (Hok & Hh & Hs & _).
  unfold LotteryManager.onTimeout, onTimeout. rewrite bind_getThis, Hrun.
  pose proof (bind_cases LotteryManager.runScrapingCycle (fun _ => scheduleNextRun) w) as Hb.
  rewrite Hok in Hb. rewrite Hb. clear Hb.
  set (w1 := snd (LotteryManager.runScrapingCycle w)) in *.
  unfold holdings in Hh. unfold schedule in Hs.
  injection Hh as Hthis _ _. injection Hs as Hr _ Ht Hm.
  assert (Hrun1 : isRunning (this w1) = true) by congruence.
  destruct (scheduleNextRun_running w1 Hrun1) as (Hok' & Hthis' & Htimers' & _).
  rewrite Hthis', Htimers'. cbn [currentData isRunning timeoutId].
  rewrite Hthis, Ht, Hm. repeat split; try assumption.
  exists (interval_of w1). split; [apply interval_of_bounds | reflexivity].
Qed.

(** ** The snapshot file *)

Lemma get_data_array (items : list Value) : get_data (VArr items) = Some VUndefined.
Proof. reflexivity. Qed.

Lemma get_data_wrapped (lastUpdated : string) (recordCount : Z) (data : Value) :
  data <> VUndefined ->
  get_data (wrapped lastUpdated recordCount data) = Some data.
Proof. intros H. unfold wrapped. cbn. destruct data; congruence. Qed.

Section RoundTrip.
Context {Rec Raw : Type}.
Variable encode : Rec -> Value.
Variable decode : Value -> option Rec.
Hypothesis decode_encode : forall r, decode (encode r) = Some r.

(** A bare array and the wrapped form of the same array load alike. *)
Lemma load_bare_like_wrapped (w : World Rec Raw) (items : list Value)
      (lastUpdated : string) (recordCount : Z) :
  let bare := set_dataFile (Holds (Json (VArr items))) w in
  let wrap := set_dataFile (Holds (Json (wrapped lastUpdated recordCount (VArr items)))) w in
  fst (loadExistingData decode bare) = fst (loadExistingData decode wrap) /\
  this (snd (loadExistingData decode bare)) = this (snd (loadExistingData decode wrap)) /\
  trace (snd (loadExistingData decode bare)) = trace (snd (loadExistingData decode wrap)).
Proof.
  intros bare wrap.
  assert (Hb : get_data (VArr items) = Some VUndefined) by reflexivity.
  assert (Hw : get_data (wrapped lastUpdated recordCount (VArr items)) = Some (VArr items))
    by (apply get_data_wrapped; discriminate).
  destruct (records_of decode (VArr items)) as [records |] eqn:Hrec.
  - destruct (loadExistingData_json decode bare (VArr items) VUndefined records
                eq_refl Hb Hrec) as (H1 & H2 & H3 & _).
    destruct (loadExistingData_json decode wrap _ (VArr items) records
                eq_refl Hw Hrec) as (H1' & H2' & H3' & _).
    rewrite H1, H1', H2, H2', H3, H3'. auto.
  - destruct (loadExistingData_untyped decode bare (VArr items) VUndefined
                eq_refl Hb Hrec) as (H1 & H2 & H3).
    destruct (loadExistingData_untyped decode wrap _ (VArr items)
                eq_refl Hw Hrec) as (H1' & H2' & H3').
    rewrite H1, H1', H2, H2', H3, H3'. auto.
Qed.

Lemma load_bare_records (w : World Rec Raw) (records : list Rec) :
  let bare := set_dataFile (Holds (Json (VArr (map encode records)))) w in
  fst (loadExistingData decode bare) = Ok tt /\
  this (snd (loadExistingData decode bare))
    = mkManager records (isRunning (this w)) (timeoutId (this w)).
Proof.
  intros bare.
  destruct (loadExistingData_json decode bare (VArr (map encode records)) VUndefined records
              eq_refl eq_refl (decode_all_encode encode decode decode_encode records))
    as (H1 & H2 & _).
  auto.
Qed.

(** What [saveData] wrote is what [loadExistingData] reads back. *)
Lemma save_then_load (w : World Rec Raw) (records : list Rec) :
  writeOutcome (oracle w) (writes w) = None ->
  let saved := snd (saveData encode records w) in
  fst (loadExistingData decode saved) = Ok tt /\
  this (snd (loadExistingData decode saved))
    = mkManager records (isRunning (this w)) (timeoutId (this w)).
Proof.
  intros Hwrite saved.
  destruct (saveData_run encode records w) as (_ & Hthis & _ & Hfile).
  fold saved in Hthis, Hfile. rewrite Hwrite in Hfile.
  destruct (loadExistingData_json decode saved _ (VArr (map encode records)) records Hfile)
    as (H1 & H2 & _).
  - apply get_data_wrapped. discriminate.
  - apply (decode_all_encode encode decode decode_encode).
  - rewrite Hthis in H2. auto.
Qed.

End RoundTrip.

(** What [stop] leaves in the trace when the scheduler was Running: the
    timer that [timeoutId] remembers is cleared, then the line is logged. *)
Lemma stop_running_trace {Rec Raw : Type} (w : World Rec Raw) :
  isRunning (this w) = true ->
  trace (snd (stop w))
    = trace w ++
      match timeoutId (this w) with
      | Some id => [EvClearTimeout id]
      | None => []
      end ++
      [EvLog (clock (oracle w) (clockReads w)) MsgStopped].
Proof.
  intros H. unfold stop. rewrite bind_getThis. rewrite H.
  autounfold with machine. cbn.
  destruct (timeoutId (this w)) as [id |]; cbn; now rewrite <- ?app_assoc.
Qed.

(** ** Nothing fetched: the values of the old Map *)

Lemma keys_of_values {Rec : Type} (idKey : Rec -> string) (data : list Rec) :
  map idKey (map snd (JsMap.of_entries (keyed idKey data)))
  = map fst (JsMap.of_entries (keyed idKey data)).
Proof.
  assert (H : forall e, In e (JsMap.of_entries (keyed idKey data)) -> idKey (snd e) = fst e).
  { intros [k r] Hin. apply mapOf_in in Hin. simpl. tauto. }
  induction (JsMap.of_entries (keyed idKey data)) as [| e m IH]; simpl; [reflexivity |].
  rewrite H by (left; reflexivity). rewrite IH; [reflexivity |].
  intros e' Hin. apply H. now right.
Qed.

(* ====================================================================== *)
(** * Part III: the properties the specification states *)
(* ====================================================================== *)

(** C1.  For record sets [oldData] and [newData] (identity keys pairwise
    distinct within each), [detectChanges oldData newData] reports in [added]
    exactly the records of [newData] whose key does not occur in [oldData],
    in [removed] exactly the records of [oldData] whose key does not occur in
    [newData], and in [updated] exactly the entries [{key, old, new}] made of
    a record of [oldData] and a record of [newData] with that key, at least
    one compared field of which differs: the four prize fields for the
    lottery, [countryCode], [threeDigits], [twoDigits] for the stocks. *)
Theorem C1_detectChanges_contains_exactly :
  (forall oldData newData : list LotteryManager.LotteryRecord,
      NoDup (map LotteryManager.date oldData) ->
      NoDup (map LotteryManager.date newData) ->
      let changes := LotteryManager.detectChanges oldData newData in
      (forall r, In r (added changes) <->
                 In r newData /\
                 ~ In (LotteryManager.date r) (map LotteryManager.date oldData)) /\
      (forall r, In r (removed changes) <->
                 In r oldData /\
                 ~ In (LotteryManager.date r) (map LotteryManager.date newData)) /\
      (forall u, In u (updated changes) <->
                 In (old u) oldData /\ In (new u) newData /\
                 LotteryManager.date (old u) = key u /\
                 LotteryManager.date (new u) = key u /\
                 (LotteryManager.firstPrize (LotteryManager.prizes (old u))
                    <> LotteryManager.firstPrize (LotteryManager.prizes (new u)) \/
                  LotteryManager.three_front (LotteryManager.prizes (old u))
                    <> LotteryManager.three_front (LotteryManager.prizes (new u)) \/
                  LotteryManager.three_end (LotteryManager.prizes (old u))
                    <> LotteryManager.three_end (LotteryManager.prizes (new u)) \/
                  LotteryManager.two_end (LotteryManager.prizes (old u))
                    <> LotteryManager.two_end (LotteryManager.prizes (new u))))) /\
  (forall oldData newData : list StockDataManager.StockRecord,
      NoDup (map StockDataManager.stockName oldData) ->
      NoDup (map StockDataManager.stockName newData) ->
      let changes := StockDataManager.detectChanges oldData newData in
      (forall r, In r (added changes) <->
                 In r newData /\
                 ~ In (StockDataManager.stockName r)
                      (map StockDataManager.stockName oldData)) /\
      (forall r, In r (removed changes) <->
                 In r oldData /\
                 ~ In (StockDataManager.stockName r)
                      (map StockDataManager.stockName newData)) /\
      (forall u, In u (updated changes) <->
                 In (old u) oldData /\ In (new u) newData /\
                 StockDataManager.stockName (old u) = key u /\
                 StockDataManager.stockName (new u) = key u /\
                 (StockDataManager.countryCode (old u)
                    <> StockDataManager.countryCode (new u) \/
                  StockDataManager.threeDigits (old u)
                    <> StockDataManager.threeDigits (new u) \/
                  StockDataManager.twoDigits (old u)
                    <> StockDataManager.twoDigits (new u)))).
Proof.
  split; intros oldData newData Hold Hnew changes; subst changes;
    (split; [| split]); intros x.
  - apply added_iff. assumption.
  - apply removed_iff. assumption.
  - unfold LotteryManager.detectChanges. rewrite updated_iff by assumption.
    rewrite LotteryFacts.lottery_hasDataChanged_true_iff. tauto.
  - apply added_iff. assumption.
  - apply removed_iff. assumption.
  - unfold StockDataManager.detectChanges. rewrite updated_iff by assumption.
    rewrite StockFacts.stock_hasDataChanged_true_iff. tauto.
Qed.

Lemma C1_witness :
  NoDup (map LotteryManager.date [Samples.draw1]) /\
  NoDup (map LotteryManager.date [Samples.draw1_revised; Samples.draw2]) /\
  In Samples.draw2
     (added (LotteryManager.detectChanges [Samples.draw1]
                                          [Samples.draw1_revised; Samples.draw2])) /\
  In (mkUpdate "2025-07-01" Samples.draw1 Samples.draw1_revised)
     (updated (LotteryManager.detectChanges [Samples.draw1]
                                            [Samples.draw1_revised; Samples.draw2])).
Proof.
  assert (H1 : NoDup (map LotteryManager.date [Samples.draw1])).
  { simpl. constructor; [simpl; tauto | constructor]. }
  assert (H2 : NoDup (map LotteryManager.date [Samples.draw1_revised; Samples.draw2])).
  { simpl. constructor; [simpl; intros [H | []]; discriminate |].
    constructor; [simpl; tauto | constructor]. }
  split; [exact H1 |]. split; [exact H2 |].
  destruct (proj1 C1_detectChanges_contains_exactly
              [Samples.draw1] [Samples.draw1_revised; Samples.draw2] H1 H2)
    as (Hadded & _ & Hupdated).
  split.
  - apply Hadded. split; [simpl; auto |]. simpl. intros [H | []]. discriminate.
  - apply Hupdated. simpl. repeat split; auto. left. discriminate.
Defined.

(** C2, as stated, fails: [fetchLottoData] returns [null] at the first call
    without raising, yet [extractWithRetry] does not return [null] after
    that single call; it calls the fetcher a second time and returns the
    record that call produced. *)
Lemma C2_counterexample :
  fetcher (oracle Samples.null_then_draw) (fetches Samples.null_then_draw) = Returns None /\
  fst (LotteryManager.extractWithRetry Samples.null_then_draw)
    = Ok (Some [Samples.draw1]) /\
  fetches (snd (LotteryManager.extractWithRetry Samples.null_then_draw)) = 2 /\
  ~ (fst (LotteryManager.extractWithRetry Samples.null_then_draw) = Ok None /\
     fetches (snd (LotteryManager.extractWithRetry Samples.null_then_draw))
       = S (fetches Samples.null_then_draw)).
Proof.
  split; [reflexivity |]. split; [reflexivity |]. split; [reflexivity |].
  intros [H _]. vm_compute in H. discriminate.
Qed.

(** C2, amended.  In the lottery class a call of [fetchLottoData] that
    returns [null] without raising is not an error and is followed by no
    wait, but it does not end [extractWithRetry] unless it was the last of
    the [maxRetries] attempts: the loop goes on at once with the next
    attempt, from the world that call left.  [extractWithRetry] returns the
    record of the first attempt that gives one, as a one-element array,
    whether the attempts before it returned [null] or raised (a wait follows
    each one that raised, none follows a [null]).  When none of the
    [maxRetries] attempts gives a record the last attempt decides: if it
    raised, its error is raised; if it returned [null], [null] is returned.
    So [null] is returned exactly when no attempt gave a record and the last
    one returned [null], after exactly [maxRetries] calls; three [null]
    answers are one such case. *)
Theorem C2_null_fetch_goes_on_to_next_attempt :
  (forall (remaining attempt : nat) (w : LotteryManager.World),
      fetcher (oracle w) (fetches w) = Returns None ->
      exists w1,
        LotteryManager.retryLoop (S remaining) attempt w
          = LotteryManager.retryLoop remaining (S attempt) w1 /\
        fetches w1 = S (fetches w) /\
        oracle w1 = oracle w /\
        timing (trace w1) = timing (trace w) ++ [EvFetch]) /\
  (forall (w : LotteryManager.World) (k : nat) (record : LotteryManager.LotteryRecord),
      k < CONFIG.maxRetries ->
      Forall (fun a => is_record a = false) (answers_from w k) ->
      fetcher (oracle w) (fetches w + k) = Returns (Some record) ->
      fst (LotteryManager.extractWithRetry w) = Ok (Some [record]) /\
      fetches (snd (LotteryManager.extractWithRetry w)) = fetches w + S k /\
      timing (trace (snd (LotteryManager.extractWithRetry w)))
        = timing (trace w) ++ flat_map attempt_events (answers_from w k) ++ [EvFetch]) /\
  (forall w : LotteryManager.World,
      Forall (fun a => is_record a = false) (answers_from w CONFIG.maxRetries) ->
      fst (LotteryManager.extractWithRetry w)
        = match fetcher (oracle w) (fetches w + 2) with
          | Raises e => Throw e
          | Returns _ => Ok None
          end /\
      fetches (snd (LotteryManager.extractWithRetry w)) = fetches w + CONFIG.maxRetries /\
      timing (trace (snd (LotteryManager.extractWithRetry w)))
        = timing (trace w) ++ flat_map attempt_events (answers_from w 2) ++ [EvFetch]) /\
  (forall w : LotteryManager.World,
      fst (LotteryManager.extractWithRetry w) = Ok None <->
      Forall (fun a => is_record a = false) (answers_from w CONFIG.maxRetries) /\
      fetcher (oracle w) (fetches w + 2) = Returns None) /\
  (forall w : LotteryManager.World,
      (forall i, i < CONFIG.maxRetries ->
                 fetcher (oracle w) (fetches w + i) = Returns None) ->
      fst (LotteryManager.extractWithRetry w) = Ok None /\
      fetches (snd (LotteryManager.extractWithRetry w)) = fetches w + CONFIG.maxRetries /\
      timing (trace (snd (LotteryManager.extractWithRetry w)))
        = timing (trace w) ++ [EvFetch; EvFetch; EvFetch]).
Proof.
  assert (Hrecord :
    forall (w : LotteryManager.World) (k : nat) (record : LotteryManager.LotteryRecord),
      k < CONFIG.maxRetries ->
      Forall (fun a => is_record a = false) (answers_from w k) ->
      fetcher (oracle w) (fetches w + k) = Returns (Some record) ->
      fst (LotteryManager.extractWithRetry w) = Ok (Some [record]) /\
      fetches (snd (LotteryManager.extractWithRetry w)) = fetches w + S k /\
      timing (trace (snd (LotteryManager.extractWithRetry w)))
        = timing (trace w) ++ flat_map attempt_events (answers_from w k) ++ [EvFetch]).
  { intros w k record Hk Hall Hans.
    exact (LotteryRetryMore.lottery_retryLoop_record_after
             k CONFIG.maxRetries 1 w record Hk Hk Hall Hans). }
  assert (Hnone :
    forall w : LotteryManager.World,
      Forall (fun a => is_record a = false) (answers_from w CONFIG.maxRetries) ->
      fst (LotteryManager.extractWithRetry w)
        = match fetcher (oracle w) (fetches w + 2) with
          | Raises e => Throw e
          | Returns _ => Ok None
          end /\
      fetches (snd (LotteryManager.extractWithRetry w)) = fetches w + CONFIG.maxRetries /\
      timing (trace (snd (LotteryManager.extractWithRetry w)))
        = timing (trace w) ++ flat_map attempt_events (answers_from w 2) ++ [EvFetch]).
  { intros w Hall.
    exact (LotteryRetryMore.lottery_retryLoop_no_record 2 1 w eq_refl Hall). }
  split; [| split; [exact Hrecord | split; [exact Hnone | split]]].
  - intros remaining attempt w He.
    destruct (LotteryRetryFacts.lottery_iteration_null attempt w He) as (_ & Hf & Ho & Ht).
    eexists. split; [apply LotteryRetryFacts.lottery_retryLoop_null_continues; assumption |].
    auto.
  - intros w. split.
    + intros Hnull.
      destruct (LotteryRetryMore.lottery_first_record_or_none w CONFIG.maxRetries)
        as [Hall | (k & record & Hk & Hall & Hans)].
      * split; [exact Hall |].
        destruct (Hnone w Hall) as (Hres & _). rewrite Hnull in Hres.
        assert (Hlast : is_record (fetcher (oracle w) (fetches w + 2)) = false).
        { apply (proj1 (Forall_forall _ _) Hall).
          apply answers_from_in. unfold CONFIG.maxRetries. lia. }
        destruct (fetcher (oracle w) (fetches w + 2)) as [[record |] | e];
          [discriminate Hlast | reflexivity | discriminate Hres].
      * destruct (Hrecord w k record Hk Hall Hans) as (Hres & _).
        rewrite Hnull in Hres. discriminate Hres.
    + intros [Hall Hlast]. destruct (Hnone w Hall) as (Hres & _).
      rewrite Hlast in Hres. exact Hres.
  - intros w Hall. apply (LotteryRetryFacts.lottery_retryLoop_nulls CONFIG.maxRetries 1 w Hall).
Qed.

Lemma C2_witness :
  (2 < CONFIG.maxRetries /\
   Forall (fun a => is_record a = false) (answers_from Samples.null_error_then_draw 2) /\
   fst (LotteryManager.extractWithRetry Samples.null_error_then_draw)
     = Ok (Some [Samples.draw1]) /\
   fetches (snd (LotteryManager.extractWithRetry Samples.null_error_then_draw))
     = fetches Samples.null_error_then_draw + 3) /\
  (Forall (fun a => is_record a = false)
          (answers_from Samples.error_then_nulls CONFIG.maxRetries) /\
   fst (LotteryManager.extractWithRetry Samples.error_then_nulls) = Ok None) /\
  ((forall i, i < CONFIG.maxRetries ->
              fetcher (oracle Samples.always_null) (fetches Samples.always_null + i)
              = Returns None) /\
   fst (LotteryManager.extractWithRetry Samples.always_null) = Ok None).
Proof.
  destruct C2_null_fetch_goes_on_to_next_attempt as (_ & Hrecord & _ & Hnull & Hnulls).
  split; [| split].
  - assert (Hk : 2 < CONFIG.maxRetries) by (unfold CONFIG.maxRetries; lia).
    assert (Hall : Forall (fun a => is_record a = false)
                          (answers_from Samples.null_error_then_draw 2))
      by (repeat constructor).
    destruct (Hrecord Samples.null_error_then_draw 2 Samples.draw1 Hk Hall eq_refl)
      as (Hres & Hf & _).
    split; [exact Hk |]. split; [exact Hall |]. split; [exact Hres | exact Hf].
  - assert (Hall : Forall (fun a => is_record a = false)
                          (answers_from Samples.error_then_nulls CONFIG.maxRetries))
      by (repeat constructor).
    split; [exact Hall |].
    exact (proj2 (Hnull Samples.error_then_nulls) (conj Hall eq_refl)).
  - assert (H : forall i, i < CONFIG.maxRetries ->
                  fetcher (oracle Samples.always_null) (fetches Samples.always_null + i)
                  = Returns None) by (intros i _; reflexivity).
    split; [exact H |]. exact (proj1 (Hnulls Samples.always_null H)).
Defined.

(** C3.  A record set compared with itself, and more generally two record
    sets with the same identity keys whose records of equal key agree on
    every compared field (whatever their [lastUpdated]), make
    [detectChanges] report nothing added, updated or removed. *)
Theorem C3_detectChanges_ignores_lastUpdated :
  (forall data : list LotteryManager.LotteryRecord,
      LotteryManager.detectChanges data data = mkChanges [] [] []) /\
  (forall oldData newData : list LotteryManager.LotteryRecord,
      (forall k, In k (map LotteryManager.date oldData) <->
                 In k (map LotteryManager.date newData)) ->
      (forall oldItem newItem,
          In oldItem oldData -> In newItem newData ->
          LotteryManager.date oldItem = LotteryManager.date newItem ->
          LotteryManager.firstPrize (LotteryManager.prizes oldItem)
            = LotteryManager.firstPrize (LotteryManager.prizes newItem) /\
          LotteryManager.three_front (LotteryManager.prizes oldItem)
            = LotteryManager.three_front (LotteryManager.prizes newItem) /\
          LotteryManager.three_end (LotteryManager.prizes oldItem)
            = LotteryManager.three_end (LotteryManager.prizes newItem) /\
          LotteryManager.two_end (LotteryManager.prizes oldItem)
            = LotteryManager.two_end (LotteryManager.prizes newItem)) ->
      LotteryManager.detectChanges oldData newData = mkChanges [] [] []) /\
  (forall data : list StockDataManager.StockRecord,
      StockDataManager.detectChanges data data = mkChanges [] [] []) /\
  (forall oldData newData : list StockDataManager.StockRecord,
      (forall k, In k (map StockDataManager.stockName oldData) <->
                 In k (map StockDataManager.stockName newData)) ->
      (forall oldItem newItem,
          In oldItem oldData -> In newItem newData ->
          StockDataManager.stockName oldItem = StockDataManager.stockName newItem ->
          StockDataManager.countryCode oldItem = StockDataManager.countryCode newItem /\
          StockDataManager.threeDigits oldItem = StockDataManager.threeDigits newItem /\
          StockDataManager.twoDigits oldItem = StockDataManager.twoDigits newItem) ->
      StockDataManager.detectChanges oldData newData = mkChanges [] [] []).
Proof.
  repeat split.
  - intros data. apply detectChanges_same. apply LotteryFacts.lottery_hasDataChanged_same.
  - intros oldData newData Hkeys Hsame. apply detectChanges_agree; [assumption |].
    intros oldItem newItem Ho Hn Hk. apply LotteryFacts.lottery_hasDataChanged_false_iff. auto.
  - intros data. apply detectChanges_same. apply StockFacts.stock_hasDataChanged_same.
  - intros oldData newData Hkeys Hsame. apply detectChanges_agree; [assumption |].
    intros oldItem newItem Ho Hn Hk. apply StockFacts.stock_hasDataChanged_false_iff. auto.
Qed.

Lemma C3_witness :
  Samples.draw1 <> Samples.draw1_again /\
  LotteryManager.detectChanges [Samples.draw1] [Samples.draw1_again] = mkChanges [] [] [].
Proof.
  split; [discriminate |].
  apply (proj1 (proj2 C3_detectChanges_ignores_lastUpdated)
               [Samples.draw1] [Samples.draw1_again]).
  - intros k. simpl. tauto.
  - intros oldItem newItem [<- | []] [<- | []] _. simpl. auto.
Defined.

(** C4.  Of two calls of [processNewData] in a row with the same new record
    set (empty or not), the second returns an empty ChangeSet and leaves the
    manager's fields ([currentData] among them) and the data file as the
    first call left them, without another [writeFile]. *)
Theorem C4_processNewData_twice :
  (forall (newData : option (list LotteryManager.LotteryRecord))
          (w : LotteryManager.World),
      let w1 := snd (LotteryManager.processNewData newData w) in
      let w2 := snd (LotteryManager.processNewData newData w1) in
      fst (LotteryManager.processNewData newData w1) = Ok (mkChanges [] [] []) /\
      this w2 = this w1 /\ dataFile w2 = dataFile w1 /\ writes w2 = writes w1) /\
  (forall (newData : list StockDataManager.StockRecord) (w : StockDataManager.World),
      let w1 := snd (StockDataManager.processNewData (Some newData) w) in
      let w2 := snd (StockDataManager.processNewData (Some newData) w1) in
      fst (StockDataManager.processNewData (Some newData) w1) = Ok (mkChanges [] [] []) /\
      this w2 = this w1 /\ dataFile w2 = dataFile w1 /\ writes w2 = writes w1).
Proof.
  split.
  - intros newData w w1 w2.
    destruct (LotteryCycleFacts.lottery_processNewData_again newData w) as [Hr Hh].
    fold w1 in Hr, Hh. fold w2 in Hh. unfold holdings in Hh. injection Hh as H1 H2 H3.
    auto.
  - intros newData w w1 w2.
    destruct (StockCycleFacts.stock_processNewData_again newData w) as [Hr Hh].
    fold w1 in Hr, Hh. fold w2 in Hh. unfold holdings in Hh. injection Hh as H1 H2 H3.
    auto.
Qed.

(** C5.  [processNewData] returns the ChangeSet [detectChanges] computes
    from [currentData] and the new data (the lottery class: an empty one,
    without computing, for [null] and for the empty array).  It replaces
    [currentData] by the new data and calls [saveData] (one [writeFile]) if
    and only if that ChangeSet has an entry; otherwise the manager's fields
    and the data file stay as they were.  A cycle whose extraction returns
    records does the same with the fetched records and the snapshot the cycle
    found.  A cycle whose extraction gives nothing (lottery: no attempt gives
    a record; both classes: every attempt raises) returns normally and leaves
    the manager's fields, [isRunning] among them, and the data file
    untouched, and the timer's callback goes on to arm the next timer. *)
Theorem C5_snapshot_replaced_iff_changes :
  (forall (newData : list LotteryManager.LotteryRecord) (w : LotteryManager.World),
      newData <> [] ->
      let changes := LotteryManager.detectChanges (currentData (this w)) newData in
      let w' := snd (LotteryManager.processNewData (Some newData) w) in
      exists lastUpdated,
        fst (LotteryManager.processNewData (Some newData) w) = Ok changes /\
        (0 < totalChanges changes <-> writes w' = S (writes w)) /\
        (0 < totalChanges changes ->
         this w' = mkManager newData (isRunning (this w)) (timeoutId (this w)) /\
         dataFile w'
           = match writeOutcome (oracle w) (writes w) with
             | None => Holds (Json (wrapped lastUpdated (Z.of_nat (length newData))
                                            (VArr (map LotteryManager.encode newData))))
             | Some (_, residue) => residue
             end) /\
        (totalChanges changes = 0 ->
         this w' = this w /\ writes w' = writes w /\ dataFile w' = dataFile w)) /\
  (forall (newData : option (list LotteryManager.LotteryRecord))
          (w : LotteryManager.World),
      newData = None \/ newData = Some [] ->
      let w' := snd (LotteryManager.processNewData newData w) in
      fst (LotteryManager.processNewData newData w) = Ok (mkChanges [] [] []) /\
      this w' = this w /\ writes w' = writes w /\ dataFile w' = dataFile w) /\
  (forall (newData : list StockDataManager.StockRecord) (w : StockDataManager.World),
      let changes := StockDataManager.detectChanges (currentData (this w)) newData in
      let w' := snd (StockDataManager.processNewData (Some newData) w) in
      exists lastUpdated,
        fst (StockDataManager.processNewData (Some newData) w) = Ok changes /\
        (0 < totalChanges changes <-> writes w' = S (writes w)) /\
        (0 < totalChanges changes ->
         this w' = mkManager newData (isRunning (this w)) (timeoutId (this w)) /\
         dataFile w'
           = match writeOutcome (oracle w) (writes w) with
             | None => Holds (Json (wrapped lastUpdated (Z.of_nat (length newData))
                                            (VArr (map StockDataManager.encode newData))))
             | Some (_, residue) => residue
             end) /\
        (totalChanges changes = 0 ->
         this w' = this w /\ writes w' = writes w /\ dataFile w' = dataFile w)) /\
  (forall (w : LotteryManager.World) (k : nat) (record : LotteryManager.LotteryRecord),
      k < CONFIG.maxRetries ->
      Forall (fun a => is_record a = false) (answers_from w k) ->
      fetcher (oracle w) (fetches w + k) = Returns (Some record) ->
      let changes := LotteryManager.detectChanges (currentData (this w)) [record] in
      let w' := snd (LotteryManager.runScrapingCycle w) in
      exists lastUpdated,
        fst (LotteryManager.runScrapingCycle w) = Ok tt /\
        (0 < totalChanges changes <-> writes w' = S (writes w)) /\
        (0 < totalChanges changes ->
         this w' = mkManager [record] (isRunning (this w)) (timeoutId (this w)) /\
         dataFile w'
           = match writeOutcome (oracle w) (writes w) with
             | None => Holds (Json (wrapped lastUpdated (Z.of_nat (length [record]))
                                            (VArr (map LotteryManager.encode [record]))))
             | Some (_, residue) => residue
             end) /\
        (totalChanges changes = 0 ->
         this w' = this w /\ writes w' = writes w /\ dataFile w' = dataFile w)) /\
  (forall w : LotteryManager.World,
      Forall (fun a => is_record a = false) (answers_from w CONFIG.maxRetries) ->
      let w' := snd (LotteryManager.runScrapingCycle w) in
      fst (LotteryManager.runScrapingCycle w) = Ok tt /\
      this w' = this w /\ dataFile w' = dataFile w /\ writes w' = writes w) /\
  (forall (w : StockDataManager.World) (k : nat)
          (results : list StockDataManager.StockRecord),
      k < CONFIG.maxRetries ->
      (forall i, i < k -> exists e, fetcher (oracle w) (fetches w + i) = Raises e) ->
      fetcher (oracle w) (fetches w + k) = Returns results ->
      let changes := StockDataManager.detectChanges (currentData (this w)) results in
      let w' := snd (StockDataManager.runScrapingCycle w) in
      exists lastUpdated,
        fst (StockDataManager.runScrapingCycle w) = Ok tt /\
        (0 < totalChanges changes <-> writes w' = S (writes w)) /\
        (0 < totalChanges changes ->
         this w' = mkManager results (isRunning (this w)) (timeoutId (this w)) /\
         dataFile w'
           = match writeOutcome (oracle w) (writes w) with
             | None => Holds (Json (wrapped lastUpdated (Z.of_nat (length results))
                                            (VArr (map StockDataManager.encode results))))
             | Some (_, residue) => residue
             end) /\
        (totalChanges changes = 0 ->
         this w' = this w /\ writes w' = writes w /\ dataFile w' = dataFile w)) /\
  (forall w : LotteryManager.World,
      (forall i, i < CONFIG.maxRetries ->
                 exists e, fetcher (oracle w) (fetches w + i) = Raises e) ->
      let w' := snd (LotteryManager.runScrapingCycle w) in
      fst (LotteryManager.runScrapingCycle w) = Ok tt /\
      this w' = this w /\ dataFile w' = dataFile w /\ writes w' = writes w /\
      timers w' = timers w) /\
  (forall w : StockDataManager.World,
      (forall i, i < CONFIG.maxRetries ->
                 exists e, fetcher (oracle w) (fetches w + i) = Raises e) ->
      let w' := snd (StockDataManager.runScrapingCycle w) in
      fst (StockDataManager.runScrapingCycle w) = Ok tt /\
      this w' = this w /\ dataFile w' = dataFile w /\ writes w' = writes w /\
      timers w' = timers w) /\
  (forall w : LotteryManager.World,
      isRunning (this w) = true ->
      (forall i, i < CONFIG.maxRetries ->
                 exists e, fetcher (oracle w) (fetches w + i) = Raises e) ->
      let w' := snd (LotteryManager.onTimeout w) in
      fst (LotteryManager.onTimeout w) = Ok tt /\
      currentData (this w') = currentData (this w) /\
      isRunning (this w') = true /\
      timeoutId (this w') = Some (timersMade w) /\
      exists interval,
        (CONFIG.minInterval <= interval <= CONFIG.maxInterval)%Z /\
        timers w' = timers w ++ [(timersMade w, interval)]).
Proof.
  repeat match goal with |- _ /\ _ => split end.
  - intros newData w Hne changes w'.
    destruct (LotteryFacts.lottery_processNewData_run newData w Hne)
      as (ts & Hr & Ht & Hw & Hf).
    cbv zeta in Hr, Ht, Hw, Hf. fold changes in Hr, Ht, Hw, Hf. fold w' in Ht, Hw, Hf.
    exists ts. split; [exact Hr |].
    exact (replaced_iff_changes changes _ _ _ _ _ _ _ _ Ht Hw Hf).
  - intros newData w Hg w'.
    destruct (LotteryCycleFacts.lottery_processNewData_guarded_run newData w Hg)
      as [Hr Hh].
    fold w' in Hh. apply holdings_eq in Hh. destruct Hh as (H1 & H2 & H3). auto.
  - intros newData w changes w'.
    destruct (StockFacts.stock_processNewData_run newData w) as (ts & Hr & Ht & Hw & Hf).
    cbv zeta in Hr, Ht, Hw, Hf. fold changes in Hr, Ht, Hw, Hf. fold w' in Ht, Hw, Hf.
    exists ts. split; [exact Hr |].
    exact (replaced_iff_changes changes _ _ _ _ _ _ _ _ Ht Hw Hf).
  - intros w k record Hk Hall Hans changes w'.
    destruct (LotteryCycleFacts.lottery_runScrapingCycle_record w k record Hk Hall Hans)
      as (ts & Hok & Ht & Hw & Hf).
    cbv zeta in Ht, Hw, Hf. fold changes in Ht, Hw, Hf. fold w' in Ht, Hw, Hf.
    exists ts. split; [exact Hok |].
    exact (replaced_iff_changes changes _ _ _ _ _ _ _ _ Ht Hw Hf).
  - intros w Hall w'.
    destruct (LotteryCycleFacts.lottery_runScrapingCycle_no_record w Hall) as [Hok Hh].
    fold w' in Hh. apply holdings_eq in Hh. destruct Hh as (H1 & H2 & H3). auto.
  - intros w k results Hk Hall Hans changes w'.
    destruct (StockCycleFacts.stock_runScrapingCycle_results w k results Hk Hall Hans)
      as (ts & Hok & Ht & Hw & Hf).
    cbv zeta in Ht, Hw, Hf. fold changes in Ht, Hw, Hf. fold w' in Ht, Hw, Hf.
    exists ts. split; [exact Hok |].
    exact (replaced_iff_changes changes _ _ _ _ _ _ _ _ Ht Hw Hf).
  - intros w Hall w'.
    destruct (LotteryCycleFacts.lottery_runScrapingCycle_fetch_fails w Hall)
      as (Hok & Hh & Hs & _).
    fold w' in Hh, Hs. unfold holdings in Hh. unfold schedule in Hs.
    injection Hh as H1 H2 H3. injection Hs as _ _ H4 _. auto.
  - intros w Hall w'.
    destruct (StockCycleFacts.stock_runScrapingCycle_fetch_fails w Hall)
      as (Hok & Hh & Hs & _).
    fold w' in Hh, Hs. unfold holdings in Hh. unfold schedule in Hs.
    injection Hh as H1 H2 H3. injection Hs as _ _ H4 _. auto.
  - intros w Hrun Hall w'. apply lottery_onTimeout_fetch_fails; assumption.
Qed.

Lemma C5_witness :
  (1 < CONFIG.maxRetries /\
   Forall (fun a => is_record a = false) (answers_from Samples.lottery_new_draw 1) /\
   0 < totalChanges (LotteryManager.detectChanges
                       (currentData (this Samples.lottery_new_draw)) [Samples.draw2]) /\
   this (snd (LotteryManager.runScrapingCycle Samples.lottery_new_draw))
     = mkManager [Samples.draw2] true None /\
   writes (snd (LotteryManager.runScrapingCycle Samples.lottery_new_draw)) = 1) /\
  ((forall i, i < CONFIG.maxRetries ->
      exists e, fetcher (oracle Samples.lottery_always_failing)
                        (fetches Samples.lottery_always_failing + i) = Raises e) /\
   fst (LotteryManager.runScrapingCycle Samples.lottery_always_failing) = Ok tt /\
   this (snd (LotteryManager.runScrapingCycle Samples.lottery_always_failing))
     = mkManager [Samples.draw1] true None).
Proof.
  destruct C5_snapshot_replaced_iff_changes
    as (_ & _ & _ & Hrecord & _ & _ & Hfails & _).
  split.
  - assert (Hk : 1 < CONFIG.maxRetries) by (unfold CONFIG.maxRetries; lia).
    assert (Hall : Forall (fun a => is_record a = false)
                          (answers_from Samples.lottery_new_draw 1))
      by (repeat constructor).
    assert (Hpos : 0 < totalChanges (LotteryManager.detectChanges
                         (currentData (this Samples.lottery_new_draw)) [Samples.draw2]))
      by (vm_compute; lia).
    destruct (Hrecord Samples.lottery_new_draw 1 Samples.draw2 Hk Hall eq_refl)
      as (ts & _ & Hiff & Hreplaced & _).
    split; [exact Hk |]. split; [exact Hall |]. split; [exact Hpos |].
    split; [exact (proj1 (Hreplaced Hpos)) | exact (proj1 Hiff Hpos)].
  - assert (H : forall i, i < CONFIG.maxRetries ->
       exists e, fetcher (oracle Samples.lottery_always_failing)
                         (fetches Samples.lottery_always_failing + i) = Raises e)
      by (intros i _; exists Samples.boom; reflexivity).
    split; [exact H |].
    destruct (Hfails Samples.lottery_always_failing H) as (Hok & Hthis & _).
    split; [exact Hok | exact Hthis].
Defined.

(** C6.  When every call of the fetch operation raises, [extractWithRetry]
    calls it exactly [maxRetries] = 3 times, waits [retryDelay] = 5000 ms
    after the first and after the second call and not after the third, and
    raises the error of the third call. *)
Theorem C6_retry_bound :
  CONFIG.maxRetries = 3 /\ CONFIG.retryDelay = 5000%Z /\
  (forall w : LotteryManager.World,
      (forall n, exists e, fetcher (oracle w) n = Raises e) ->
      exists e,
        fetcher (oracle w) (fetches w + 2) = Raises e /\
        fst (LotteryManager.extractWithRetry w) = Throw e /\
        fetches (snd (LotteryManager.extractWithRetry w)) = fetches w + CONFIG.maxRetries /\
        timing (trace (snd (LotteryManager.extractWithRetry w)))
          = timing (trace w) ++
            [EvFetch; EvSleep CONFIG.retryDelay; EvFetch; EvSleep CONFIG.retryDelay; EvFetch]) /\
  (forall w : StockDataManager.World,
      (forall n, exists e, fetcher (oracle w) n = Raises e) ->
      exists e,
        fetcher (oracle w) (fetches w + 2) = Raises e /\
        fst (StockDataManager.extractWithRetry w) = Throw e /\
        fetches (snd (StockDataManager.extractWithRetry w)) = fetches w + CONFIG.maxRetries /\
        timing (trace (snd (StockDataManager.extractWithRetry w)))
          = timing (trace w) ++
            [EvFetch; EvSleep CONFIG.retryDelay; EvFetch; EvSleep CONFIG.retryDelay; EvFetch]).
Proof.
  split; [reflexivity |]. split; [reflexivity |]. split.
  - intros w Hall.
    apply (LotteryRetryFacts.lottery_retryLoop_raises 2 1 w eq_refl). intros i _. apply Hall.
  - intros w Hall.
    apply (StockFacts.stock_retryLoop_raises 2 1 w eq_refl). intros i _. apply Hall.
Qed.

Lemma C6_witness :
  (forall n, exists e, fetcher (oracle Samples.stock_always_failing) n = Raises e) /\
  fst (StockDataManager.extractWithRetry Samples.stock_always_failing) = Throw Samples.boom /\
  fetches (snd (StockDataManager.extractWithRetry Samples.stock_always_failing)) = 3.
Proof.
  assert (H : forall n, exists e,
                fetcher (oracle Samples.stock_always_failing) n = Raises e)
    by (intros n; exists Samples.boom; reflexivity).
  split; [exact H |].
  destruct (proj2 (proj2 (proj2 C6_retry_bound)) Samples.stock_always_failing H)
    as (e & He & Hr & Hf & _).
  split; [| exact Hf]. rewrite Hr. f_equal. simpl in He. congruence.
Defined.

(** C7.  When the write of [saveData records] succeeds, a following
    [loadExistingData] returns normally with [currentData] equal to
    [records]; the [lastUpdated] and [recordCount] that [saveData] wraps
    around the array play no part. *)
Theorem C7_save_then_load :
  (forall (w : LotteryManager.World) (records : list LotteryManager.LotteryRecord),
      writeOutcome (oracle w) (writes w) = None ->
      let saved := snd (LotteryManager.saveData records w) in
      fst (LotteryManager.loadExistingData saved) = Ok tt /\
      currentData (this (snd (LotteryManager.loadExistingData saved))) = records) /\
  (forall (w : StockDataManager.World) (records : list StockDataManager.StockRecord),
      writeOutcome (oracle w) (writes w) = None ->
      let saved := snd (StockDataManager.saveData records w) in
      fst (StockDataManager.loadExistingData saved) = Ok tt /\
      currentData (this (snd (StockDataManager.loadExistingData saved))) = records).
Proof.
  split; intros w records Hwrite saved.
  - destruct (save_then_load LotteryManager.encode LotteryManager.decode
                LotteryFacts.lottery_decode_encode w records Hwrite) as [H1 H2].
    subst saved. unfold LotteryManager.loadExistingData, LotteryManager.saveData.
    split; [exact H1 | now rewrite H2].
  - destruct (save_then_load StockDataManager.encode StockDataManager.decode
                StockFacts.stock_decode_encode w records Hwrite) as [H1 H2].
    subst saved. unfold StockDataManager.loadExistingData, StockDataManager.saveData.
    split; [exact H1 | now rewrite H2].
Qed.

Lemma C7_witness :
  writeOutcome (oracle Samples.stock_listed) (writes Samples.stock_listed) = None /\
  currentData
    (this (snd (StockDataManager.loadExistingData
                  (snd (StockDataManager.saveData [Samples.dowjones; Samples.nikkei_revised]
                                                  Samples.stock_listed)))))
  = [Samples.dowjones; Samples.nikkei_revised].
Proof.
  split; [reflexivity |].
  apply (proj2 C7_save_then_load Samples.stock_listed
               [Samples.dowjones; Samples.nikkei_revised] eq_refl).
Defined.

(** C8.  [loadExistingData] on a file holding a bare array ends as it does
    on a file holding the wrapped object whose [data] is that array: same
    outcome, same fields of the manager, same log lines; for an array of
    records it returns normally with [currentData] equal to the records. *)
Theorem C8_bare_array_loads_like_wrapped :
  (forall (w : LotteryManager.World) (items : list Value)
          (lastUpdated : string) (recordCount : Z),
      let bare := set_dataFile (Holds (Json (VArr items))) w in
      let wrap :=
        set_dataFile (Holds (Json (wrapped lastUpdated recordCount (VArr items)))) w in
      fst (LotteryManager.loadExistingData bare) = fst (LotteryManager.loadExistingData wrap) /\
      this (snd (LotteryManager.loadExistingData bare))
        = this (snd (LotteryManager.loadExistingData wrap)) /\
      trace (snd (LotteryManager.loadExistingData bare))
        = trace (snd (LotteryManager.loadExistingData wrap))) /\
  (forall (w : LotteryManager.World) (records : list LotteryManager.LotteryRecord),
      let bare := set_dataFile (Holds (Json (VArr (map LotteryManager.encode records)))) w in
      fst (LotteryManager.loadExistingData bare) = Ok tt /\
      currentData (this (snd (LotteryManager.loadExistingData bare))) = records) /\
  (forall (w : StockDataManager.World) (items : list Value)
          (lastUpdated : string) (recordCount : Z),
      let bare := set_dataFile (Holds (Json (VArr items))) w in
      let wrap :=
        set_dataFile (Holds (Json (wrapped lastUpdated recordCount (VArr items)))) w in
      fst (StockDataManager.loadExistingData bare)
        = fst (StockDataManager.loadExistingData wrap) /\
      this (snd (StockDataManager.loadExistingData bare))
        = this (snd (StockDataManager.loadExistingData wrap)) /\
      trace (snd (StockDataManager.loadExistingData bare))
        = trace (snd (StockDataManager.loadExistingData wrap))) /\
  (forall (w : StockDataManager.World) (records : list StockDataManager.StockRecord),
      let bare := set_dataFile (Holds (Json (VArr (map StockDataManager.encode records)))) w in
      fst (StockDataManager.loadExistingData bare) = Ok tt /\
      currentData (this (snd (StockDataManager.loadExistingData bare))) = records).
Proof.
  split; [| split; [| split]].
  - intros w items lastUpdated recordCount.
    apply (load_bare_like_wrapped LotteryManager.decode).
  - intros w records bare.
    destruct (load_bare_records LotteryManager.encode LotteryManager.decode
                LotteryFacts.lottery_decode_encode w records) as [H1 H2].
    subst bare. unfold LotteryManager.loadExistingData.
    split; [exact H1 | now rewrite H2].
  - intros w items lastUpdated recordCount.
    apply (load_bare_like_wrapped StockDataManager.decode).
  - intros w records bare.
    destruct (load_bare_records StockDataManager.encode StockDataManager.decode
                StockFacts.stock_decode_encode w records) as [H1 H2].
    subst bare. unfold StockDataManager.loadExistingData.
    split; [exact H1 | now rewrite H2].
Qed.

(** C9.  The scheduler is a machine with the two states Stopped and Running
    ([isRunning]).  [start] ends Running and [stop] ends Stopped; no other
    method, nor the expiry of a timer, changes [isRunning].  [start] when
    Running and [stop] when Stopped do nothing but log a line.  [stop] when
    Running clears the timer [timeoutId] remembers, sets [timeoutId] to
    [null] and logs; along the calls that reach a manager from outside,
    every pending timer is the one [timeoutId] remembers, so that after
    [stop] no timer is pending. *)
Theorem C9_scheduler_two_states :
  (forall (c : Call LotteryManager.LotteryRecord) (w : LotteryManager.World),
      isRunning (this (lottery_call c w)) = next_running c (isRunning (this w))) /\
  (forall w : LotteryManager.World,
      isRunning (this w) = true ->
      LotteryManager.start w = log MsgAlreadyRunning w) /\
  (forall w : LotteryManager.World,
      isRunning (this w) = false ->
      LotteryManager.stop w = log MsgNotRunning w) /\
  (forall w : LotteryManager.World,
      isRunning (this w) = true ->
      fst (LotteryManager.stop w) = Ok tt /\
      this (snd (LotteryManager.stop w)) = mkManager (currentData (this w)) false None /\
      timers (snd (LotteryManager.stop w))
        = match timeoutId (this w) with
          | Some id => filter (fun t => negb (Nat.eqb (fst t) id)) (timers w)
          | None => timers w
          end /\
      trace (snd (LotteryManager.stop w))
        = trace w ++
          match timeoutId (this w) with
          | Some id => [EvClearTimeout id]
          | None => []
          end ++
          [EvLog (clock (oracle w) (clockReads w)) MsgStopped]) /\
  (forall (c : Call LotteryManager.LotteryRecord) (w : LotteryManager.World),
      from_outside c = true -> timers_tracked w -> timers_tracked (lottery_call c w)) /\
  (forall w : LotteryManager.World,
      timers_tracked w -> timers (snd (LotteryManager.stop w)) = []) /\
  (forall (c : Call StockDataManager.StockRecord) (w : StockDataManager.World),
      isRunning (this (stock_call c w)) = next_running c (isRunning (this w))) /\
  (forall w : StockDataManager.World,
      isRunning (this w) = true ->
      StockDataManager.start w = log MsgAlreadyRunning w) /\
  (forall w : StockDataManager.World,
      isRunning (this w) = false ->
      StockDataManager.stop w = log MsgNotRunning w) /\
  (forall (c : Call StockDataManager.StockRecord) (w : StockDataManager.World),
      from_outside c = true -> timers_tracked w -> timers_tracked (stock_call c w)) /\
  (forall w : StockDataManager.World,
      timers_tracked w -> timers (snd (StockDataManager.stop w)) = []).
Proof.
  repeat match goal with |- _ /\ _ => split end.
  - apply LotterySchedule.lottery_call_isRunning.
  - intros w H. now apply start_running.
  - intros w H. now apply stop_stopped.
  - intros w H. destruct (stop_running w H) as (H1 & H2 & H3 & _).
    split; [exact H1 |]. split; [exact H2 |]. split; [exact H3 |].
    now apply stop_running_trace.
  - apply LotterySchedule.lottery_call_tracked.
  - intros w H. now apply stop_tracked.
  - apply StockSchedule.stock_call_isRunning.
  - intros w H. now apply start_running.
  - intros w H. now apply stop_stopped.
  - apply StockSchedule.stock_call_tracked.
  - intros w H. now apply stop_tracked.
Qed.

Lemma C9_witness :
  isRunning (this Samples.lottery_fresh) = false /\
  timers_tracked Samples.lottery_fresh /\
  LotteryManager.stop Samples.lottery_fresh = log MsgNotRunning Samples.lottery_fresh /\
  isRunning (this (lottery_call CallStart Samples.lottery_fresh)) = true /\
  timers_tracked (lottery_call CallStart Samples.lottery_fresh) /\
  timers (snd (LotteryManager.stop (lottery_call CallStart Samples.lottery_fresh))) = [].
Proof.
  assert (Hstopped : isRunning (this Samples.lottery_fresh) = false) by reflexivity.
  assert (Ht : timers_tracked Samples.lottery_fresh) by (apply tracked_initial; reflexivity).
  destruct C9_scheduler_two_states as (Hstate & _ & Hnoop & _ & Htracked & Hclear & _).
  split; [exact Hstopped |]. split; [exact Ht |].
  split; [exact (Hnoop Samples.lottery_fresh Hstopped) |].
  split; [exact (eq_trans (Hstate CallStart Samples.lottery_fresh) eq_refl) |].
  split; [exact (Htracked CallStart Samples.lottery_fresh eq_refl Ht) |].
  exact (Hclear (lottery_call CallStart Samples.lottery_fresh)
                (Htracked CallStart Samples.lottery_fresh eq_refl Ht)).
Defined.

(** C10.  In the stock class an empty fetch result against a non-empty
    snapshot is processed like any other: [extractWithRetry] returns the
    empty array of the first attempt, and [processNewData] reports every
    entry of the snapshot as removed (every identity key of the snapshot;
    every record when the keys are pairwise distinct), adds and updates
    nothing, sets [currentData] to the empty array and calls [saveData] with
    it.  In the lottery class [processNewData] returns an empty ChangeSet for
    [null] and for the empty array and leaves the manager's fields and the
    data file as they were. *)
Theorem C10_empty_fetch :
  (forall w : StockDataManager.World,
      fetcher (oracle w) (fetches w) = Returns [] ->
      fst (StockDataManager.extractWithRetry w) = Ok (Some []) /\
      fetches (snd (StockDataManager.extractWithRetry w)) = S (fetches w) /\
      this (snd (StockDataManager.extractWithRetry w)) = this w) /\
  (forall w : StockDataManager.World,
      currentData (this w) <> [] ->
      let w' := snd (StockDataManager.processNewData (Some []) w) in
      exists changes lastUpdated,
        fst (StockDataManager.processNewData (Some []) w) = Ok changes /\
        added changes = [] /\ updated changes = [] /\ removed changes <> [] /\
        (forall r, In r (currentData (this w)) ->
                   In (StockDataManager.stockName r)
                      (map StockDataManager.stockName (removed changes))) /\
        (forall r, In r (removed changes) -> In r (currentData (this w))) /\
        (NoDup (map StockDataManager.stockName (currentData (this w))) ->
         removed changes = currentData (this w)) /\
        currentData (this w') = [] /\
        writes w' = S (writes w) /\
        dataFile w'
          = match writeOutcome (oracle w) (writes w) with
            | None => Holds (Json (wrapped lastUpdated 0 (VArr [])))
            | Some (_, residue) => residue
            end) /\
  (forall (newData : option (list LotteryManager.LotteryRecord))
          (w : LotteryManager.World),
      newData = None \/ newData = Some [] ->
      let w' := snd (LotteryManager.processNewData newData w) in
      fst (LotteryManager.processNewData newData w) = Ok (mkChanges [] [] []) /\
      this w' = this w /\ dataFile w' = dataFile w /\ writes w' = writes w).
Proof.
  split; [| split].
  - intros w He.
    destruct (StockFacts.stock_retryLoop_results_returns 2 1 w [] He)
      as (H1 & H2 & H3 & _).
    auto.
  - intros w Hne w'.
    destruct (StockFacts.stock_processNewData_run [] w) as (ts & Hr & Ht & Hw & Hf).
    cbv zeta in Hr, Ht, Hw, Hf. fold w' in Ht, Hw, Hf.
    unfold StockDataManager.detectChanges in Hr, Ht, Hw, Hf.
    rewrite detectChanges_new_empty in Hr, Ht, Hw, Hf.
    set (gone := map snd (JsMap.of_entries
                            (keyed StockDataManager.stockName (currentData (this w))))) in *.
    assert (Hkeys : forall k, In k (map StockDataManager.stockName gone) <->
                              In k (map StockDataManager.stockName (currentData (this w)))).
    { intros k. unfold gone. rewrite keys_of_values. apply mapOf_keys. }
    assert (Hgone : gone <> []).
    { destruct (currentData (this w)) as [| r rest] eqn:Hcd; [congruence |].
      intros Hnil. assert (Hin : In (StockDataManager.stockName r)
                                    (map StockDataManager.stockName gone)).
      { apply Hkeys. simpl. auto. }
      rewrite Hnil in Hin. destruct Hin. }
    assert (Hpos : (0 <? totalChanges (@mkChanges StockDataManager.StockRecord [] [] gone))%nat
                   = true).
    { apply Nat.ltb_lt. unfold totalChanges. simpl. destruct gone; [congruence | simpl; lia]. }
    rewrite Hpos in Ht, Hw, Hf.
    exists (mkChanges [] [] gone), ts. simpl.
    split; [assumption |]. split; [reflexivity |]. split; [reflexivity |].
    split; [assumption |]. split.
    { intros r Hin. apply Hkeys. now apply in_map. }
    split.
    { intros r Hin. unfold gone in Hin. apply in_map_iff in Hin.
      destruct Hin as [[k r'] [Heq Hin]]. simpl in Heq. subst r'.
      apply mapOf_in in Hin. tauto. }
    split.
    { intros Hnd. unfold gone. rewrite mapOf_unique by assumption.
      unfold keyed. rewrite map_map. simpl. apply map_id. }
    rewrite Ht, Hw, Hf. auto.
  - intros newData w Hg w'.
    destruct (LotteryCycleFacts.lottery_processNewData_guarded_run newData w Hg) as [Hr Hh].
    fold w' in Hh. unfold holdings in Hh. injection Hh as H1 H2 H3. auto.
Qed.

Lemma C10_witness :
  currentData (this Samples.stock_listed) <> [] /\
  fetcher (oracle Samples.stock_listed) (fetches Samples.stock_listed) = Returns [] /\
  fst (StockDataManager.extractWithRetry Samples.stock_listed) = Ok (Some []) /\
  fst (StockDataManager.processNewData (Some []) Samples.stock_listed)
    = Ok (mkChanges [] [] [Samples.nikkei; Samples.dowjones]) /\
  currentData (this (snd (StockDataManager.processNewData (Some []) Samples.stock_listed)))
    = [] /\
  dataFile (snd (StockDataManager.processNewData (Some []) Samples.stock_listed))
    = Holds (Json (wrapped "2025-07-01T09:30:00.000Z" 0 (VArr []))).
Proof.
  assert (Hne : currentData (this Samples.stock_listed) <> []) by discriminate.
  assert (He : fetcher (oracle Samples.stock_listed) (fetches Samples.stock_listed)
               = Returns []) by reflexivity.
  split; [exact Hne |]. split; [exact He |].
  split; [exact (proj1 (proj1 C10_empty_fetch Samples.stock_listed He)) |].
  destruct (proj1 (proj2 C10_empty_fetch) Samples.stock_listed Hne)
    as (changes & ts & Hr & _ & _ & _ & _ & _ & _ & Hcd & _).
  split; [vm_compute; reflexivity |]. split; [exact Hcd | vm_compute; reflexivity].
Defined.

(** ** Boundary cases *)

(** Two fetched records with one identity key: the Map keeps the place of
    the first and the value of the last, and only that record is reported. *)
Example detectChanges_duplicate_key :
  LotteryManager.detectChanges [] [Samples.draw1; Samples.draw2; Samples.draw1_revised]
  = mkChanges [Samples.draw1_revised; Samples.draw2] [] [].
Proof. vm_compute. reflexivity. Qed.

(** The three scenarios of the specification, on stock records. *)
Example scenario_added :
  StockDataManager.detectChanges [Samples.nikkei] [Samples.nikkei; Samples.dowjones]
  = mkChanges [Samples.dowjones] [] [].
Proof. vm_compute. reflexivity. Qed.

Example scenario_updated :
  StockDataManager.detectChanges [Samples.nikkei] [Samples.nikkei_revised]
  = mkChanges [] [mkUpdate "NIKKEI" Samples.nikkei Samples.nikkei_revised] [].
Proof. vm_compute. reflexivity. Qed.

Example scenario_removed :
  StockDataManager.detectChanges [Samples.nikkei; Samples.dowjones] [Samples.nikkei]
  = mkChanges [] [] [Samples.dowjones].
Proof. vm_compute. reflexivity. Qed.

(** A [writeFile] that fails is logged by [saveData] and raises nothing; the
    file is then whatever the failed write left. *)
Lemma saveData_write_fails {Rec Raw : Type} (encode : Rec -> Value) (data : list Rec)
      (w : World Rec Raw) (e : Err) (residue : FileState) :
  writeOutcome (oracle w) (writes w) = Some (e, residue) ->
  fst (saveData encode data w) = Ok tt /\
  this (snd (saveData encode data w)) = this w /\
  dataFile (snd (saveData encode data w)) = residue.
Proof.
  intros H. destruct (saveData_run encode data w) as (H1 & H2 & _ & H4).
  rewrite H in H4. auto.
Qed.

(** The stock loop never runs off its end: the third attempt returns or
    raises. *)
Lemma stock_extractWithRetry_defined (w : StockDataManager.World) :
  fst (StockDataManager.extractWithRetry w) <> Ok None.
Proof.
  unfold StockDataManager.extractWithRetry, CONFIG.maxRetries.
  cbn [StockDataManager.retryLoop]. unfold try_catch. autounfold with machine. cbn.
  repeat match goal with
         | |- context [fetcher ?o ?n] => destruct (fetcher o n); cbn
         end; discriminate.
Qed.

(* ====================================================================== *)
(** * Part IV: further properties of the code *)
(* ====================================================================== *)

(** ** The retry loop of the stock class *)

(** X1.  In the stock class [extractWithRetry] returns the result of the
    first call of [extractStockResults] that does not raise, empty or not:
    when the first [k] calls raise ([k] = 0, 1 or 2) and the next one
    returns, that result is returned after [k + 1] calls, each failed call
    followed by one wait of [retryDelay], and nothing is raised nor are the
    manager's fields or the data file touched. *)
Theorem X1_stock_first_answer_ends_the_loop :
  forall (w : StockDataManager.World) (k : nat)
         (results : list StockDataManager.StockRecord),
    k < CONFIG.maxRetries ->
    (forall i, i < k -> exists e, fetcher (oracle w) (fetches w + i) = Raises e) ->
    fetcher (oracle w) (fetches w + k) = Returns results ->
    let w' := snd (StockDataManager.extractWithRetry w) in
    fst (StockDataManager.extractWithRetry w) = Ok (Some results) /\
    fetches w' = fetches w + S k /\
    timing (trace w') = timing (trace w) ++ failed_attempts k /\
    this w' = this w /\ dataFile w' = dataFile w /\ writes w' = writes w.
Proof.
  intros w k results Hk Hall Hans w'.
  destruct (StockRetryMore.stock_retryLoop_answers_after k CONFIG.maxRetries 1 w results)
    as (H1 & H2 & H3); try assumption.
  assert (Hh : holdings w' = holdings w).
  { unfold w', StockDataManager.extractWithRetry.
    rewrite StockFacts.stock_retryLoop_keeps; intros; reflexivity. }
  unfold holdings in Hh. injection Hh as Ha Hb Hc.
  repeat split; assumption.
Qed.

Lemma X1_witness :
  2 < CONFIG.maxRetries /\
  fst (StockDataManager.extractWithRetry
         (Samples.world_of [Samples.nikkei] true
            (fun n => match n with
                      | 0 | 1 => Raises Samples.boom
                      | _ => Returns [Samples.nikkei_revised]
                      end)))
  = Ok (Some [Samples.nikkei_revised]).
Proof.
  split; [unfold CONFIG.maxRetries; lia |].
  refine (proj1 (X1_stock_first_answer_ends_the_loop
                   (Samples.world_of [Samples.nikkei] true
                      (fun n => match n with
                                | 0 | 1 => Raises Samples.boom
                                | _ => Returns [Samples.nikkei_revised]
                                end))
                   2 [Samples.nikkei_revised] _ _ _)).
  - unfold CONFIG.maxRetries. lia.
  - intros i Hi. exists Samples.boom.
    destruct i as [| [| i]]; [reflexivity | reflexivity | lia].
  - reflexivity.
Defined.

(** ** Cycles *)

(** X2.  [runScrapingCycle] never raises, whatever the fetch operation and
    the file system do: every error of its steps ends in its [catch].  It
    leaves [isRunning], [timeoutId] and the pending timers as they were. *)
Theorem X2_cycle_never_raises :
  (forall w : LotteryManager.World,
      let w' := snd (LotteryManager.runScrapingCycle w) in
      fst (LotteryManager.runScrapingCycle w) = Ok tt /\
      isRunning (this w') = isRunning (this w) /\
      timeoutId (this w') = timeoutId (this w) /\
      timers w' = timers w) /\
  (forall w : StockDataManager.World,
      let w' := snd (StockDataManager.runScrapingCycle w) in
      fst (StockDataManager.runScrapingCycle w) = Ok tt /\
      isRunning (this w') = isRunning (this w) /\
      timeoutId (this w') = timeoutId (this w) /\
      timers w' = timers w).
Proof.
  split; intros w w'.
  - destruct (LotteryFacts.lottery_runScrapingCycle_total w) as [[] Hok].
    pose proof (LotterySchedule.lottery_cycle_schedule w) as Hs.
    fold w' in Hs. unfold schedule in Hs. injection Hs as H1 H2 H3 _.
    repeat split; assumption.
  - destruct (StockFacts.stock_runScrapingCycle_total w) as [[] Hok].
    pose proof (StockSchedule.stock_cycle_schedule w) as Hs.
    fold w' in Hs. unfold schedule in Hs. injection Hs as H1 H2 H3 _.
    repeat split; assumption.
Qed.

(** X3.  When the [writeFile] of [saveData] fails inside [processNewData],
    nothing is raised and [currentData] is replaced all the same, so memory
    and file part ways; a following call with the same new data finds no
    change and does not write again. *)
Theorem X3_failed_save_is_not_retried :
  forall (w : StockDataManager.World) (newData : list StockDataManager.StockRecord)
         (e : Err) (residue : FileState),
    writeOutcome (oracle w) (writes w) = Some (e, residue) ->
    0 < totalChanges (StockDataManager.detectChanges (currentData (this w)) newData) ->
    let w1 := snd (StockDataManager.processNewData (Some newData) w) in
    let w2 := snd (StockDataManager.processNewData (Some newData) w1) in
    fst (StockDataManager.processNewData (Some newData) w)
      = Ok (StockDataManager.detectChanges (currentData (this w)) newData) /\
    currentData (this w1) = newData /\
    dataFile w1 = residue /\
    fst (StockDataManager.processNewData (Some newData) w1) = Ok (mkChanges [] [] []) /\
    currentData (this w2) = newData /\
    dataFile w2 = residue /\
    writes w2 = writes w1.
Proof.
  intros w newData e residue Hfail Hpos w1 w2.
  destruct (StockFacts.stock_processNewData_run newData w) as (ts & Hr & Ht & _ & Hf).
  cbv zeta in Hr, Ht, Hf. fold w1 in Ht, Hf.
  apply Nat.ltb_lt in Hpos. rewrite Hpos in Ht, Hf. rewrite Hfail in Hf.
  destruct (StockCycleFacts.stock_processNewData_again newData w) as [Hr2 Hh].
  fold w1 in Hr2, Hh. fold w2 in Hh. unfold holdings in Hh. injection Hh as H1 H2 H3.
  split; [exact Hr |]. split; [now rewrite Ht |]. split; [exact Hf |].
  split; [exact Hr2 |]. split; [now rewrite H1, Ht |]. split; [congruence | exact H3].
Qed.

Lemma X3_witness :
  dataFile
    (snd (StockDataManager.processNewData (Some [Samples.nikkei_revised])
            (mkWorld (mkManager [Samples.nikkei] true None) Missing [] [] 0 0 0 0 0
                     (mkOracle (fun _ => Returns [Samples.nikkei_revised])
                               (fun _ => "2025-07-01T09:30:00.000Z")
                               (fun _ => Some (Samples.boom, Missing))
                               (fun _ => 0%Z)))))
  = Missing.
Proof.
  refine (proj1 (proj2 (proj2
    (X3_failed_save_is_not_retried
       (mkWorld (mkManager [Samples.nikkei] true None) Missing [] [] 0 0 0 0 0
                (mkOracle (fun _ => Returns [Samples.nikkei_revised])
                          (fun _ => "2025-07-01T09:30:00.000Z")
                          (fun _ => Some (Samples.boom, Missing))
                          (fun _ => 0%Z)))
       [Samples.nikkei_revised] Samples.boom Missing eq_refl _)))).
  vm_compute. lia.
Defined.

(** ** The three sequences of a ChangeSet *)

Lemma nodup_map_filter {A B : Type} (g : A -> B) (f : A -> bool) (l : list A) :
  NoDup (map g l) -> NoDup (map g (filter f l)).
Proof.
  induction l as [| a l IH]; simpl; intros H; [constructor |].
  inversion H as [| ? ? Hnotin Hnd]; subst.
  destruct (f a); simpl; [constructor |]; auto.
  intros Hin. apply Hnotin. apply in_map_iff in Hin. destruct Hin as [x [Hx Hin]].
  apply filter_In in Hin. apply in_map_iff. exists x. tauto.
Qed.

Section ChangeDetectorMore.
Context {Rec : Type}.
Variable idKey : Rec -> string.
Variable hasDataChanged : Rec -> Rec -> bool.

Local Abbreviation detect := (detectChanges idKey hasDataChanged).
Local Abbreviation mapOf data := (JsMap.of_entries (keyed idKey data)).
Local Abbreviation change_of m := (fun e : string * Rec =>
  match JsMap.get m (fst e) with
  | Some oldItem =>
      if hasDataChanged oldItem (snd e) then [mkUpdate (fst e) oldItem (snd e)] else []
  | None => []
  end).

(** [get] finds nothing exactly where [has] says no. *)
Lemma get_none_has (m : @JsMap.t Rec) (k : string) :
  match JsMap.get m k with None => true | Some _ => false end = negb (JsMap.has m k).
Proof.
  destruct (JsMap.get m k) as [r |] eqn:Hget.
  - symmetry. apply negb_false_iff. apply has_in_keys.
    apply get_some_in in Hget. apply in_map_iff. exists (k, r). auto.
  - symmetry. apply negb_true_iff. apply has_false_iff. now apply get_none_iff.
Qed.

Lemma added_removed_swap (a b : list Rec) :
  added (detect a b) = removed (detect b a).
Proof.
  rewrite !detectChanges_unfold. simpl. f_equal. apply filter_ext.
  intros [k r]. simpl. apply get_none_has.
Qed.

Lemma updated_swap (a b : list Rec) (u : Update Rec) :
  (forall x y, hasDataChanged x y = hasDataChanged y x) ->
  In u (updated (detect a b)) <->
  In (mkUpdate (key u) (new u) (old u)) (updated (detect b a)).
Proof.
  intros Hsym.
  destruct (detectChanges_last_write_wins idKey hasDataChanged a b) as (_ & _ & Hab).
  destruct (detectChanges_last_write_wins idKey hasDataChanged b a) as (_ & _ & Hba).
  rewrite Hab, Hba. simpl. rewrite (Hsym (new u) (old u)). tauto.
Qed.

Lemma entry_key (data : list Rec) (e : string * Rec) :
  In e (mapOf data) -> idKey (snd e) = fst e.
Proof. destruct e as [k r]. intros H. apply mapOf_in in H. simpl. tauto. Qed.

Lemma values_keys (data : list Rec) (f : string * Rec -> bool) :
  map idKey (map snd (filter f (mapOf data))) = map fst (filter f (mapOf data)).
Proof.
  rewrite map_map. apply map_ext_in. intros e Hin.
  apply filter_In in Hin. apply (entry_key data). tauto.
Qed.

Lemma change_keys_in (m : @JsMap.t Rec) (es : list (string * Rec)) (k : string) :
  In k (map key (flat_map (change_of m) es)) -> In k (map fst es).
Proof.
  induction es as [| e es IH]; simpl; [tauto |].
  rewrite map_app, in_app_iff. intros [Hin | Hin]; [left | right; auto].
  destruct (JsMap.get m (fst e)) as [oldItem |]; [| contradiction].
  destruct (hasDataChanged oldItem (snd e)); [| contradiction].
  destruct Hin as [<- | []]. reflexivity.
Qed.

Lemma change_keys_nodup (m : @JsMap.t Rec) (es : list (string * Rec)) :
  NoDup (map fst es) -> NoDup (map key (flat_map (change_of m) es)).
Proof.
  induction es as [| e es IH]; simpl; intros H; [constructor |].
  inversion H as [| ? ? Hnotin Hnd]; subst. rewrite map_app.
  destruct (JsMap.get m (fst e)) as [oldItem |]; [| simpl; auto].
  destruct (hasDataChanged oldItem (snd e)); [| simpl; auto].
  simpl. constructor; [| auto].
  intros Hin. apply Hnotin. now apply (change_keys_in m).
Qed.

(** No key is reported twice, in one sequence or in two. *)
Lemma changes_partition (a b : list Rec) :
  NoDup (map idKey (added (detect a b))) /\
  NoDup (map key (updated (detect a b))) /\
  NoDup (map idKey (removed (detect a b))) /\
  (forall x r, In x (added (detect a b)) -> In r (removed (detect a b)) ->
               idKey x <> idKey r) /\
  (forall x u, In x (added (detect a b)) -> In u (updated (detect a b)) ->
               idKey x <> key u) /\
  (forall u r, In u (updated (detect a b)) -> In r (removed (detect a b)) ->
               key u <> idKey r).
Proof.
  destruct (detectChanges_last_write_wins idKey hasDataChanged a b) as (Ha & Hr & Hu).
  repeat split.
  - rewrite detectChanges_unfold. simpl. rewrite values_keys.
    apply nodup_map_filter. apply of_entries_nodup.
  - rewrite detectChanges_unfold. simpl.
    apply change_keys_nodup. apply of_entries_nodup.
  - rewrite detectChanges_unfold. simpl. rewrite values_keys.
    apply nodup_map_filter. apply of_entries_nodup.
  - intros x r Hx Hrem Heq. apply Ha in Hx. apply Hr in Hrem.
    destruct Hx as [_ Hx], Hrem as [Hrem _]. congruence.
  - intros x u Hx Hup Heq. apply Ha in Hx. apply Hu in Hup.
    destruct Hx as [_ Hx], Hup as (Hup & _). congruence.
  - intros u r Hup Hrem Heq. apply Hu in Hup. apply Hr in Hrem.
    destruct Hup as (_ & Hup & _), Hrem as [_ Hrem]. congruence.
Qed.

Lemma lookup_last_some (data : list Rec) (k : string) :
  In k (map idKey data) <-> exists r, lookup_last idKey data k = Some r.
Proof.
  split.
  - intros Hin. apply mapOf_keys in Hin. apply in_map_iff in Hin.
    destruct Hin as [[k' r] [Heq Hin]]. simpl in Heq. subst k'.
    exists r. now apply mapOf_entry_iff.
  - intros [r Hr]. apply lookup_last_key in Hr. destruct Hr as [Hin <-].
    now apply in_map.
Qed.

(** Nothing is reported exactly when the two sides carry the same keys and
    the records that stand for each key do not differ for [hasDataChanged]. *)
Lemma detectChanges_nothing_iff (a b : list Rec) :
  detect a b = mkChanges [] [] [] <->
  (forall k, In k (map idKey a) <-> In k (map idKey b)) /\
  (forall k ra rb,
      lookup_last idKey a k = Some ra -> lookup_last idKey b k = Some rb ->
      hasDataChanged ra rb = false).
Proof.
  split.
  - intros Hnone.
    destruct (detectChanges_last_write_wins idKey hasDataChanged a b) as (Ha & Hr & Hu).
    rewrite Hnone in Ha, Hr, Hu. simpl in Ha, Hr, Hu. split.
    + intros k. rewrite !lookup_last_some. split.
      * intros [ra Hra]. destruct (lookup_last idKey b k) as [rb |] eqn:Hrb; [now exists rb |].
        exfalso. destruct (lookup_last_key _ _ _ _ Hra) as [_ <-].
        apply (Hr ra). auto.
      * intros [rb Hrb]. destruct (lookup_last idKey a k) as [ra |] eqn:Hra; [now exists ra |].
        exfalso. destruct (lookup_last_key _ _ _ _ Hrb) as [_ <-].
        apply (Ha rb). auto.
    + intros k ra rb Hra Hrb.
      destruct (hasDataChanged ra rb) eqn:Hch; [| reflexivity].
      exfalso. apply (Hu (mkUpdate k ra rb)). simpl. auto.
  - intros [Hkeys Hsame]. apply detectChanges_nothing; [assumption |].
    intros k oldItem newItem Hget Hin.
    rewrite mapOf_get in Hget. apply mapOf_entry_iff in Hin.
    now apply (Hsame k).
Qed.

End ChangeDetectorMore.

Lemma lottery_hasDataChanged_sym (x y : LotteryManager.LotteryRecord) :
  LotteryManager.hasDataChanged x y = LotteryManager.hasDataChanged y x.
Proof.
  destruct (LotteryManager.hasDataChanged y x) eqn:H.
  - apply LotteryFacts.lottery_hasDataChanged_true_iff.
    apply LotteryFacts.lottery_hasDataChanged_true_iff in H.
    destruct H as [H | [H | [H | H]]]; auto.
  - apply LotteryFacts.lottery_hasDataChanged_false_iff.
    apply LotteryFacts.lottery_hasDataChanged_false_iff in H.
    destruct H as (H1 & H2 & H3 & H4). auto.
Qed.

Lemma stock_hasDataChanged_sym (x y : StockDataManager.StockRecord) :
  StockDataManager.hasDataChanged x y = StockDataManager.hasDataChanged y x.
Proof.
  destruct (StockDataManager.hasDataChanged y x) eqn:H.
  - apply StockFacts.stock_hasDataChanged_true_iff.
    apply StockFacts.stock_hasDataChanged_true_iff in H.
    destruct H as [H | [H | H]]; auto.
  - apply StockFacts.stock_hasDataChanged_false_iff.
    apply StockFacts.stock_hasDataChanged_false_iff in H.
    destruct H as (H1 & H2 & H3). auto.
Qed.

(** X4.  Whatever the two sequences, repeated keys included, [detectChanges]
    reports a key at most once: the keys of [added], of [updated] and of
    [removed] are each without repetition, and no key is in two of the three
    sequences. *)
Theorem X4_changes_report_a_key_once :
  (forall oldData newData : list LotteryManager.LotteryRecord,
      let changes := LotteryManager.detectChanges oldData newData in
      NoDup (map LotteryManager.date (added changes)) /\
      NoDup (map key (updated changes)) /\
      NoDup (map LotteryManager.date (removed changes)) /\
      (forall x r, In x (added changes) -> In r (removed changes) ->
                   LotteryManager.date x <> LotteryManager.date r) /\
      (forall x u, In x (added changes) -> In u (updated changes) ->
                   LotteryManager.date x <> key u) /\
      (forall u r, In u (updated changes) -> In r (removed changes) ->
                   key u <> LotteryManager.date r)) /\
  (forall oldData newData : list StockDataManager.StockRecord,
      let changes := StockDataManager.detectChanges oldData newData in
      NoDup (map StockDataManager.stockName (added changes)) /\
      NoDup (map key (updated changes)) /\
      NoDup (map StockDataManager.stockName (removed changes)) /\
      (forall x r, In x (added changes) -> In r (removed changes) ->
                   StockDataManager.stockName x <> StockDataManager.stockName r) /\
      (forall x u, In x (added changes) -> In u (updated changes) ->
                   StockDataManager.stockName x <> key u) /\
      (forall u r, In u (updated changes) -> In r (removed changes) ->
                   key u <> StockDataManager.stockName r)).
Proof.
  split; intros oldData newData changes.
  - exact (changes_partition LotteryManager.date LotteryManager.hasDataChanged
             oldData newData).
  - exact (changes_partition StockDataManager.stockName StockDataManager.hasDataChanged
             oldData newData).
Qed.

(** X5.  Exchanging the two arguments of [detectChanges] exchanges [added]
    and [removed], as sequences, and turns every entry of [updated] around:
    the same keys are reported updated, with [old] and [new] exchanged. *)
Theorem X5_detectChanges_exchanged :
  (forall a b : list LotteryManager.LotteryRecord,
      added (LotteryManager.detectChanges a b) = removed (LotteryManager.detectChanges b a) /\
      removed (LotteryManager.detectChanges a b) = added (LotteryManager.detectChanges b a) /\
      (forall u, In u (updated (LotteryManager.detectChanges a b)) <->
                 In (mkUpdate (key u) (new u) (old u))
                    (updated (LotteryManager.detectChanges b a)))) /\
  (forall a b : list StockDataManager.StockRecord,
      added (StockDataManager.detectChanges a b) = removed (StockDataManager.detectChanges b a) /\
      removed (StockDataManager.detectChanges a b) = added (StockDataManager.detectChanges b a) /\
      (forall u, In u (updated (StockDataManager.detectChanges a b)) <->
                 In (mkUpdate (key u) (new u) (old u))
                    (updated (StockDataManager.detectChanges b a)))).
Proof.
  split; intros a b.
  - split; [apply added_removed_swap |].
    split; [symmetry; apply added_removed_swap |].
    intros u. apply updated_swap. exact lottery_hasDataChanged_sym.
  - split; [apply added_removed_swap |].
    split; [symmetry; apply added_removed_swap |].
    intros u. apply updated_swap. exact stock_hasDataChanged_sym.
Qed.

(** X6.  [detectChanges] reports nothing if and only if the two sequences
    carry the same identity keys and, key by key, the records that stand for
    the key (the last one carrying it on each side) agree on every compared
    field; [lastUpdated] plays no part. *)
Theorem X6_nothing_reported_iff :
  (forall oldData newData : list LotteryManager.LotteryRecord,
      LotteryManager.detectChanges oldData newData = mkChanges [] [] [] <->
      (forall k, In k (map LotteryManager.date oldData) <->
                 In k (map LotteryManager.date newData)) /\
      (forall k o n,
          lookup_last LotteryManager.date oldData k = Some o ->
          lookup_last LotteryManager.date newData k = Some n ->
          LotteryManager.firstPrize (LotteryManager.prizes o)
            = LotteryManager.firstPrize (LotteryManager.prizes n) /\
          LotteryManager.three_front (LotteryManager.prizes o)
            = LotteryManager.three_front (LotteryManager.prizes n) /\
          LotteryManager.three_end (LotteryManager.prizes o)
            = LotteryManager.three_end (LotteryManager.prizes n) /\
          LotteryManager.two_end (LotteryManager.prizes o)
            = LotteryManager.two_end (LotteryManager.prizes n))) /\
  (forall oldData newData : list StockDataManager.StockRecord,
      StockDataManager.detectChanges oldData newData = mkChanges [] [] [] <->
      (forall k, In k (map StockDataManager.stockName oldData) <->
                 In k (map StockDataManager.stockName newData)) /\
      (forall k o n,
          lookup_last StockDataManager.stockName oldData k = Some o ->
          lookup_last StockDataManager.stockName newData k = Some n ->
          StockDataManager.countryCode o = StockDataManager.countryCode n /\
          StockDataManager.threeDigits o = StockDataManager.threeDigits n /\
          StockDataManager.twoDigits o = StockDataManager.twoDigits n)).
Proof.
  split; intros oldData newData.
  - unfold LotteryManager.detectChanges. rewrite detectChanges_nothing_iff.
    split; intros [Hkeys Hsame]; (split; [exact Hkeys |]); intros k o n Ho Hn.
    + apply LotteryFacts.lottery_hasDataChanged_false_iff. now apply (Hsame k).
    + apply LotteryFacts.lottery_hasDataChanged_false_iff. now apply (Hsame k).
  - unfold StockDataManager.detectChanges. rewrite detectChanges_nothing_iff.
    split; intros [Hkeys Hsame]; (split; [exact Hkeys |]); intros k o n Ho Hn.
    + apply StockFacts.stock_hasDataChanged_false_iff. now apply (Hsame k).
    + apply StockFacts.stock_hasDataChanged_false_iff. now apply (Hsame k).
Qed.

(** ** Starting from a file that cannot be used *)

Section LoadFallback.
Context {Rec Raw : Type}.
Variable decode : Value -> option Rec.

(** No file, a file that cannot be read, text that is not JSON, or the JSON
    [null]: one line is logged and the snapshot starts empty. *)
Lemma loadExistingData_fallback_trace (w : World Rec Raw) :
  match dataFile w with
  | Missing | Unreadable _ | Holds (Garbled _) => True
  | Holds (Json v) => get_data v = None
  end ->
  fst (loadExistingData decode w) = Ok tt /\
  this (snd (loadExistingData decode w))
    = mkManager [] (isRunning (this w)) (timeoutId (this w)) /\
  dataFile (snd (loadExistingData decode w)) = dataFile w /\
  writes (snd (loadExistingData decode w)) = writes w /\
  timers (snd (loadExistingData decode w)) = timers w /\
  trace (snd (loadExistingData decode w))
    = trace w ++
      [EvLog (clock (oracle w) (clockReads w))
         match dataFile w with
         | Missing => MsgNoDataFile
         | Unreadable e | Holds (Garbled e) =>
             if strict_eq (code e) (Some "ENOENT") then MsgNoDataFile
             else MsgLoadError (message e)
         | Holds (Json _) =>
             MsgLoadError "Cannot read properties of null (reading 'data')"
         end].
Proof.
  intros Hfile.
  destruct (dataFile w) as [| e | [e | v]] eqn:Hf;
    unfold loadExistingData, try_catch, assignCurrentData; autounfold with machine; cbn;
    rewrite Hf; cbn.
  - repeat split; assumption.
  - destruct (strict_eq (code e) (Some "ENOENT")); cbn; repeat split; assumption.
  - destruct (strict_eq (code e) (Some "ENOENT")); cbn; repeat split; assumption.
  - rewrite Hfile. cbn. repeat split; assumption.
Qed.

End LoadFallback.

(** X7.  [loadExistingData] is never stopped by a file it cannot use.  With
    no file, with a file that cannot be read, with text [JSON.parse]
    rejects, or with the JSON value [null], it returns normally, sets
    [currentData] to the empty array, leaves [isRunning], [timeoutId], the
    file and the timers alone, writes nothing, and logs one line: the
    no-file line when the error's [code] is ['ENOENT'], the line with the
    error's message otherwise. *)
Theorem X7_load_falls_back_to_empty :
  (forall w : LotteryManager.World,
      match dataFile w with
      | Missing | Unreadable _ | Holds (Garbled _) => True
      | Holds (Json v) => get_data v = None
      end ->
      let w' := snd (LotteryManager.loadExistingData w) in
      fst (LotteryManager.loadExistingData w) = Ok tt /\
      this w' = mkManager [] (isRunning (this w)) (timeoutId (this w)) /\
      dataFile w' = dataFile w /\ writes w' = writes w /\ timers w' = timers w /\
      trace w'
        = trace w ++
          [EvLog (clock (oracle w) (clockReads w))
             match dataFile w with
             | Missing => MsgNoDataFile
             | Unreadable e | Holds (Garbled e) =>
                 if strict_eq (code e) (Some "ENOENT") then MsgNoDataFile
                 else MsgLoadError (message e)
             | Holds (Json _) =>
                 MsgLoadError "Cannot read properties of null (reading 'data')"
             end]) /\
  (forall w : StockDataManager.World,
      match dataFile w with
      | Missing | Unreadable _ | Holds (Garbled _) => True
      | Holds (Json v) => get_data v = None
      end ->
      let w' := snd (StockDataManager.loadExistingData w) in
      fst (StockDataManager.loadExistingData w) = Ok tt /\
      this w' = mkManager [] (isRunning (this w)) (timeoutId (this w)) /\
      dataFile w' = dataFile w /\ writes w' = writes w /\ timers w' = timers w /\
      trace w'
        = trace w ++
          [EvLog (clock (oracle w) (clockReads w))
             match dataFile w with
             | Missing => MsgNoDataFile
             | Unreadable e | Holds (Garbled e) =>
                 if strict_eq (code e) (Some "ENOENT") then MsgNoDataFile
                 else MsgLoadError (message e)
             | Holds (Json _) =>
                 MsgLoadError "Cannot read properties of null (reading 'data')"
             end]).
Proof.
  split; intros w Hfile w'.
  - exact (loadExistingData_fallback_trace LotteryManager.decode w Hfile).
  - exact (loadExistingData_fallback_trace StockDataManager.decode w Hfile).
Qed.

Lemma X7_witness :
  this (snd (StockDataManager.loadExistingData
               (set_dataFile (Holds (Garbled (mkErr None "Unexpected end of JSON input")))
                             Samples.stock_listed)))
  = mkManager [] true None /\
  trace (snd (StockDataManager.loadExistingData
                (set_dataFile (Holds (Garbled (mkErr None "Unexpected end of JSON input")))
                              Samples.stock_listed)))
  = [EvLog "2025-07-01T09:30:00.000Z" (MsgLoadError "Unexpected end of JSON input")].
Proof.
  destruct (proj2 X7_load_falls_back_to_empty
              (set_dataFile (Holds (Garbled (mkErr None "Unexpected end of JSON input")))
                            Samples.stock_listed) I)
    as (_ & Hthis & _ & _ & _ & Htrace).
  split; [exact Hthis | exact Htrace].
Defined.

(** ** What a new process finds *)

(** X8.  What [processNewData] saved is what a new process starts from.
    When [processNewData] found changes and its [writeFile] succeeded, a
    manager as the constructor makes it, reading the file that call left,
    loads exactly the new data; a [processNewData] with the same new data
    then reports nothing and writes nothing. *)
Theorem X8_restart_finds_what_was_saved :
  (forall (w : LotteryManager.World) (newData : list LotteryManager.LotteryRecord),
      newData <> [] ->
      writeOutcome (oracle w) (writes w) = None ->
      0 < totalChanges (LotteryManager.detectChanges (currentData (this w)) newData) ->
      let saved := snd (LotteryManager.processNewData (Some newData) w) in
      let restarted := set_this LotteryManager.constructor saved in
      let loaded := snd (LotteryManager.loadExistingData restarted) in
      fst (LotteryManager.loadExistingData restarted) = Ok tt /\
      currentData (this loaded) = newData /\
      fst (LotteryManager.processNewData (Some newData) loaded) = Ok (mkChanges [] [] []) /\
      writes (snd (LotteryManager.processNewData (Some newData) loaded)) = writes saved /\
      dataFile (snd (LotteryManager.processNewData (Some newData) loaded))
        = dataFile saved) /\
  (forall (w : StockDataManager.World) (newData : list StockDataManager.StockRecord),
      writeOutcome (oracle w) (writes w) = None ->
      0 < totalChanges (StockDataManager.detectChanges (currentData (this w)) newData) ->
      let saved := snd (StockDataManager.processNewData (Some newData) w) in
      let restarted := set_this StockDataManager.constructor saved in
      let loaded := snd (StockDataManager.loadExistingData restarted) in
      fst (StockDataManager.loadExistingData restarted) = Ok tt /\
      currentData (this loaded) = newData /\
      fst (StockDataManager.processNewData (Some newData) loaded)
        = Ok (mkChanges [] [] []) /\
      writes (snd (StockDataManager.processNewData (Some newData) loaded)) = writes saved /\
      dataFile (snd (StockDataManager.processNewData (Some newData) loaded))
        = dataFile saved).
Proof.
  split.
  - intros w newData Hne Hwrite Hpos saved restarted loaded.
    destruct (LotteryFacts.lottery_processNewData_run newData w Hne)
      as (ts & _ & _ & _ & Hf).
    cbv zeta in Hf. fold saved in Hf.
    apply Nat.ltb_lt in Hpos. rewrite Hpos, Hwrite in Hf.
    destruct (loadExistingData_json LotteryManager.decode restarted _
                (VArr (map LotteryManager.encode newData)) newData Hf)
      as (Hok & Hthis & _ & Hfile).
    { apply get_data_wrapped. discriminate. }
    { apply (decode_all_encode LotteryManager.encode LotteryManager.decode
               LotteryFacts.lottery_decode_encode). }
    fold LotteryManager.loadExistingData in Hok, Hthis, Hfile. fold loaded in Hthis, Hfile.
    assert (Hwrites : writes loaded = writes saved).
    { unfold loaded, LotteryManager.loadExistingData.
      rewrite (loadExistingData_keeps LotteryManager.decode writes);
        [reflexivity | intros; reflexivity | intros ? ?; reflexivity]. }
    destruct (LotteryCycleFacts.lottery_processNewData_nothing newData loaded Hne)
      as [Hr Hh].
    { rewrite Hthis. cbn [currentData]. apply detectChanges_same.
      apply LotteryFacts.lottery_hasDataChanged_same. }
    apply holdings_eq in Hh. destruct Hh as (_ & Hh2 & Hh3).
    split; [exact Hok |]. split; [now rewrite Hthis |]. split; [exact Hr |].
    split; [now rewrite Hh3 | now rewrite Hh2, Hfile].
  - intros w newData Hwrite Hpos saved restarted loaded.
    destruct (StockFacts.stock_processNewData_run newData w) as (ts & _ & _ & _ & Hf).
    cbv zeta in Hf. fold saved in Hf.
    apply Nat.ltb_lt in Hpos. rewrite Hpos, Hwrite in Hf.
    destruct (loadExistingData_json StockDataManager.decode restarted _
                (VArr (map StockDataManager.encode newData)) newData Hf)
      as (Hok & Hthis & _ & Hfile).
    { apply get_data_wrapped. discriminate. }
    { apply (decode_all_encode StockDataManager.encode StockDataManager.decode
               StockFacts.stock_decode_encode). }
    fold StockDataManager.loadExistingData in Hok, Hthis, Hfile. fold loaded in Hthis, Hfile.
    assert (Hwrites : writes loaded = writes saved).
    { unfold loaded, StockDataManager.loadExistingData.
      rewrite (loadExistingData_keeps StockDataManager.decode writes);
        [reflexivity | intros; reflexivity | intros ? ?; reflexivity]. }
    destruct (StockCycleFacts.stock_processNewData_nothing newData loaded) as [Hr Hh].
    { rewrite Hthis. cbn [currentData]. apply detectChanges_same.
      apply StockFacts.stock_hasDataChanged_same. }
    apply holdings_eq in Hh. destruct Hh as (_ & Hh2 & Hh3).
    split; [exact Hok |]. split; [now rewrite Hthis |]. split; [exact Hr |].
    split; [now rewrite Hh3 | now rewrite Hh2, Hfile].
Qed.

Lemma X8_witness :
  writeOutcome (oracle Samples.stock_listed) (writes Samples.stock_listed) = None /\
  0 < totalChanges (StockDataManager.detectChanges
                      (currentData (this Samples.stock_listed)) [Samples.nikkei_revised]) /\
  currentData
    (this (snd (StockDataManager.loadExistingData
                  (set_this StockDataManager.constructor
                     (snd (StockDataManager.processNewData
                             (Some [Samples.nikkei_revised]) Samples.stock_listed))))))
  = [Samples.nikkei_revised].
Proof.
  assert (Hpos : 0 < totalChanges (StockDataManager.detectChanges
                       (currentData (this Samples.stock_listed)) [Samples.nikkei_revised]))
    by (vm_compute; lia).
  split; [reflexivity |]. split; [exact Hpos |].
  exact (proj1 (proj2 (proj2 X8_restart_finds_what_was_saved Samples.stock_listed
                         [Samples.nikkei_revised] eq_refl Hpos))).
Defined.

(** ** Arming the next run *)

Lemma getRandomInterval_run {Rec Raw : Type} (w : World Rec Raw) :
  getRandomInterval w = (Ok (interval_of w), set_draws (S (draws w)) w).
Proof. reflexivity. Qed.

(** X9.  [getRandomInterval] returns an integer of
    [minInterval .. maxInterval], both ends included, and each of these
    values is returned for some draw of [Math.random].  [scheduleNextRun],
    while Running, arms exactly one timer with such a delay and remembers it
    in [timeoutId], leaving [currentData] and the file alone; while Stopped
    it does nothing at all. *)
Theorem X9_next_run_within_bounds :
  (forall (Rec Raw : Type) (w : World Rec Raw),
      exists interval,
        fst (getRandomInterval w) = Ok interval /\
        (CONFIG.minInterval <= interval <= CONFIG.maxInterval)%Z) /\
  (forall (Rec Raw : Type) (w : World Rec Raw) (interval : Z),
      (CONFIG.minInterval <= interval <= CONFIG.maxInterval)%Z ->
      random (oracle w) (draws w) = (interval - CONFIG.minInterval)%Z ->
      fst (getRandomInterval w) = Ok interval) /\
  (forall (Rec Raw : Type) (w : World Rec Raw),
      isRunning (this w) = true ->
      exists interval,
        (CONFIG.minInterval <= interval <= CONFIG.maxInterval)%Z /\
        fst (scheduleNextRun w) = Ok tt /\
        this (snd (scheduleNextRun w))
          = mkManager (currentData (this w)) true (Some (timersMade w)) /\
        timers (snd (scheduleNextRun w)) = timers w ++ [(timersMade w, interval)] /\
        dataFile (snd (scheduleNextRun w)) = dataFile w /\
        writes (snd (scheduleNextRun w)) = writes w) /\
  (forall (Rec Raw : Type) (w : World Rec Raw),
      isRunning (this w) = false -> scheduleNextRun w = (Ok tt, w)).
Proof.
  split; [| split; [| split]].
  - intros Rec Raw w. exists (interval_of w). rewrite getRandomInterval_run.
    split; [reflexivity | apply interval_of_bounds].
  - intros Rec Raw w interval Hbounds Hdraw. rewrite getRandomInterval_run.
    cbn [fst]. f_equal. unfold interval_of. rewrite Hdraw.
    unfold CONFIG.minInterval, CONFIG.maxInterval in *.
    rewrite Z.mod_small by lia. lia.
  - intros Rec Raw w Hrun.
    destruct (scheduleNextRun_running w Hrun) as (H1 & H2 & H3 & _ & H5 & H6).
    exists (interval_of w). split; [apply interval_of_bounds |]. auto.
  - intros Rec Raw w Hrun. now apply scheduleNextRun_stopped.
Qed.

Lemma X9_witness :
  isRunning (this Samples.lottery_always_failing) = true /\
  (CONFIG.minInterval <= 600000 <= CONFIG.maxInterval)%Z /\
  fst (getRandomInterval Samples.lottery_always_failing) = Ok 600000%Z /\
  exists interval,
    timers (snd (scheduleNextRun Samples.lottery_always_failing))
    = timers Samples.lottery_always_failing
      ++ [(timersMade Samples.lottery_always_failing, interval)].
Proof.
  assert (Hrun : isRunning (this Samples.lottery_always_failing) = true) by reflexivity.
  assert (Hb : (CONFIG.minInterval <= 600000 <= CONFIG.maxInterval)%Z)
    by (unfold CONFIG.minInterval, CONFIG.maxInterval; lia).
  destruct X9_next_run_within_bounds as (_ & Hattained & Harm & _).
  split; [exact Hrun |]. split; [exact Hb |].
  split; [exact (Hattained _ _ Samples.lottery_always_failing 600000%Z Hb eq_refl) |].
  destruct (Harm _ _ Samples.lottery_always_failing Hrun) as (interval & _ & _ & _ & Ht & _).
  exists interval. exact Ht.
Defined.

(** ** One timer at a time *)



Section OneTimer.
Context {Rec Raw : Type}.
Variable load : M Rec Raw unit.
Variable cycle : M Rec Raw unit.
Hypothesis load_schedule : keeps schedule load.
Hypothesis cycle_schedule : keeps schedule cycle.
Hypothesis cycle_total : total cycle.



End OneTimer.







(** ** The lottery snapshot holds the last draw only *)


Section FreshRecord.
Context {Rec : Type}.
Variable idKey : Rec -> string.
Variable hasDataChanged : Rec -> Rec -> bool.


End FreshRecord.



(** ** The first start *)

Section StartRun.
Context {Rec Raw : Type}.
Variable load : M Rec Raw unit.
Variable cycle : M Rec Raw unit.
Hypothesis cycle_schedule : keeps schedule cycle.
Hypothesis cycle_total : total cycle.

(** [start] from Stopped, step by step, when the load returns. *)
Lemma start_stopped_run (w : World Rec Raw) :
  isRunning (this w) = false ->
  let w1 := snd ((setIsRunning true ;; log MsgStarting) w) in
  fst (load w1) = Ok tt ->
  isRunning (this (snd (load w1))) = true ->
  let w3 := snd (cycle (snd (load w1))) in
  fst (start load cycle w) = Ok tt /\
  this (snd (start load cycle w))
    = mkManager (currentData (this w3)) true (Some (timersMade w3)) /\
  timers (snd (start load cycle w)) = timers w3 ++ [(timersMade w3, interval_of w3)] /\
  dataFile (snd (start load cycle w)) = dataFile w3 /\
  writes (snd (start load cycle w)) = writes w3.
Proof.
  intros H w1 Hload Hrun2 w3. unfold start. rewrite bind_getThis. rewrite H.
  assert (Hstep : forall k : M Rec Raw unit,
             (setIsRunning true ;; log MsgStarting ;; k) w = k w1).
  { intros k. reflexivity. }
  rewrite Hstep. clear Hstep.
  pose proof (bind_cases load (fun _ => cycle ;; scheduleNextRun ;; log MsgStarted) w1) as Hb.
  rewrite Hload in Hb. rewrite Hb. clear Hb.
  pose proof (bind_cases cycle (fun _ => scheduleNextRun ;; log MsgStarted) (snd (load w1)))
    as Hb.
  destruct (cycle_total (snd (load w1))) as [[] Hok]. rewrite Hok in Hb. rewrite Hb. clear Hb.
  fold w3.
  assert (Hrun3 : isRunning (this w3) = true).
  { pose proof (cycle_schedule (snd (load w1))) as Hs. fold w3 in Hs.
    unfold schedule in Hs. injection Hs as Hs1 _ _ _. congruence. }
  destruct (scheduleNextRun_running w3 Hrun3) as (Hr & Hthis & Htimers & _ & Hfile & Hwrites).
  pose proof (bind_cases scheduleNextRun (fun _ => log MsgStarted) w3) as Hb.
  rewrite Hr in Hb. rewrite Hb. clear Hb.
  split; [reflexivity |].
  change (this (snd (log MsgStarted (snd (scheduleNextRun w3)))))
    with (this (snd (scheduleNextRun w3))).
  change (timers (snd (log MsgStarted (snd (scheduleNextRun w3)))))
    with (timers (snd (scheduleNextRun w3))).
  change (dataFile (snd (log MsgStarted (snd (scheduleNextRun w3)))))
    with (dataFile (snd (scheduleNextRun w3))).
  change (writes (snd (log MsgStarted (snd (scheduleNextRun w3)))))
    with (writes (snd (scheduleNextRun w3))).
  auto.
Qed.

End StartRun.

Section FirstFetch.
Context {Rec : Type}.
Variable idKey : Rec -> string.
Variable hasDataChanged : Rec -> Rec -> bool.

(** Against an empty snapshot everything fetched is new. *)
Lemma detectChanges_old_empty (newData : list Rec) :
  newData <> [] ->
  0 < totalChanges (detectChanges idKey hasDataChanged [] newData).
Proof.
  intros Hne. destruct newData as [| r rest]; [congruence |].
  assert (Hin : In r (added (detectChanges idKey hasDataChanged [] (r :: rest)))
                \/ exists r', In r' (added (detectChanges idKey hasDataChanged [] (r :: rest)))).
  { right.
    assert (Hk : In (idKey r) (map idKey (r :: rest))) by (simpl; auto).
    apply (lookup_last_some idKey) in Hk. destruct Hk as [r' Hr'].
    exists r'.
    destruct (detectChanges_last_write_wins idKey hasDataChanged [] (r :: rest))
      as (Ha & _).
    apply Ha. destruct (lookup_last_key idKey _ _ _ Hr') as [_ Hkey].
    rewrite Hkey. split; [assumption | reflexivity]. }
  unfold totalChanges.
  destruct Hin as [Hin | [r' Hin]];
    destruct (added (detectChanges idKey hasDataChanged [] (r :: rest)));
    try contradiction; simpl; lia.
Qed.

End FirstFetch.

Lemma load_leaves_fetcher {Rec Raw : Type} (decode : Value -> option Rec)
      (w : World Rec Raw) :
  oracle (snd (loadExistingData decode w)) = oracle w /\
  fetches (snd (loadExistingData decode w)) = fetches w /\
  timersMade (snd (loadExistingData decode w)) = timersMade w.
Proof.
  pose proof (loadExistingData_keeps decode
                (fun w : World Rec Raw => (oracle w, fetches w, timersMade w))) as Hk.
  specialize (Hk ltac:(intros; reflexivity) ltac:(intros ? ?; reflexivity) w).
  cbv beta in Hk. injection Hk as H1 H2 H3. auto.
Qed.

(** X12.  The first start.  A manager as the constructor makes it, with no
    data file and no timer pending, is started; the extraction returns
    records (stock: a non-empty array, after [k] < 3 calls that raised;
    lottery: a record, after [k] < 3 calls that gave none) and the
    [writeFile] succeeds.  Then [start] returns normally, the manager is
    Running, [currentData] is what was fetched, the file holds its wrapped
    form, written by one [writeFile], and exactly one timer is pending, armed
    with a delay of [minInterval .. maxInterval] and remembered in
    [timeoutId]. *)
Theorem X12_first_start :
  (forall (w : StockDataManager.World) (k : nat)
          (results : list StockDataManager.StockRecord),
      this w = StockDataManager.constructor ->
      dataFile w = Missing ->
      timers w = [] ->
      results <> [] ->
      k < CONFIG.maxRetries ->
      (forall i, i < k -> exists e, fetcher (oracle w) (fetches w + i) = Raises e) ->
      fetcher (oracle w) (fetches w + k) = Returns results ->
      writeOutcome (oracle w) (writes w) = None ->
      let w' := snd (StockDataManager.start w) in
      fst (StockDataManager.start w) = Ok tt /\
      this w' = mkManager results true (Some (timersMade w)) /\
      (exists lastUpdated,
          dataFile w' = Holds (Json (wrapped lastUpdated (Z.of_nat (length results))
                                             (VArr (map StockDataManager.encode results))))) /\
      writes w' = S (writes w) /\
      exists interval,
        (CONFIG.minInterval <= interval <= CONFIG.maxInterval)%Z /\
        timers w' = [(timersMade w, interval)]) /\
  (forall (w : LotteryManager.World) (k : nat) (record : LotteryManager.LotteryRecord),
      this w = LotteryManager.constructor ->
      dataFile w = Missing ->
      timers w = [] ->
      k < CONFIG.maxRetries ->
      Forall (fun a => is_record a = false) (answers_from w k) ->
      fetcher (oracle w) (fetches w + k) = Returns (Some record) ->
      writeOutcome (oracle w) (writes w) = None ->
      let w' := snd (LotteryManager.start w) in
      fst (LotteryManager.start w) = Ok tt /\
      this w' = mkManager [record] true (Some (timersMade w)) /\
      (exists lastUpdated,
          dataFile w' = Holds (Json (wrapped lastUpdated 1
                                             (VArr [LotteryManager.encode record])))) /\
      writes w' = S (writes w) /\
      exists interval,
        (CONFIG.minInterval <= interval <= CONFIG.maxInterval)%Z /\
        timers w' = [(timersMade w, interval)]).
Proof.
  split.
  - intros w k results Hthis Hfile Htimers Hne Hk Hall Hans Hwrite w'.
    assert (Hstopped : isRunning (this w) = false) by (now rewrite Hthis).
    set (w1 := snd ((setIsRunning true ;; log MsgStarting) w)).
    destruct (loadExistingData_fallback_trace StockDataManager.decode w1)
      as (Hok & Hthis2 & Hfile2 & Hwrites2 & Htimers2 & _).
    { change (dataFile w1) with (dataFile w). now rewrite Hfile. }
    destruct (load_leaves_fetcher StockDataManager.decode w1) as (Ho2 & Hf2 & Hm2).
    fold StockDataManager.loadExistingData in Hok, Hthis2, Hfile2, Hwrites2, Htimers2,
                                                 Ho2, Hf2, Hm2.
    set (w2 := snd (StockDataManager.loadExistingData w1)) in *.
    change (this w1) with (mkManager (currentData (this w)) true (timeoutId (this w)))
      in Hthis2.
    cbn [isRunning timeoutId] in Hthis2. rewrite Hthis in Hthis2. cbn [timeoutId] in Hthis2.
    change (dataFile w1) with (dataFile w) in Hfile2.
    change (writes w1) with (writes w) in Hwrites2.
    change (timers w1) with (timers w) in Htimers2.
    change (oracle w1) with (oracle w) in Ho2.
    change (fetches w1) with (fetches w) in Hf2.
    change (timersMade w1) with (timersMade w) in Hm2.
    destruct (StockCycleFacts.stock_runScrapingCycle_results w2 k results Hk)
      as (ts & _ & Hthis3 & Hwrites3 & Hfile3).
    { intros i Hi. rewrite Ho2, Hf2. now apply Hall. }
    { now rewrite Ho2, Hf2. }
    cbv zeta in Hthis3, Hwrites3, Hfile3.
    rewrite Hthis2 in Hthis3, Hwrites3, Hfile3. cbn [currentData isRunning timeoutId]
      in Hthis3, Hwrites3, Hfile3.
    pose proof (detectChanges_old_empty StockDataManager.stockName
                  StockDataManager.hasDataChanged results Hne) as Hpos.
    apply Nat.ltb_lt in Hpos. fold StockDataManager.detectChanges in Hpos.
    rewrite Hpos in Hthis3, Hwrites3, Hfile3.
    rewrite Ho2, Hwrites2, Hwrite in Hfile3. rewrite Hwrites2 in Hwrites3.
    pose proof (StockSchedule.stock_cycle_schedule w2) as Hs3.
    set (w3 := snd (StockDataManager.runScrapingCycle w2)) in *.
    destruct (start_stopped_run StockDataManager.loadExistingData
                StockDataManager.runScrapingCycle StockSchedule.stock_cycle_schedule
                StockFacts.stock_runScrapingCycle_total w Hstopped)
      as (Hstart & Hthis' & Htimers' & Hfile' & Hwrites').
    { exact Hok. }
    { fold w1 w2. now rewrite Hthis2. }
    fold StockDataManager.start in Hstart, Hthis', Htimers', Hfile', Hwrites'.
    fold w1 w2 w3 in Hthis', Htimers', Hfile', Hwrites'. fold w' in Hthis', Htimers', Hfile', Hwrites'.
    assert (Htm3 : timers w3 = [] /\ timersMade w3 = timersMade w).
    { unfold schedule in Hs3. injection Hs3 as _ _ Ht Hm. split; congruence. }
    destruct Htm3 as [Ht3 Hm3].
    rewrite Hthis3, Hm3 in Hthis'. cbn [currentData] in Hthis'.
    rewrite Ht3, Hm3 in Htimers'. rewrite Hfile3 in Hfile'. rewrite Hwrites3 in Hwrites'.
    split; [exact Hstart |]. split; [exact Hthis' |].
    split; [exists ts; exact Hfile' |]. split; [exact Hwrites' |].
    exists (interval_of w3). split; [apply interval_of_bounds | exact Htimers'].
  - intros w k record Hthis Hfile Htimers Hk Hall Hans Hwrite w'.
    assert (Hstopped : isRunning (this w) = false) by (now rewrite Hthis).
    set (w1 := snd ((setIsRunning true ;; log MsgStarting) w)).
    destruct (loadExistingData_fallback_trace LotteryManager.decode w1)
      as (Hok & Hthis2 & Hfile2 & Hwrites2 & Htimers2 & _).
    { change (dataFile w1) with (dataFile w). now rewrite Hfile. }
    destruct (load_leaves_fetcher LotteryManager.decode w1) as (Ho2 & Hf2 & Hm2).
    fold LotteryManager.loadExistingData in Hok, Hthis2, Hfile2, Hwrites2, Htimers2,
                                               Ho2, Hf2, Hm2.
    set (w2 := snd (LotteryManager.loadExistingData w1)) in *.
    change (this w1) with (mkManager (currentData (this w)) true (timeoutId (this w)))
      in Hthis2.
    cbn [isRunning timeoutId] in Hthis2. rewrite Hthis in Hthis2. cbn [timeoutId] in Hthis2.
    change (dataFile w1) with (dataFile w) in Hfile2.
    change (writes w1) with (writes w) in Hwrites2.
    change (timers w1) with (timers w) in Htimers2.
    change (oracle w1) with (oracle w) in Ho2.
    change (fetches w1) with (fetches w) in Hf2.
    change (timersMade w1) with (timersMade w) in Hm2.
    assert (Hall2 : Forall (fun a => is_record a = false) (answers_from w2 k)).
    { unfold answers_from. rewrite Ho2, Hf2. exact Hall. }
    destruct (LotteryCycleFacts.lottery_runScrapingCycle_record w2 k record Hk Hall2)
      as (ts & _ & Hthis3 & Hwrites3 & Hfile3).
    { now rewrite Ho2, Hf2. }
    cbv zeta in Hthis3, Hwrites3, Hfile3.
    rewrite Hthis2 in Hthis3, Hwrites3, Hfile3. cbn [currentData isRunning timeoutId]
      in Hthis3, Hwrites3, Hfile3.
    assert (Hne : [record] <> []) by discriminate.
    pose proof (detectChanges_old_empty LotteryManager.date
                  LotteryManager.hasDataChanged [record] Hne) as Hpos.
    apply Nat.ltb_lt in Hpos. fold LotteryManager.detectChanges in Hpos.
    rewrite Hpos in Hthis3, Hwrites3, Hfile3.
    rewrite Ho2, Hwrites2, Hwrite in Hfile3. rewrite Hwrites2 in Hwrites3.
    pose proof (LotterySchedule.lottery_cycle_schedule w2) as Hs3.
    set (w3 := snd (LotteryManager.runScrapingCycle w2)) in *.
    destruct (start_stopped_run LotteryManager.loadExistingData
                LotteryManager.runScrapingCycle LotterySchedule.lottery_cycle_schedule
                LotteryFacts.lottery_runScrapingCycle_total w Hstopped)
      as (Hstart & Hthis' & Htimers' & Hfile' & Hwrites').
    { exact Hok. }
    { fold w1 w2. now rewrite Hthis2. }
    fold LotteryManager.start in Hstart, Hthis', Htimers', Hfile', Hwrites'.
    fold w1 w2 w3 in Hthis', Htimers', Hfile', Hwrites'. fold w' in Hthis', Htimers', Hfile', Hwrites'.
    assert (Htm3 : timers w3 = [] /\ timersMade w3 = timersMade w).
    { unfold schedule in Hs3. injection Hs3 as _ _ Ht Hm. split; congruence. }
    destruct Htm3 as [Ht3 Hm3].
    rewrite Hthis3, Hm3 in Hthis'. cbn [currentData] in Hthis'.
    rewrite Ht3, Hm3 in Htimers'. rewrite Hfile3 in Hfile'. rewrite Hwrites3 in Hwrites'.
    split; [exact Hstart |]. split; [exact Hthis' |].
    split; [exists ts; exact Hfile' |]. split; [exact Hwrites' |].
    exists (interval_of w3). split; [apply interval_of_bounds | exact Htimers'].
Qed.

Lemma X12_witness :
  this Samples.stock_first_run = StockDataManager.constructor /\
  [Samples.nikkei; Samples.dowjones] <> [] /\
  1 < CONFIG.maxRetries /\
  fst (StockDataManager.start Samples.stock_first_run) = Ok tt /\
  this (snd (StockDataManager.start Samples.stock_first_run))
    = mkManager [Samples.nikkei; Samples.dowjones] true
                (Some (timersMade Samples.stock_first_run)) /\
  writes (snd (StockDataManager.start Samples.stock_first_run))
    = S (writes Samples.stock_first_run).
Proof.
  assert (Hne : [Samples.nikkei; Samples.dowjones] <> []) by discriminate.
  assert (Hk : 1 < CONFIG.maxRetries) by (unfold CONFIG.maxRetries; lia).
  assert (Hall : forall i, i < 1 ->
            exists e, fetcher (oracle Samples.stock_first_run)
                              (fetches Samples.stock_first_run + i) = Raises e).
  { intros i Hi. exists Samples.boom. destruct i as [| i]; [reflexivity | lia]. }
  destruct (proj1 X12_first_start Samples.stock_first_run 1
              [Samples.nikkei; Samples.dowjones]
              eq_refl eq_refl eq_refl Hne Hk Hall eq_refl eq_refl)
    as (Hok & Hthis & _ & Hwrites & _).
  split; [reflexivity |]. split; [exact Hne |]. split; [exact Hk |].
  split; [exact Hok |]. split; [exact Hthis | exact Hwrites].
Defined.

(** ** fetchLottoData, from the HTTP response on *)

Module LottoApiFacts.
Import LotteryManager LottoApi.


(** The three ways of the API to have no prize data. *)
Lemma no_prize_data_iff (result : Value) :
  negb (truthy result)
  || negb (truthy (property result "prizes"))
  || length_is_zero (property result "prizes") = true <->
  truthy result = false \/
  truthy (property result "prizes") = false \/
  length_is_zero (property result "prizes") = true.
Proof. rewrite !orb_true_iff, !negb_true_iff. tauto. Qed.

Lemma fetchLottoData_not_ok (response : Response) (t1 t2 : string) :
  ok response = false -> fetchLottoData (Responds response) t1 t2 = Ok None.
Proof. intros H. unfold fetchLottoData. now rewrite H. Qed.

(** The branch that builds the record, by the fields read. *)
Lemma fetchLottoData_builds (response : Response) (data : Value) (t1 t2 : string) :
  ok response = true ->
  body response = Json data ->
  nullish data = false ->
  negb (truthy (property data "response"))
  || negb (truthy (property (property data "response") "prizes"))
  || length_is_zero (property (property data "response") "prizes") = false ->
  fetchLottoData (Responds response) t1 t2
  = match js_or (property (property data "response") "drawDate") (VStr t1),
          to_nullable (js_or (number_at (property (property data "response") "prizes") 0)
                             VNull),
          to_nullable (js_or (opt_number_at
                                (property (property data "response") "runningNumbers") 0)
                             VNull),
          to_nullable (js_or (opt_number_at
                                (property (property data "response") "runningNumbers") 1)
                             VNull),
          to_nullable (js_or (opt_number_at
                                (property (property data "response") "runningNumbers") 2)
                             VNull) with
    | VStr date, Some a, Some b, Some c, Some d =>
        Ok (Some (mkRecord date (mkPrizes a b c d) t2))
    | _, _, _, _, _ => OutsideModel
    end.
Proof.
  intros Hok Hbody Hnull Hdata. unfold fetchLottoData.
  rewrite Hok, Hbody. cbn [negb]. rewrite Hnull. cbv zeta. rewrite Hdata. reflexivity.
Qed.

End LottoApiFacts.

(** X13.  In [fetchLottoData] a response that is not [ok], and a response
    without prize data, are "no data" and not an error.  The method returns
    [null] exactly when the response is not [ok] (whatever its body), or is
    [ok] with a body whose [response] is falsy, or has a falsy [prizes], or
    has a [prizes] of length 0.  It raises exactly when [fetch] rejects, the
    body is not JSON, or the body is the JSON [null].  A cycle in which every
    call gets a response that is not [ok] returns normally and leaves the
    manager's fields, the file and the count of writes as they were. *)
Theorem X13_no_data_is_not_an_error :
  (forall (answer : LottoApi.HttpAnswer) (t1 t2 : string),
      LottoApi.fetchLottoData answer t1 t2 = Ok None <->
      exists response,
        answer = LottoApi.Responds response /\
        (LottoApi.ok response = false \/
         exists data,
           LottoApi.ok response = true /\
           LottoApi.body response = Json data /\
           LottoApi.nullish data = false /\
           (truthy (LottoApi.property data "response") = false \/
            truthy (LottoApi.property (LottoApi.property data "response") "prizes") = false \/
            LottoApi.length_is_zero
              (LottoApi.property (LottoApi.property data "response") "prizes") = true))) /\
  (forall (answer : LottoApi.HttpAnswer) (t1 t2 : string) (e : Err),
      LottoApi.fetchLottoData answer t1 t2 = Throw e <->
      answer = LottoApi.Rejects e \/
      exists response,
        answer = LottoApi.Responds response /\
        LottoApi.ok response = true /\
        (LottoApi.body response = Garbled e \/
         exists data,
           LottoApi.body response = Json data /\
           LottoApi.nullish data = true /\
           e = TypeError "Cannot read properties of null (reading 'response')")) /\
  (forall w : LotteryManager.World,
      (forall i, i < CONFIG.maxRetries ->
         exists response t1 t2,
           LottoApi.ok response = false /\
           LottoApi.answer_of (LottoApi.fetchLottoData (LottoApi.Responds response) t1 t2)
           = Some (fetcher (oracle w) (fetches w + i))) ->
      let w' := snd (LotteryManager.runScrapingCycle w) in
      fst (LotteryManager.runScrapingCycle w) = Ok tt /\
      this w' = this w /\ dataFile w' = dataFile w /\ writes w' = writes w).
Proof.
  split; [| split].
  - intros answer t1 t2. split.
    + intros H. destruct answer as [e | response]; [discriminate H |].
      exists response. split; [reflexivity |].
      destruct (LottoApi.ok response) eqn:Hok; [right | now left].
      destruct (LottoApi.body response) as [e | data] eqn:Hbody.
      { unfold LottoApi.fetchLottoData in H. rewrite Hok, Hbody in H. discriminate H. }
      destruct (LottoApi.nullish data) eqn:Hnull.
      { unfold LottoApi.fetchLottoData in H. rewrite Hok, Hbody in H. cbn [negb] in H.
        rewrite Hnull in H. discriminate H. }
      exists data. split; [reflexivity |]. split; [reflexivity |]. split; [exact Hnull |].
      apply LottoApiFacts.no_prize_data_iff.
      destruct (negb (truthy (LottoApi.property data "response"))
                || negb (truthy (LottoApi.property (LottoApi.property data "response")
                                                   "prizes"))
                || LottoApi.length_is_zero
                     (LottoApi.property (LottoApi.property data "response") "prizes"))
        eqn:Hdata; [reflexivity |].
      rewrite (LottoApiFacts.fetchLottoData_builds response data t1 t2 Hok Hbody Hnull Hdata)
        in H.
      repeat match type of H with
             | context [match ?x with _ => _ end] => destruct x; try discriminate H
             end.
    + intros (response & -> & [Hok | (data & Hok & Hbody & Hnull & Hdata)]).
      * now apply LottoApiFacts.fetchLottoData_not_ok.
      * apply LottoApiFacts.no_prize_data_iff in Hdata.
        unfold LottoApi.fetchLottoData. rewrite Hok, Hbody. cbn [negb]. rewrite Hnull.
        cbv zeta. now rewrite Hdata.
  - intros answer t1 t2 e. split.
    + intros H. destruct answer as [e' | response].
      { left. simpl in H. congruence. }
      right. exists response. split; [reflexivity |].
      destruct (LottoApi.ok response) eqn:Hok.
      2:{ rewrite LottoApiFacts.fetchLottoData_not_ok in H by assumption. discriminate H. }
      split; [reflexivity |].
      destruct (LottoApi.body response) as [e' | data] eqn:Hbody.
      { left. unfold LottoApi.fetchLottoData in H. rewrite Hok, Hbody in H.
        cbn [negb] in H. congruence. }
      right. exists data. split; [reflexivity |].
      destruct (LottoApi.nullish data) eqn:Hnull.
      { unfold LottoApi.fetchLottoData in H. rewrite Hok, Hbody in H. cbn [negb] in H.
        rewrite Hnull in H. split; [reflexivity | congruence]. }
      exfalso.
      destruct (negb (truthy (LottoApi.property data "response"))
                || negb (truthy (LottoApi.property (LottoApi.property data "response")
                                                   "prizes"))
                || LottoApi.length_is_zero
                     (LottoApi.property (LottoApi.property data "response") "prizes"))
        eqn:Hdata.
      { unfold LottoApi.fetchLottoData in H. rewrite Hok, Hbody in H. cbn [negb] in H.
        rewrite Hnull in H. cbv zeta in H. rewrite Hdata in H. discriminate H. }
      rewrite (LottoApiFacts.fetchLottoData_builds response data t1 t2 Hok Hbody Hnull Hdata)
        in H.
      repeat match type of H with
             | context [match ?x with _ => _ end] => destruct x; try discriminate H
             end.
    + intros [-> | (response & -> & Hok & [Hbody | (data & Hbody & Hnull & ->)])].
      * reflexivity.
      * unfold LottoApi.fetchLottoData. now rewrite Hok, Hbody.
      * unfold LottoApi.fetchLottoData. rewrite Hok, Hbody. cbn [negb]. now rewrite Hnull.
  - intros w Hall w'.
    assert (Hnone : Forall (fun a => is_record a = false)
                           (answers_from w CONFIG.maxRetries)).
    { apply Forall_forall. intros a Hin. unfold answers_from in Hin.
      apply in_map_iff in Hin. destruct Hin as (i & <- & Hi). apply in_seq in Hi.
      destruct (Hall i ltac:(lia)) as (response & t1 & t2 & Hok & Hans).
      rewrite LottoApiFacts.fetchLottoData_not_ok in Hans by assumption.
      simpl in Hans. injection Hans as <-. reflexivity. }
    destruct (LotteryCycleFacts.lottery_runScrapingCycle_no_record w Hnone) as [Hok Hh].
    fold w' in Hh. apply holdings_eq in Hh. destruct Hh as (H1 & H2 & H3). auto.
Qed.

Lemma X13_witness :
  (forall i, i < CONFIG.maxRetries ->
     exists response t1 t2,
       LottoApi.ok response = false /\
       LottoApi.answer_of (LottoApi.fetchLottoData (LottoApi.Responds response) t1 t2)
       = Some (fetcher (oracle Samples.lottery_not_found)
                       (fetches Samples.lottery_not_found + i))) /\
  fst (LotteryManager.runScrapingCycle Samples.lottery_not_found) = Ok tt /\
  this (snd (LotteryManager.runScrapingCycle Samples.lottery_not_found))
    = this Samples.lottery_not_found.
Proof.
  assert (Hall : forall i, i < CONFIG.maxRetries ->
     exists response t1 t2,
       LottoApi.ok response = false /\
       LottoApi.answer_of (LottoApi.fetchLottoData (LottoApi.Responds response) t1 t2)
       = Some (fetcher (oracle Samples.lottery_not_found)
                       (fetches Samples.lottery_not_found + i))).
  { intros i _.
    exists (LottoApi.mkResponse false 404 (Garbled Samples.boom)), "", "".
    split; reflexivity. }
  split; [exact Hall |].
  destruct (proj2 (proj2 X13_no_data_is_not_an_error) Samples.lottery_not_found Hall)
    as (Hok & Hthis & _).
  split; [exact Hok | exact Hthis].
Defined.


